(** * File Integrity Checker: the baseline store and the verification logic

    A shallow embedding of [src/main.js].  The page keeps a list of baseline
    records in one [localStorage] slot, as JSON text; every operation loads
    the whole list, changes it and writes it back.

    The file has three parts.  First the browser services the script calls
    ([JSON], SHA-256 of Web Crypto, the fragment of JavaScript that runs on
    JSON values), then the page state and the functions of the script, each
    under the name it has in the source, written in a small monad of state
    and exceptions.  Second, the notions the properties are stated with and
    the sample data.  Third, the lemmas, the claims about the
    specification, one module per component, and further properties of the
    script: its escaping, its frames, its flows and its session
    invariants.

    Outside the model: the clipboard, the layout of the table and of dates
    and sizes in it, the storage quota and the other limits of the engine
    (the depth [JSON.stringify] can descend to, the length of a string),
    and the interleaving of two handlers (each handler runs from its event
    to its end). *)

From Stdlib Require Import String Ascii List ZArith NArith Bool Lia.
From Stdlib Require Import Decimal DecimalString DecimalN Hexadecimal HexadecimalString.
From stdpp Require Import gmap strings list fin_maps.

Local Open Scope string_scope.
Set Warnings "-register-all".

(** ** Characters used by the JSON grammar *)

Module Chars.

Definition dquote : ascii := "034"%char.
Definition backslash : ascii := "\"%char.
Definition slash : ascii := "/"%char.
Definition backspace : ascii := "008"%char.
Definition tab : ascii := "009"%char.
Definition newline : ascii := "010"%char.
Definition formfeed : ascii := "012"%char.
Definition creturn : ascii := "013"%char.
Definition space : ascii := " "%char.

Definition is_ws (c : ascii) : bool :=
  Ascii.eqb c space || Ascii.eqb c tab || Ascii.eqb c newline || Ascii.eqb c creturn.

Definition is_control (c : ascii) : bool := (N_of_ascii c <? 32)%N.

(** The value of a hexadecimal digit, in either case. *)
Definition hex_val (c : ascii) : option N :=
  let n := N_of_ascii c in
  if (48 <=? n)%N && (n <=? 57)%N then Some (n - 48)%N
  else if (97 <=? n)%N && (n <=? 102)%N then Some (n - 87)%N
  else if (65 <=? n)%N && (n <=? 70)%N then Some (n - 55)%N
  else None.

(** The lowercase hexadecimal digit of a value below 16. *)
Definition hex_digit (n : N) : ascii :=
  if (n <? 10)%N then ascii_of_N (48 + n) else ascii_of_N (87 + n).

(** A decimal digit as the constructor of [Decimal.uint] it stands for. *)
Definition dec_digit (c : ascii) : option (Decimal.uint -> Decimal.uint) :=
  match (N_of_ascii c - 48)%N, (48 <=? N_of_ascii c)%N with
  | 0%N, true => Some Decimal.D0
  | 1%N, true => Some Decimal.D1
  | 2%N, true => Some Decimal.D2
  | 3%N, true => Some Decimal.D3
  | 4%N, true => Some Decimal.D4
  | 5%N, true => Some Decimal.D5
  | 6%N, true => Some Decimal.D6
  | 7%N, true => Some Decimal.D7
  | 8%N, true => Some Decimal.D8
  | 9%N, true => Some Decimal.D9
  | _, _ => None
  end.

End Chars.

(** ** JSON values and the runtime's [JSON.stringify] / [JSON.parse]

    Strings are sequences of 8-bit code units, and numbers are integers of
    any size: the numbers this script stores ([File.size],
    [File.lastModified], [Date.now()]) are integers.  A number literal with
    a fraction or an exponent, and a [\u] escape above [00ff], are outside
    this model and [parse] rejects them.  An object is the list of its
    members in the order of the text; the runtime's reordering of
    integer-like keys is not modelled. *)

Module JSON.
Import Chars.

Inductive value : Type :=
| JNull
| JBool (b : bool)
| JNum (n : Z)
| JStr (s : string)
| JArr (items : list value)
| JObj (members : list (string * value)).

(** *** Serialisation *)

Definition string_of_N (n : N) : string :=
  DecimalString.NilEmpty.string_of_uint (N.to_uint n).

Definition string_of_Z (z : Z) : string :=
  if (z <? 0)%Z then String "-" (string_of_N (Z.abs_N z)) else string_of_N (Z.abs_N z).

Definition hex2 (n : N) : string :=
  String (hex_digit (n / 16)) (String (hex_digit (n mod 16)) EmptyString).

Definition escape_char (c : ascii) : string :=
  if Ascii.eqb c dquote then String backslash (String dquote EmptyString)
  else if Ascii.eqb c backslash then "\\"
  else if Ascii.eqb c backspace then "\b"
  else if Ascii.eqb c formfeed then "\f"
  else if Ascii.eqb c newline then "\n"
  else if Ascii.eqb c creturn then "\r"
  else if Ascii.eqb c tab then "\t"
  else if is_control c then "\u00" +:+ hex2 (N_of_ascii c)
  else String c EmptyString.

Fixpoint escape (s : string) : string :=
  match s with
  | EmptyString => EmptyString
  | String c r => escape_char c +:+ escape r
  end.

Definition quote (s : string) : string :=
  String dquote (escape s +:+ String dquote EmptyString).

Fixpoint join (sep : string) (l : list string) : string :=
  match l with
  | [] => EmptyString
  | [x] => x
  | x :: r => x +:+ sep +:+ join sep r
  end.

Definition member_text (k : string) (v : string) : string :=
  quote k +:+ ":" +:+ v.

Fixpoint stringify (v : value) : string :=
  match v with
  | JNull => "null"
  | JBool true => "true"
  | JBool false => "false"
  | JNum n => string_of_Z n
  | JStr s => quote s
  | JArr items => "[" +:+ join "," (map stringify items) +:+ "]"
  | JObj members =>
      "{" +:+ join "," (map (fun kv => member_text (fst kv) (stringify (snd kv))) members)
          +:+ "}"
  end.

(** [JSON.stringify(v, null, n)] with [gap] the [n] spaces of indentation
    ([n] at least one) and [indent] the indentation reached so far. *)
Fixpoint stringify_gap (gap indent : string) (v : value) : string :=
  let nl := String newline EmptyString in
  let inner := indent +:+ gap in
  match v with
  | JArr [] => "[]"
  | JArr items =>
      "[" +:+ nl +:+ inner
          +:+ join ("," +:+ nl +:+ inner) (map (stringify_gap gap inner) items)
          +:+ nl +:+ indent +:+ "]"
  | JObj [] => "{}"
  | JObj members =>
      "{" +:+ nl +:+ inner
          +:+ join ("," +:+ nl +:+ inner)
                (map (fun kv => quote (fst kv) +:+ ": " +:+ stringify_gap gap inner (snd kv))
                     members)
          +:+ nl +:+ indent +:+ "}"
  | _ => stringify v
  end.

(** *** Parsing *)

Fixpoint skip_ws (s : string) : string :=
  match s with
  | String c r => if is_ws c then skip_ws r else s
  | EmptyString => s
  end.

(** The characters of a string literal after its opening quote, up to and
    including the closing quote. *)
Fixpoint parse_chars (s : string) : option (string * string) :=
  let cons c res :=
    match res with Some (t, r) => Some (String c t, r) | None => None end in
  match s with
  | EmptyString => None
  | String c r =>
      if Ascii.eqb c dquote then Some (EmptyString, r)
      else if Ascii.eqb c backslash then
        match r with
        | String e r' =>
            if Ascii.eqb e dquote then cons dquote (parse_chars r')
            else if Ascii.eqb e backslash then cons backslash (parse_chars r')
            else if Ascii.eqb e slash then cons slash (parse_chars r')
            else if Ascii.eqb e "b" then cons backspace (parse_chars r')
            else if Ascii.eqb e "f" then cons formfeed (parse_chars r')
            else if Ascii.eqb e "n" then cons newline (parse_chars r')
            else if Ascii.eqb e "r" then cons creturn (parse_chars r')
            else if Ascii.eqb e "t" then cons tab (parse_chars r')
            else if Ascii.eqb e "u" then
              match r' with
              | String h1 (String h2 (String h3 (String h4 r''))) =>
                  match hex_val h1, hex_val h2, hex_val h3, hex_val h4 with
                  | Some a, Some b, Some c', Some d =>
                      if ((a =? 0) && (b =? 0))%N
                      then cons (ascii_of_N (16 * c' + d)) (parse_chars r'')
                      else None
                  | _, _, _, _ => None
                  end
              | _ => None
              end
            else None
        | EmptyString => None
        end
      else if is_control c then None
      else cons c (parse_chars r)
  end.

(** The longest run of decimal digits at the head of [s]. *)
Fixpoint read_digits (s : string) : Decimal.uint * string :=
  match s with
  | String c r =>
      match dec_digit c with
      | Some d => let (ds, r') := read_digits r in (d ds, r')
      | None => (Decimal.Nil, s)
      end
  | EmptyString => (Decimal.Nil, s)
  end.

Definition starts_fraction (s : string) : bool :=
  match s with
  | String c _ => Ascii.eqb c "." || Ascii.eqb c "e" || Ascii.eqb c "E"
  | EmptyString => false
  end.

(** An unsigned integer literal: digits with no leading zero. *)
Definition parse_nat (s : string) : option (N * string) :=
  let (ds, r) := read_digits s in
  match ds with
  | Decimal.Nil => None
  | _ =>
      if Decimal.uint_beq (Decimal.unorm ds) ds && negb (starts_fraction r)
      then Some (N.of_uint ds, r) else None
  end.

Definition parse_number (s : string) : option (value * string) :=
  match s with
  | String c r =>
      if Ascii.eqb c "-" then
        match parse_nat r with
        | Some (n, r') => Some (JNum (- Z.of_N n), r')
        | None => None
        end
      else
        match parse_nat s with
        | Some (n, r') => Some (JNum (Z.of_N n), r')
        | None => None
        end
  | EmptyString => None
  end.

Fixpoint expect (word : string) (s : string) : option string :=
  match word, s with
  | EmptyString, _ => Some s
  | String w word', String c r => if Ascii.eqb w c then expect word' r else None
  | String _ _, EmptyString => None
  end.

(** Own properties of a parsed object: a repeated key keeps its first
    position and its last value. *)
Fixpoint lookup_member (k : string) (ms : list (string * value)) : option value :=
  match ms with
  | [] => None
  | (k', v) :: r => if String.eqb k k' then Some v else lookup_member k r
  end.

Fixpoint remove_member (k : string) (ms : list (string * value)) : list (string * value) :=
  match ms with
  | [] => []
  | (k', v) :: r => if String.eqb k k' then r else (k', v) :: remove_member k r
  end.

Definition add_member (k : string) (v : value) (ms : list (string * value)) :=
  match lookup_member k ms with
  | Some v' => (k, v') :: remove_member k ms
  | None => (k, v) :: ms
  end.

Fixpoint parse_value (fuel : nat) (s : string) : option (value * string) :=
  match fuel with
  | O => None
  | S n =>
      match skip_ws s with
      | EmptyString => None
      | String c r =>
          if Ascii.eqb c "n" then
            match expect "ull" r with Some r' => Some (JNull, r') | None => None end
          else if Ascii.eqb c "t" then
            match expect "rue" r with Some r' => Some (JBool true, r') | None => None end
          else if Ascii.eqb c "f" then
            match expect "alse" r with Some r' => Some (JBool false, r') | None => None end
          else if Ascii.eqb c dquote then
            match parse_chars r with Some (t, r') => Some (JStr t, r') | None => None end
          else if Ascii.eqb c "[" then
            match expect "]" (skip_ws r) with
            | Some r' => Some (JArr [], r')
            | None =>
                match parse_elements n r with
                | Some (vs, r') => Some (JArr vs, r')
                | None => None
                end
            end
          else if Ascii.eqb c "{" then
            match expect "}" (skip_ws r) with
            | Some r' => Some (JObj [], r')
            | None =>
                match parse_members n r with
                | Some (ms, r') => Some (JObj ms, r')
                | None => None
                end
            end
          else parse_number (String c r)
      end
  end
with parse_elements (fuel : nat) (s : string) : option (list value * string) :=
  match fuel with
  | O => None
  | S n =>
      match parse_value n s with
      | Some (v, r) =>
          match skip_ws r with
          | String c r' =>
              if Ascii.eqb c "," then
                match parse_elements n r' with
                | Some (vs, r'') => Some (v :: vs, r'')
                | None => None
                end
              else if Ascii.eqb c "]" then Some ([v], r')
              else None
          | EmptyString => None
          end
      | None => None
      end
  end
with parse_members (fuel : nat) (s : string) : option (list (string * value) * string) :=
  match fuel with
  | O => None
  | S n =>
      match skip_ws s with
      | String q r =>
          if Ascii.eqb q dquote then
            match parse_chars r with
            | Some (k, r1) =>
                match expect ":" (skip_ws r1) with
                | Some r2 =>
                    match parse_value n r2 with
                    | Some (v, r3) =>
                        match skip_ws r3 with
                        | String c r4 =>
                            if Ascii.eqb c "," then
                              match parse_members n r4 with
                              | Some (ms, r5) => Some (add_member k v ms, r5)
                              | None => None
                              end
                            else if Ascii.eqb c "}" then Some ([(k, v)], r4)
                            else None
                        | EmptyString => None
                        end
                    | None => None
                    end
                | None => None
                end
            | None => None
            end
          else None
      | EmptyString => None
      end
  end.

(** Every level of nesting and every element costs at most two units. *)
Definition parse_fuel (s : string) : nat := 2 * String.length s + 2.

(** [JSON.parse]: [None] stands for the [SyntaxError] it throws. *)
Definition parse (s : string) : option value :=
  match parse_value (parse_fuel s) s with
  | Some (v, r) =>
      match skip_ws r with
      | EmptyString => Some v
      | String _ _ => None
      end
  | None => None
  end.

(** *** Values that [stringify] writes and [parse] reads back unchanged:
    no object repeats a key. *)

Fixpoint distinct_keys (ms : list (string * value)) : bool :=
  match ms with
  | [] => true
  | (k, _) :: r =>
      match lookup_member k r with
      | None => distinct_keys r
      | Some _ => false
      end
  end.

Fixpoint wf (v : value) : bool :=
  match v with
  | JArr items => forallb wf items
  | JObj members => distinct_keys members && forallb (fun kv => wf (snd kv)) members
  | _ => true
  end.

(** The number of values in [v], counting [v]: the fuel its text needs. *)
Fixpoint size (v : value) : nat :=
  match v with
  | JArr items => S (list_sum (map (fun x => S (size x)) items))
  | JObj members => S (list_sum (map (fun kv => S (size (snd kv))) members))
  | _ => 1
  end.

End JSON.

(** ** The Web Crypto digest primitive: SHA-256 (FIPS 180-4)

    [crypto.subtle.digest("SHA-256", buf)] over 32-bit words held in [Z]. *)

Module SHA256.
Local Open Scope Z_scope.

Definition w32 (x : Z) : Z := x mod 2 ^ 32.
Definition add32 (x y : Z) : Z := w32 (x + y).
Definition rotr (n x : Z) : Z := Z.lor (Z.shiftr x n) (w32 (Z.shiftl x (32 - n))).
Definition not32 (x : Z) : Z := 2 ^ 32 - 1 - x.

Definition Ch (x y z : Z) : Z := Z.lxor (Z.land x y) (Z.land (not32 x) z).
Definition Maj (x y z : Z) : Z :=
  Z.lxor (Z.lxor (Z.land x y) (Z.land x z)) (Z.land y z).
Definition Sigma0 (x : Z) : Z := Z.lxor (Z.lxor (rotr 2 x) (rotr 13 x)) (rotr 22 x).
Definition Sigma1 (x : Z) : Z := Z.lxor (Z.lxor (rotr 6 x) (rotr 11 x)) (rotr 25 x).
Definition sigma0 (x : Z) : Z := Z.lxor (Z.lxor (rotr 7 x) (rotr 18 x)) (Z.shiftr x 3).
Definition sigma1 (x : Z) : Z := Z.lxor (Z.lxor (rotr 17 x) (rotr 19 x)) (Z.shiftr x 10).

(** The first [n] primes, by trial division. *)
Definition is_prime (p : Z) : bool :=
  forallb (fun k => negb (p mod Z.of_nat k =? 0)) (seq 2 (Z.to_nat p - 2)).

Fixpoint primes_from (fuel : nat) (n : nat) (candidate : Z) : list Z :=
  match fuel, n with
  | O, _ => []
  | _, O => []
  | S fuel', S n' =>
      if is_prime candidate
      then candidate :: primes_from fuel' n' (candidate + 1)
      else primes_from fuel' n (candidate + 1)
  end.

Definition primes (n : nat) : list Z := primes_from 400 n 2.

(** The integer cube root, by bisection over 36 bits. *)
Fixpoint cbrt_bits (bit : nat) (x acc : Z) : Z :=
  match bit with
  | O => acc
  | S bit' =>
      let try := acc + 2 ^ Z.of_nat bit' in
      cbrt_bits bit' x (if try * try * try <=? x then try else acc)
  end.

Definition cbrt (x : Z) : Z := cbrt_bits 36 x 0.

(** The round constants: the first 32 bits of the fractional parts of the
    cube roots of the first 64 primes. *)
Definition K : list Z :=
  Eval vm_compute in map (fun p => w32 (cbrt (p * 2 ^ 96))) (primes 64).

(** The hash state: eight 32-bit words. *)
Record state := mk { a : Z; b : Z; c : Z; d : Z; e : Z; f : Z; g : Z; h : Z }.

(** The initial state: the first 32 bits of the fractional parts of the
    square roots of the first 8 primes. *)
Definition H0 : state :=
  Eval vm_compute in
  match map (fun p => w32 (Z.sqrt (p * 2 ^ 64))) (primes 8) with
  | [h0; h1; h2; h3; h4; h5; h6; h7] => mk h0 h1 h2 h3 h4 h5 h6 h7
  | _ => mk 0 0 0 0 0 0 0 0
  end.

Definition pad (msg : list Z) : list Z :=
  let len := Z.of_nat (length msg) in
  let zeros := Z.to_nat ((55 - len) mod 64) in
  let bits := 8 * len in
  msg ++ [0x80] ++ repeat 0 zeros
      ++ map (fun i => Z.shiftr bits (8 * (7 - Z.of_nat i)) mod 256) (seq 0 8).

Fixpoint words (bytes : list Z) : list Z :=
  match bytes with
  | b0 :: b1 :: b2 :: b3 :: r =>
      (Z.shiftl b0 24 + Z.shiftl b1 16 + Z.shiftl b2 8 + b3) :: words r
  | _ => []
  end.

(** The message schedule, newest word first. *)
Fixpoint extend (n : nat) (w : list Z) : list Z :=
  match n with
  | O => w
  | S n' =>
      let nth' i := nth i w 0 in
      extend n' (add32 (add32 (sigma1 (nth' 1%nat)) (nth' 6%nat))
                       (add32 (sigma0 (nth' 14%nat)) (nth' 15%nat)) :: w)
  end.

Definition schedule (block : list Z) : list Z := rev (extend 48 (rev block)).

Definition round (s : state) (kw : Z * Z) : state :=
  let t1 := add32 (add32 (add32 (h s) (Sigma1 (e s))) (Ch (e s) (f s) (g s)))
                  (add32 (fst kw) (snd kw)) in
  let t2 := add32 (Sigma0 (a s)) (Maj (a s) (b s) (c s)) in
  mk (add32 t1 t2) (a s) (b s) (c s) (add32 (d s) t1) (e s) (f s) (g s).

Definition compress (s : state) (block : list Z) : state :=
  let s' := fold_left round (combine K (schedule block)) s in
  mk (add32 (a s) (a s')) (add32 (b s) (b s')) (add32 (c s) (c s')) (add32 (d s) (d s'))
     (add32 (e s) (e s')) (add32 (f s) (f s')) (add32 (g s) (g s')) (add32 (h s) (h s')).

Fixpoint blocks (n : nat) (ws : list Z) (s : state) : state :=
  match n with
  | O => s
  | S n' =>
      match ws with
      | [] => s
      | _ => blocks n' (skipn 16 ws) (compress s (firstn 16 ws))
      end
  end.

Definition word_bytes (w : Z) : list Byte.byte :=
  map (fun k => match Byte.of_N (Z.to_N (Z.shiftr w k mod 256)) with
                | Some x => x
                | None => Byte.x00
                end) [24; 16; 8; 0].

Definition output (s : state) : list Byte.byte :=
  word_bytes (a s) ++ word_bytes (b s) ++ word_bytes (c s) ++ word_bytes (d s)
    ++ word_bytes (e s) ++ word_bytes (f s) ++ word_bytes (g s) ++ word_bytes (h s).

Definition digest (msg : list Byte.byte) : list Byte.byte :=
  let ws := words (pad (map (fun x => Z.of_N (Byte.to_N x)) msg)) in
  output (blocks (length ws) ws H0).

End SHA256.

(** ** The fragment of JavaScript the script runs on JSON values *)

Module JS.
Import JSON.

Inductive Error : Type :=
| TypeError
| SyntaxError
| NotReadableError.

(** How an evaluation ends: with a value, or with a thrown error. *)
Inductive completion (A : Type) : Type :=
| Normal (a : A)
| Throw (err : Error).
Arguments Normal {A} a.
Arguments Throw {A} err.

(** The result of a property read: [None] is [undefined]. *)
Definition jsval : Type := option value.

Definition truthy (v : jsval) : bool :=
  match v with
  | None => false
  | Some JNull => false
  | Some (JBool b) => b
  | Some (JNum n) => negb (n =? 0)%Z
  | Some (JStr s) => negb (String.eqb s EmptyString)
  | Some (JArr _) => true
  | Some (JObj _) => true
  end.

(** [v.k] for the keys the script reads ([length], [id], [name], [size],
    [hash], [savedAt]): none of them is an array index or a property that a
    JSON value inherits, apart from [length] on arrays and strings. *)
Definition get (v : value) (k : string) : completion jsval :=
  match v with
  | JNull => Throw TypeError
  | JObj members => Normal (lookup_member k members)
  | JArr items =>
      if String.eqb k "length" then Normal (Some (JNum (Z.of_nat (length items))))
      else Normal None
  | JStr s =>
      if String.eqb k "length" then Normal (Some (JNum (Z.of_nat (String.length s))))
      else Normal None
  | JBool _ => Normal None
  | JNum _ => Normal None
  end.

(** [x === s] where [s] is a string: no conversion, exact comparison of the
    code units. *)
Definition strict_eq_string (x : jsval) (s : string) : bool :=
  match x with
  | Some (JStr t) => String.eqb t s
  | _ => false
  end.

(** [Array.prototype.find], [filter] and [map] with a callback that may
    throw; the callback of [map] also receives the index. *)
Fixpoint find_loop (p : value -> completion bool) (l : list value)
  : completion (option value) :=
  match l with
  | [] => Normal None
  | x :: r =>
      match p x with
      | Normal true => Normal (Some x)
      | Normal false => find_loop p r
      | Throw err => Throw err
      end
  end.

Fixpoint filter_loop (p : value -> completion bool) (l : list value)
  : completion (list value) :=
  match l with
  | [] => Normal []
  | x :: r =>
      match p x with
      | Normal keep =>
          match filter_loop p r with
          | Normal r' => Normal (if keep then x :: r' else r')
          | Throw err => Throw err
          end
      | Throw err => Throw err
      end
  end.

Fixpoint map_loop {B : Type} (f : value -> nat -> completion B) (i : nat) (l : list value)
  : completion (list B) :=
  match l with
  | [] => Normal []
  | x :: r =>
      match f x i with
      | Normal y =>
          match map_loop f (S i) r with
          | Normal r' => Normal (y :: r')
          | Throw err => Throw err
          end
      | Throw err => Throw err
      end
  end.

(** A method call [arr.m(...)] on a JSON value that is not an array throws:
    no other JSON value has a callable [find], [filter], [map] or [push]. *)
Definition Array_find (arr : value) (p : value -> completion bool)
  : completion (option value) :=
  match arr with
  | JArr items => find_loop p items
  | _ => Throw TypeError
  end.

Definition Array_filter (arr : value) (p : value -> completion bool)
  : completion value :=
  match arr with
  | JArr items =>
      match filter_loop p items with
      | Normal items' => Normal (JArr items')
      | Throw err => Throw err
      end
  | _ => Throw TypeError
  end.

Definition Array_map {B : Type} (arr : value) (f : value -> nat -> completion B)
  : completion (list B) :=
  match arr with
  | JArr items => map_loop f 0 items
  | _ => Throw TypeError
  end.

(** [push] appends in place; the model returns the array after the call. *)
Definition Array_push (arr : value) (x : value) : completion value :=
  match arr with
  | JArr items => Normal (JArr (items ++ [x]))
  | _ => Throw TypeError
  end.

(** [String.prototype.replaceAll] with a one-character pattern. *)
Fixpoint replaceAll (pat : ascii) (by_ : string) (s : string) : string :=
  match s with
  | EmptyString => EmptyString
  | String c r =>
      if Ascii.eqb c pat then by_ +:+ replaceAll pat by_ r
      else String c (replaceAll pat by_ r)
  end.

(** [String.prototype.padStart]. *)
Fixpoint fill (k : nat) (cur pad : string) : string :=
  match k with
  | O => EmptyString
  | S k' =>
      match cur with
      | String c r => String c (fill k' r pad)
      | EmptyString =>
          match pad with
          | String c r => String c (fill k' r pad)
          | EmptyString => EmptyString
          end
      end
  end.

Definition padStart (n : nat) (pad : string) (s : string) : string :=
  fill (n - String.length s) pad pad +:+ s.

(** [Number.prototype.toString(16)] on a non-negative integer. *)
Definition toString16 (n : N) : string :=
  HexadecimalString.NilEmpty.string_of_uint (N.to_hex_uint n).

End JS.

(** ** The page: its state and the effects of the script *)

Module File.
(** A [File] chosen in a file input.  [arrayBuffer] is [None] when reading
    the file fails. *)
Record t : Type := mk {
  name : string;
  size : Z;
  lastModified : Z;
  arrayBuffer : option (list Byte.byte)
}.
End File.

Module Baseline.
Import JSON.

(** The object literal built by [addRecord], as a typed record. *)
Record t : Type := mk {
  id : string;
  name : string;
  size : Z;
  lastModified : Z;
  hash : string;
  savedAt : Z
}.

Definition to_json (r : t) : value :=
  JObj [ ("id", JStr (id r));
         ("name", JStr (name r));
         ("size", JNum (size r));
         ("lastModified", JNum (lastModified r));
         ("hash", JStr (hash r));
         ("savedAt", JNum (savedAt r)) ].

Definition list_to_json (rs : list t) : value := JArr (map to_json rs).

End Baseline.

Module Page.
Import JSON JS.

(** The text handed to [show], with the values it interpolates. *)
Inductive Message : Type :=
| Blank
| ChooseFileFirst
| Hashing
| SavedBaseline (name : string) (size : Z) (hash : string)
| FailedToHash (err : Error)
| SelectionCleared
| ChooseFileToVerify
| ComputingHash
| NoBaselinesSaved (currentHash : string)
| Match (matched : value) (currentHash : string)
| NoMatchSameName (currentHash : string) (sameName : list value)
| NoMatchFound (currentHash : string)
| ComputingQuick
| QuickMatch (rec : value) (h : string)
| QuickMismatch (rec : value) (h : string).

Record Shown : Type := mkShown { className : string; textContent : Message }.

(** One row of the table of baselines: the values its cells are built from. *)
Record Row : Type := mkRow {
  row_number : nat;
  row_name : string;
  row_size : jsval;
  row_savedAt : jsval;
  row_hash : jsval;
  row_id : jsval
}.

Inductive TableBody : Type :=
| NoBaselinesYet
| Rows (rows : list Row).

(** The two result boxes and the two file inputs. *)
Inductive Element : Type := regResult | verResult.
Inductive Input : Type := regFile | verFile.

Record t : Type := mk {
  localStorage : gmap string string;
  regFiles : option File.t;
  verFiles : option File.t;
  regShown : Shown;
  verShown : Shown;
  recordsBody : TableBody
}.

(** What the ambient calls return while one handler runs:
    [crypto.randomUUID()] when the browser has it,
    [String(Date.now() + Math.random())] and [Date.now()]. *)
Record Env : Type := mkEnv {
  randomUUID : option string;
  now_plus_random : string;
  now : Z
}.

(** Computations of the script: they change the page and end normally or
    by throwing. *)
Definition M (A : Type) : Type := t -> completion A * t.

Definition ret {A} (a : A) : M A := fun p => (Normal a, p).
Definition throw {A} (err : Error) : M A := fun p => (Throw err, p).
Definition lift {A} (c : completion A) : M A := fun p => (c, p).

Definition bind {A B} (c : M A) (k : A -> M B) : M B :=
  fun p =>
    match c p with
    | (Normal a, p') => k a p'
    | (Throw err, p') => (Throw err, p')
    end.

Definition try_catch {A} (body : M A) (handler : Error -> M A) : M A :=
  fun p =>
    match body p with
    | (Normal a, p') => (Normal a, p')
    | (Throw err, p') => handler err p'
    end.

Definition exec {A} (c : M A) (p : t) : t := snd (c p).
Definition eval {A} (c : M A) (p : t) : completion A := fst (c p).

End Page.

Declare Scope js_scope.
Delimit Scope js_scope with js.
Notation "'do' x <- c ;; k" := (Page.bind c (fun x => k))
  (at level 10, x name, c at level 99, k at level 200) : js_scope.
Notation "'run' c ;; k" := (Page.bind c (fun _ => k))
  (at level 10, c at level 99, k at level 200) : js_scope.

(** ** The script, [src/main.js]

    The headings are those of the source, with its line numbers. *)

Module Main.
Import JSON JS Page.
Local Open Scope js_scope.

Definition STORE_KEY : string := "integrityRecords_v1".

(** *** Storage key (line 29), DOM and storage primitives *)

Definition getItem (key : string) : M (option string) :=
  fun p => (Normal (localStorage p !! key), p).

Definition setItem (key : string) (text : string) : M unit :=
  fun p => (Normal tt,
            mk (<[key := text]> (localStorage p)) (regFiles p) (verFiles p)
               (regShown p) (verShown p) (recordsBody p)).

Definition removeItem (key : string) : M unit :=
  fun p => (Normal tt,
            mk (delete key (localStorage p)) (regFiles p) (verFiles p)
               (regShown p) (verShown p) (recordsBody p)).

Definition set_recordsBody (body : TableBody) : M unit :=
  fun p => (Normal tt,
            mk (localStorage p) (regFiles p) (verFiles p) (regShown p) (verShown p) body).

Definition JSON_parse (text : string) : M value :=
  match JSON.parse text with
  | Some v => ret v
  | None => throw SyntaxError
  end.

Definition JSON_stringify (v : value) : string := JSON.stringify v.

(** [JSON.stringify(v, null, 2)] *)
Definition JSON_stringify_2 (v : value) : string :=
  JSON.stringify_gap "  " EmptyString v.

(** [input.files?.[0]] *)
Definition files (input : Input) : M (option File.t) :=
  fun p => (Normal (match input with regFile => regFiles p | verFile => verFiles p end), p).

(** The user picks a file, or the script empties [input.value] and so drops
    the selection. *)
Definition set_files (input : Input) (chosen : option File.t) : M unit :=
  fun p => (Normal tt,
            match input with
            | regFile =>
                mk (localStorage p) chosen (verFiles p) (regShown p) (verShown p)
                   (recordsBody p)
            | verFile =>
                mk (localStorage p) (regFiles p) chosen (regShown p) (verShown p)
                   (recordsBody p)
            end).

(** *** Utility: arrayBuffer -> hex string (lines 32-41) *)

Definition toHex (buffer : list Byte.byte) : string :=
  String.concat EmptyString
    (map (fun b => padStart 2 "0" (toString16 (Byte.to_N b))) buffer).

(** *** SHA-256 of any Blob/File (lines 44-50) *)

Definition sha256OfFile (file : File.t) : M string :=
  do arrayBuf <- lift (match File.arrayBuffer file with
                       | Some bytes => Normal bytes
                       | None => Throw NotReadableError
                       end) ;;
  let hashBuffer := SHA256.digest arrayBuf in
  ret (toHex hashBuffer).

(** *** LocalStorage helpers (lines 53-64) *)

Definition loadRecords : M value :=
  try_catch
    (do raw <- getItem STORE_KEY ;;
     match raw with
     | Some (String _ _ as text) => JSON_parse text
     | Some EmptyString => ret (JArr [])
     | None => ret (JArr [])
     end)
    (fun _ => ret (JArr [])).

Definition saveRecords (lst : value) : M unit :=
  setItem STORE_KEY (JSON_stringify lst).

(** *** Simple HTML escape (for filenames) (lines 95-101) *)

Definition escape_text (t : string) : string :=
  replaceAll Chars.dquote "&quot;"
    (replaceAll ">" "&gt;"
      (replaceAll "<" "&lt;"
        (replaceAll "&" "&amp;" t))).

(** The operand of [??] is replaced by the empty string when it is
    [undefined] or [null]; of the other values only a string has
    [replaceAll]. *)
Definition escapeHtml (s : jsval) : completion string :=
  match s with
  | None => Normal EmptyString
  | Some JNull => Normal EmptyString
  | Some (JStr t) => Normal (escape_text t)
  | Some _ => Throw TypeError
  end.

(** *** Render saved records in table (lines 67-92) *)

Definition renderRow (r : value) (i : nat) : completion Row :=
  match get r "savedAt" with
  | Throw err => Throw err
  | Normal when =>
      match get r "size", get r "name" with
      | Normal sizeKb, Normal nm =>
          match escapeHtml nm, get r "hash", get r "id" with
          | Normal escaped, Normal h, Normal rid =>
              Normal (mkRow (i + 1) escaped sizeKb when h rid)
          | Throw err, _, _ => Throw err
          | _, Throw err, _ => Throw err
          | _, _, Throw err => Throw err
          end
      | Throw err, _ => Throw err
      | _, Throw err => Throw err
      end
  end.

Definition renderRecords : M unit :=
  do lst <- loadRecords ;;
  do len <- lift (get lst "length") ;;
  if negb (truthy len) then set_recordsBody NoBaselinesYet
  else
    do rows <- lift (Array_map lst renderRow) ;;
    set_recordsBody (Rows rows).

(** *** The arrow functions handed to [find] and [filter]
    (lines 122, 220, 232 and 310) *)

(** [r => r.hash === currentHash] *)
Definition hash_is (currentHash : string) (r : value) : completion bool :=
  match get r "hash" with
  | Normal h => Normal (strict_eq_string h currentHash)
  | Throw err => Throw err
  end.

(** [r => r.name === name] *)
Definition name_is (name : string) (r : value) : completion bool :=
  match get r "name" with
  | Normal nm => Normal (strict_eq_string nm name)
  | Throw err => Throw err
  end.

(** [r => r.id === id] *)
Definition id_is (id : string) (r : value) : completion bool :=
  match get r "id" with
  | Normal rid => Normal (strict_eq_string rid id)
  | Throw err => Throw err
  end.

(** [r => r.id !== id] *)
Definition id_is_not (id : string) (r : value) : completion bool :=
  match get r "id" with
  | Normal rid => Normal (negb (strict_eq_string rid id))
  | Throw err => Throw err
  end.

(** *** Add a new record (lines 104-118) *)

(** [crypto.randomUUID ? crypto.randomUUID() : String(Date.now() + Math.random())] *)
Definition new_id (env : Env) : string :=
  match randomUUID env with
  | Some uuid => uuid
  | None => now_plus_random env
  end.

Definition addRecord (env : Env) (name : string) (size lastModified : Z) (hash : string)
  : M string :=
  do lst <- loadRecords ;;
  let id := new_id env in
  do lst' <- lift (Array_push lst
                  (JObj [ ("id", JStr id);
                          ("name", JStr name);
                          ("size", JNum size);
                          ("lastModified", JNum lastModified);
                          ("hash", JStr hash);
                          ("savedAt", JNum (now env)) ])) ;;
  run saveRecords lst' ;;
  run renderRecords ;;
  ret id.

(** *** Delete a record by id (lines 121-125) *)

Definition deleteRecord (id : string) : M unit :=
  do loaded <- loadRecords ;;
  do lst <- lift (Array_filter loaded (id_is_not id)) ;;
  run saveRecords lst ;;
  renderRecords.

(** *** Clear everything (lines 128-131) *)

Definition clearAllRecords : M unit :=
  run removeItem STORE_KEY ;;
  renderRecords.

(** *** UI feedback helpers (lines 151-154) *)

Definition show (regOrVerEl : Element) (msg : Message) (kind : string) : M unit :=
  fun p =>
    let s := mkShown ("result " +:+ kind) msg in
    (Normal tt,
     match regOrVerEl with
     | regResult =>
         mk (localStorage p) (regFiles p) (verFiles p) s (verShown p) (recordsBody p)
     | verResult =>
         mk (localStorage p) (regFiles p) (verFiles p) (regShown p) s (recordsBody p)
     end).

(** *** A) Register flow (hash & save baseline) (lines 159-190) *)

Definition btnHashSave_click (env : Env) : M unit :=
  do chosen <- files regFile ;;
  match chosen with
  | None => show regResult ChooseFileFirst "warn"
  | Some f =>
      run show regResult Hashing EmptyString ;;
      try_catch
        (do hash <- sha256OfFile f ;;
         do id <- addRecord env (File.name f) (File.size f) (File.lastModified f) hash ;;
         show regResult (SavedBaseline (File.name f) (File.size f) hash) "ok")
        (fun e => show regResult (FailedToHash e) "bad")
  end.

Definition btnClearReg_click : M unit :=
  run set_files regFile None ;;
  show regResult SelectionCleared EmptyString.

(** *** B) Verify flow (lines 198-265) *)

Definition btnVerify_click : M unit :=
  do chosen <- files verFile ;;
  match chosen with
  | None => show verResult ChooseFileToVerify "warn"
  | Some f =>
      run show verResult ComputingHash EmptyString ;;
      try_catch
        (do currentHash <- sha256OfFile f ;;
         do lst <- loadRecords ;;
         do len <- lift (get lst "length") ;;
         if negb (truthy len) then show verResult (NoBaselinesSaved currentHash) "warn"
         else
           do found <- lift (Array_find lst (hash_is currentHash)) ;;
           match found with
           | Some matched => show verResult (Match matched currentHash) "ok"
           | None =>
               do sameName <- lift (Array_filter lst (name_is (File.name f))) ;;
               do n <- lift (get sameName "length") ;;
               if truthy n
               then show verResult
                      (NoMatchSameName currentHash
                         (match sameName with JArr items => items | _ => [] end)) "bad"
               else show verResult (NoMatchFound currentHash) "bad"
           end)
        (fun e => show verResult (FailedToHash e) "bad")
  end.

Definition btnClearVer_click : M unit :=
  run set_files verFile None ;;
  show verResult SelectionCleared EmptyString.

(** *** C) Table actions: copy hash, quick-verify, delete (lines 270-340) *)

(** What was clicked in the table: a hash cell, a button with its
    [data-action] and [data-id], or anything else. *)
Inductive Target : Type :=
| Copyable (text : string)
| Button (action : string) (id : string)
| Elsewhere.

(** The [change] listener of the file input that quick-verify opens; [id]
    is the [data-id] of the button that was clicked. *)
Definition quickVerify_change (id : string) (chosen : option File.t) : M unit :=
  match chosen with
  | None => ret tt
  | Some f =>
      do lst <- loadRecords ;;
      do found <- lift (Array_find lst (id_is id)) ;;
      match found with
      | None => ret tt
      | Some rec =>
          run show verResult ComputingQuick EmptyString ;;
          try_catch
            (do h <- sha256OfFile f ;;
             do recHash <- lift (get rec "hash") ;;
             if strict_eq_string recHash h
             then show verResult (QuickMatch rec h) "ok"
             else show verResult (QuickMismatch rec h) "bad")
            (fun e => show verResult (FailedToHash e) "bad")
      end
  end.

(** [confirmed] is the answer to [confirm(...)]; [chosen] is the file picked
    in the dialog that quick-verify opens, if any.  Copying to the clipboard
    leaves the page state as it is. *)
Definition recordsBody_click (target : Target) (confirmed : bool) (chosen : option File.t)
  : M unit :=
  match target with
  | Copyable _ => ret tt
  | Elsewhere => ret tt
  | Button action id =>
      if String.eqb action "delete" then
        if confirmed then deleteRecord id else ret tt
      else if String.eqb action "quick-verify" then quickVerify_change id chosen
      else ret tt
  end.

(** *** D) Export / Delete All (lines 345-363) *)

(** The text of the downloaded document.  The limits of the engine are
    outside the model: [JSON.stringify] gives up with a RangeError on a
    value nested deeper than its stack allows, and this handler has no
    [try].  What the script writes itself nests two levels deep. *)
Definition btnExport_click : M string :=
  do lst <- loadRecords ;;
  ret (JSON_stringify_2 lst).

Definition btnClearAll_click (confirmed : bool) : M unit :=
  if confirmed then clearAllRecords else ret tt.

End Main.

(** ** The page as a state machine: one step per event

    An event is handled from start to end before the next one; what the
    user answers in a dialog comes with the event. *)

Module Session.
Import JS Page Main.
Local Open Scope js_scope.

Inductive Event : Type :=
| Load
| Choose (input : Input) (chosen : File.t)
| HashSave (env : Env)
| ClearReg
| Verify
| ClearVer
| Table (target : Target) (confirmed : bool) (chosen : option File.t)
| Export
| ClearAll (confirmed : bool).

(** [Load] is the last line of the script, [renderRecords()] (line 368). *)
Definition handle (e : Event) : M unit :=
  match e with
  | Load => renderRecords
  | Choose input chosen => set_files input (Some chosen)
  | HashSave env => btnHashSave_click env
  | ClearReg => btnClearReg_click
  | Verify => btnVerify_click
  | ClearVer => btnClearVer_click
  | Table target confirmed chosen => recordsBody_click target confirmed chosen
  | Export => do _ <- btnExport_click ;; ret tt
  | ClearAll confirmed => btnClearAll_click confirmed
  end.

Definition step (e : Event) (p : Page.t) : Page.t := exec (handle e) p.

Inductive reachable (p0 : Page.t) : Page.t -> Prop :=
| reach_start : reachable p0 p0
| reach_step (p : Page.t) (e : Event) : reachable p0 p -> reachable p0 (step e p).

End Session.

(** ** The specification's words, over typed records *)

Module Spec.
Local Open Scope list_scope.

(** The four outcomes of the verification algorithm of section 4.2. *)
Inductive Outcome : Type :=
| NoBaselines (digest : string)
| MATCH (record : Baseline.t) (digest : string)
| NO_MATCH_BUT_SAME_NAME (records : list Baseline.t) (digest : string)
| NO_MATCH (digest : string).

(** The first record, in stored order, whose digest equals the argument. *)
Definition findByDigest (digest : string) (store : list Baseline.t) : option Baseline.t :=
  List.find (fun r => bool_decide (Baseline.hash r = digest)) store.

(** All records whose name equals the argument, in stored order. *)
Definition findByName (name : string) (store : list Baseline.t) : list Baseline.t :=
  filter (fun r => Baseline.name r = name) store.

(** Steps 2 to 4 of the verification algorithm, on the digest that step 1
    computed. *)
Definition verify (digest filename : string) (store : list Baseline.t) : Outcome :=
  match store with
  | [] => NoBaselines digest
  | _ :: _ =>
      match findByDigest digest store with
      | Some r => MATCH r digest
      | None =>
          match findByName filename store with
          | [] => NO_MATCH digest
          | (_ :: _) as same => NO_MATCH_BUT_SAME_NAME same digest
          end
      end
  end.

(** Quick-verify: one record, a binary outcome. *)
Inductive QuickOutcome : Type :=
| QUICK_MATCH
| QUICK_MISMATCH.

Definition quickVerify (digest : string) (record : Baseline.t) : QuickOutcome :=
  if decide (Baseline.hash record = digest) then QUICK_MATCH else QUICK_MISMATCH.

(** The persisted layout as section 6 words it. *)
Definition record_fields : list string :=
  ["id"; "name"; "size"; "lastModified"; "digest"; "savedAt"].

End Spec.

(** ** Notions used to state the properties *)

Module Text.
Import Chars JSON.

(** Every character of [s] satisfies [p]. *)
Fixpoint all_chars (p : ascii -> bool) (s : string) : bool :=
  match s with
  | EmptyString => true
  | String c r => p c && all_chars p r
  end.

(** [s] is made of JSON whitespace only. *)
Definition all_ws (s : string) : bool := all_chars is_ws s.

Definition nl : string := String newline EmptyString.

(** What may follow a number: anything but a digit, a fraction or an
    exponent. *)
Definition delimited (rest : string) : bool :=
  match rest with
  | String c _ =>
      match dec_digit c with
      | Some _ => false
      | None => negb (starts_fraction rest)
      end
  | EmptyString => true
  end.

(** A number starts with a digit or a minus sign. *)
Definition number_head (s : string) : bool :=
  match s with
  | String c _ => Ascii.eqb c "-" || match dec_digit c with Some _ => true | None => false end
  | EmptyString => false
  end.

(** The characters a serialised value can start with. *)
Definition value_head (c : ascii) : bool :=
  Ascii.eqb c "n" || Ascii.eqb c "t" || Ascii.eqb c "f" || Ascii.eqb c dquote
  || Ascii.eqb c "[" || Ascii.eqb c "{" || Ascii.eqb c "-"
  || match dec_digit c with Some _ => true | None => false end.

(** [v] is read back from its text, whatever follows it. *)
Definition reads_back (v : value) : Prop :=
  forall (n : nat) (rest : string),
    delimited rest = true ->
    parse_value (size v + n) (stringify v +:+ rest) = Some (v, rest).

Definition element_fuel (items : list value) : nat :=
  list_sum (map (fun x => S (size x)) items).

Definition member_fuel (members : list (string * value)) : nat :=
  list_sum (map (fun kv => S (size (snd kv))) members).

Definition members_text (members : list (string * value)) : string :=
  join "," (map (fun kv => member_text (fst kv) (stringify (snd kv))) members).

(** The same for the indented text, at every indentation made of
    whitespace. *)
Definition reads_back_gap (gap : string) (v : value) : Prop :=
  forall (indent : string) (n : nat) (rest : string),
    all_ws indent = true ->
    delimited rest = true ->
    parse_value (size v + n) (stringify_gap gap indent v +:+ rest) = Some (v, rest).

Definition members_text_gap (gap inner : string) (members : list (string * value)) : string :=
  join ("," +:+ nl +:+ inner)
    (map (fun kv => quote (fst kv) +:+ ": " +:+ stringify_gap gap inner (snd kv)) members).

End Text.

Module Store.
Import JSON JS Page Main.
Local Open Scope list_scope.

(** The value [loadRecords] makes of the slot. *)
Definition stored_value (slot : option string) : value :=
  match slot with
  | Some (String _ _ as text) =>
      match JSON.parse text with
      | Some v => v
      | None => JArr []
      end
  | Some EmptyString => JArr []
  | None => JArr []
  end.

(** The store holds the records [rs], in this order. *)
Definition holds (p : Page.t) (rs : list Baseline.t) : Prop :=
  eval loadRecords p = Normal (Baseline.list_to_json rs).

(** The record that [addRecord] builds. *)
Definition added (env : Env) (name : string) (size lastModified : Z) (hash : string)
  : Baseline.t :=
  Baseline.mk (new_id env) name size lastModified hash (now env).

(** The table [renderRecords] draws for the records [rs]. *)
Definition row_of (i : nat) (r : Baseline.t) : Row :=
  mkRow (i + 1) (escape_text (Baseline.name r))
        (Some (JNum (Baseline.size r))) (Some (JNum (Baseline.savedAt r)))
        (Some (JStr (Baseline.hash r))) (Some (JStr (Baseline.id r))).

Fixpoint rows_from (i : nat) (rs : list Baseline.t) : list Row :=
  match rs with
  | [] => []
  | r :: rs' => row_of i r :: rows_from (S i) rs'
  end.

Definition table_of (rs : list Baseline.t) : TableBody :=
  match rs with
  | [] => NoBaselinesYet
  | _ :: _ => Rows (rows_from 0 rs)
  end.

(** What is in the slot, as text: nothing yet, or the serialised records. *)
Definition persisted (p : Page.t) (rs : list Baseline.t) : Prop :=
  match localStorage p !! STORE_KEY with
  | None => rs = []
  | Some text => text = JSON_stringify (Baseline.list_to_json rs)
  end.

(** A computation that leaves [localStorage] as it is. *)
Definition keeps_storage {A : Type} (c : M A) : Prop :=
  forall p : Page.t, localStorage (exec c p) = localStorage p.

(** What one step of the page can do to [localStorage] when the store
    holds [rs]. *)
Inductive storage_step (p : Page.t) (rs : list Baseline.t) (q : Page.t) : Prop :=
| storage_kept : localStorage q = localStorage p -> storage_step p rs q
| storage_added (r : Baseline.t) :
    localStorage q
    = <[STORE_KEY := JSON_stringify (Baseline.list_to_json (rs ++ [r]))]> (localStorage p) ->
    storage_step p rs q
| storage_removed (id : string) :
    localStorage q
    = <[STORE_KEY := JSON_stringify
                       (Baseline.list_to_json (filter (fun r => Baseline.id r <> id) rs))]>
        (localStorage p) ->
    storage_step p rs q
| storage_cleared :
    localStorage q = delete STORE_KEY (localStorage p) -> storage_step p rs q.

(** The page after [show(verResult, ...)]. *)
Definition with_verShown (s : Shown) (p : Page.t) : Page.t :=
  Page.mk (localStorage p) (regFiles p) (verFiles p) (regShown p) s (recordsBody p).

(** The digest string of a file's bytes. *)
Definition digest_of (bytes : list Byte.byte) : string := toHex (SHA256.digest bytes).

(** How the page words each outcome of the specification. *)
Definition shown_outcome (o : Spec.Outcome) : Shown :=
  match o with
  | Spec.NoBaselines d => mkShown "result warn" (NoBaselinesSaved d)
  | Spec.MATCH r d => mkShown "result ok" (Match (Baseline.to_json r) d)
  | Spec.NO_MATCH_BUT_SAME_NAME same d =>
      mkShown "result bad" (NoMatchSameName d (map Baseline.to_json same))
  | Spec.NO_MATCH d => mkShown "result bad" (NoMatchFound d)
  end.

Definition shown_quick (o : Spec.QuickOutcome) (r : Baseline.t) (d : string) : Shown :=
  match o with
  | Spec.QUICK_MATCH => mkShown "result ok" (QuickMatch (Baseline.to_json r) d)
  | Spec.QUICK_MISMATCH => mkShown "result bad" (QuickMismatch (Baseline.to_json r) d)
  end.

(** An object whose keys are exactly [keys], in some order. *)
Definition has_fields (keys : list string) (v : value) : Prop :=
  exists members, v = JObj members /\ map fst members ≡ₚ keys.

(** The object [addRecord] writes: six fields, in this order, with these
    types. *)
Definition record_shape (v : value) : Prop :=
  exists (id name : string) (size lastModified : Z) (hash : string) (savedAt : Z),
    v = JObj [ ("id", JStr id); ("name", JStr name); ("size", JNum size);
               ("lastModified", JNum lastModified); ("hash", JStr hash);
               ("savedAt", JNum savedAt) ].

(** The records in the slot, as [JSON.parse] reads the text. *)
Definition persisted_items (p : Page.t) : option (list value) :=
  match localStorage p !! STORE_KEY with
  | Some text =>
      match JSON.parse text with
      | Some (JArr items) => Some items
      | _ => None
      end
  | None => None
  end.

End Store.

Module Hex.
Import JS Main.

Definition lower_hex_char (c : ascii) : bool :=
  let n := N_of_ascii c in
  ((48 <=? n)%N && (n <=? 57)%N) || ((97 <=? n)%N && (n <=? 102)%N).

(** The two characters [toHex] writes for one byte. *)
Definition byte_hex (b : Byte.byte) : string := padStart 2 "0" (toString16 (Byte.to_N b)).

End Hex.

(** ** Notions for the escaping, the frames and the session invariants *)

Module Html.
Import Chars JS Main Text.

(** What [escapeHtml] writes in place of one character. *)
Definition entity (c : ascii) : string :=
  if Ascii.eqb c "&" then "&amp;"
  else if Ascii.eqb c "<" then "&lt;"
  else if Ascii.eqb c ">" then "&gt;"
  else if Ascii.eqb c dquote then "&quot;"
  else String c EmptyString.

Fixpoint entities (t : string) : string :=
  match t with
  | EmptyString => EmptyString
  | String c r => entity c +:+ entities r
  end.

(** The four characters [escapeHtml] replaces. *)
Definition reserved (c : ascii) : bool :=
  Ascii.eqb c "&" || Ascii.eqb c "<" || Ascii.eqb c ">" || Ascii.eqb c dquote.

(** A character that cannot open or close a tag, nor end a quoted
    attribute. *)
Definition inert (c : ascii) : bool :=
  negb (Ascii.eqb c "<" || Ascii.eqb c ">" || Ascii.eqb c dquote).

Definition hex_byte (c1 c2 : ascii) : option Byte.byte :=
  match hex_val c1, hex_val c2 with
  | Some hi, Some lo => Byte.of_N (16 * hi + lo)
  | _, _ => None
  end.

(** Reading a hex string back, two characters a byte. *)
Fixpoint fromHex (s : string) : option (list Byte.byte) :=
  match s with
  | EmptyString => Some []
  | String _ EmptyString => None
  | String c1 (String c2 r) =>
      match hex_byte c1 c2, fromHex r with
      | Some b, Some bs => Some (b :: bs)
      | _, _ => None
      end
  end.

End Html.

Module Frame.
Import JSON JS Page Main Store Session.
Local Open Scope list_scope.

(** A computation that leaves a part of the page as it is, also when it
    throws. *)
Definition preserves {A B : Type} (view : Page.t -> B) (c : M A) : Prop :=
  forall p : Page.t, view (exec c p) = view p.


(** The page without the verify box, without the table, and the parts the
    register handler never writes. *)
Definition beside_verShown (p : Page.t) :=
  (localStorage p, regFiles p, verFiles p, regShown p, recordsBody p).

Definition inputs_and_boxes (p : Page.t) :=
  (regFiles p, verFiles p, regShown p, verShown p).

Definition inputs_and_verShown (p : Page.t) :=
  (regFiles p, verFiles p, verShown p).

Definition store_and_table (p : Page.t) := (localStorage p, recordsBody p).

(** The page after [show(regResult, ...)]. *)
Definition with_regShown (s : Shown) (p : Page.t) : Page.t :=
  Page.mk (localStorage p) (regFiles p) (verFiles p) s (verShown p) (recordsBody p).

(** The events whose handler never calls [setItem] or [removeItem]. *)
Definition read_only (e : Event) : bool :=
  match e with
  | HashSave _ => false
  | Table (Button action _) true _ => negb (String.eqb action "delete")
  | ClearAll true => false
  | _ => true
  end.

(** A digest as [toHex] writes it for 32 bytes. *)
Definition hex_digest (d : string) : Prop :=
  String.length d = 64 /\ Text.all_chars Hex.lower_hex_char d = true.

(** The record that the register handler stores for a file that reads as
    [bytes]. *)
Definition registered (env : Env) (f : File.t) (bytes : list Byte.byte) : Baseline.t :=
  added env (File.name f) (File.size f) (File.lastModified f) (digest_of bytes).

(** What one event makes of the stored records. *)
Inductive records_step (rs : list Baseline.t) : list Baseline.t -> Prop :=
| records_kept : records_step rs rs
| records_registered (env : Env) (f : File.t) (bytes : list Byte.byte) :
    File.arrayBuffer f = Some bytes ->
    records_step rs (rs ++ [registered env f bytes])
| records_removed (id : string) :
    records_step rs (filter (fun r => Baseline.id r <> id) rs)
| records_cleared : records_step rs [].

(** The table shows the records that are stored. *)
Definition in_sync (p : Page.t) (rs : list Baseline.t) : Prop :=
  persisted p rs /\ recordsBody p = table_of rs.

End Frame.

(** ** Sample pages, files and records *)

Module Samples.
Import JSON JS Page Main Session.
Local Open Scope list_scope.

Definition blank : Page.t :=
  Page.mk ∅ None None (mkShown EmptyString Blank) (mkShown EmptyString Blank) NoBaselinesYet.

Definition env1 : Env := mkEnv (Some "3f2a-uuid-1") "1700000000000.25" 1700000000000.
Definition env2 : Env := mkEnv None "1700000000500.75" 1700000000500.

(** A later call in the millisecond of [env2], in a browser without
    [crypto.randomUUID]: [Date.now()] is 1700000000500 again and
    [Math.random()] returns 0.75003.  Doubles of this magnitude are 2^-12
    apart, so the sum is the double 1700000000500.75, as it was for 0.75,
    and [String] prints it the same. *)
Definition env2_again : Env := mkEnv None "1700000000500.75" 1700000000500.

(** A file holding the three bytes of [abc], and a file of the same name
    holding [abd]. *)
Definition abc : list Byte.byte := [Byte.x61; Byte.x62; Byte.x63].
Definition abd : list Byte.byte := [Byte.x61; Byte.x62; Byte.x64].
Definition file_a : File.t := File.mk "a.txt" 3 1690000000000 (Some abc).
Definition file_a_changed : File.t := File.mk "a.txt" 3 1695000000000 (Some abd).
Definition file_b : File.t := File.mk "b.txt" 3 1691000000000 (Some abd).
Definition file_a_edited : File.t :=
  File.mk "a.txt" 3 1696000000000 (Some [Byte.x61; Byte.x62; Byte.x65]).
Definition file_unreadable : File.t := File.mk "gone.txt" 7 1697000000000 None.

Definition abc_digest : string :=
  "ba7816bf8f01cfea414140de5dae2223b00361a396177a9cb410ff61f20015ad".

Definition rec_a : Baseline.t :=
  Baseline.mk "3f2a-uuid-1" "a.txt" 3 1690000000000 abc_digest 1700000000000.

Definition rec_b : Baseline.t :=
  Baseline.mk "1700000000500.75" "b.txt" 3 1691000000000
    "a52d159f262b2c6ddb724a61840befc36eb30c88877a4030b65cbe86298449c9" 1700000000500.

(** The page after registering [file_a], then [file_b]. *)
Definition page_one : Page.t := step (HashSave env1) (step (Choose regFile file_a) blank).
Definition page_two : Page.t := step (HashSave env2) (step (Choose regFile file_b) page_one).

(** [page_two] with a file chosen for verification. *)
Definition page_verify : Page.t := step (Choose verFile file_a_changed) page_two.

(** A record that shares the id of [rec_a], and a page whose store holds it
    after [rec_a] and [rec_b]. *)
Definition rec_twin : Baseline.t := Baseline.mk "3f2a-uuid-1" "c.txt" 9 1 "c0ffee" 2.

Definition page_twins : Page.t :=
  Page.mk {[ STORE_KEY := JSON_stringify (Baseline.list_to_json [rec_a; rec_b; rec_twin]) ]}
          None None (mkShown EmptyString Blank) (mkShown EmptyString Blank) NoBaselinesYet.

(** A page whose slot holds the given text, and the one that holds the
    text [null]. *)
Definition page_with (text : string) : Page.t :=
  Page.mk {[ STORE_KEY := text ]} None None (mkShown EmptyString Blank)
          (mkShown EmptyString Blank) NoBaselinesYet.

Definition page_null : Page.t := page_with "null".

End Samples.

(** * Properties *)

(** ** The monad of the script *)

Module MonadFacts.
Import JS Page.

Lemma bind_ret_l {A B} (a : A) (k : A -> M B) (p : Page.t) : bind (ret a) k p = k a p.
Proof. reflexivity. Qed.

Lemma bind_ret_r {A} (c : M A) (p : Page.t) : bind c ret p = c p.
Proof. unfold bind, ret. now destruct (c p) as [[a|err] p']. Qed.

Lemma bind_assoc {A B C} (c : M A) (k : A -> M B) (h : B -> M C) (p : Page.t) :
  bind (bind c k) h p = bind c (fun a => bind (k a) h) p.
Proof. unfold bind. now destruct (c p) as [[a|err] p']. Qed.

(** A thrown error skips the rest and keeps the changes made so far. *)
Lemma bind_throw {A B} (err : Error) (k : A -> M B) (p : Page.t) :
  bind (throw err) k p = (Throw err, p).
Proof. reflexivity. Qed.

Lemma try_catch_throw {A} (err : Error) (handler : Error -> M A) (p : Page.t) :
  try_catch (throw err) handler p = handler err p.
Proof. reflexivity. Qed.

Lemma try_catch_ret {A} (a : A) (handler : Error -> M A) (p : Page.t) :
  try_catch (ret a) handler p = (Normal a, p).
Proof. reflexivity. Qed.

End MonadFacts.

(** ** Strings *)

Module StringFacts.

Lemma app_cons (x : ascii) (a b : string) : String x a +:+ b = String x (a +:+ b).
Proof. reflexivity. Qed.

Lemma app_nil_l (b : string) : EmptyString +:+ b = b.
Proof. reflexivity. Qed.

Lemma app_assoc (a b c : string) : (a +:+ b) +:+ c = a +:+ (b +:+ c).
Proof.
  induction a as [|x a IH]; [reflexivity|].
  rewrite !app_cons. now rewrite IH.
Qed.

Lemma app_nil_r (a : string) : a +:+ EmptyString = a.
Proof.
  induction a as [|x a IH]; [reflexivity|].
  rewrite app_cons. now rewrite IH.
Qed.

Lemma length_app (a b : string) :
  String.length (a +:+ b) = String.length a + String.length b.
Proof.
  induction a as [|x a IH]; [reflexivity|].
  rewrite app_cons. cbn [String.length]. now rewrite IH.
Qed.

End StringFacts.

(** ** [JSON.parse] inverts [JSON.stringify] *)

Module JSONFacts.
Import Chars JSON Text StringFacts.

(** *** String literals *)

Lemma parse_chars_escape_char (c : ascii) (t : string) :
  parse_chars (escape_char c +:+ t) =
  match parse_chars t with
  | Some (u, r) => Some (String c u, r)
  | None => None
  end.
Proof.
  destruct c as [[] [] [] [] [] [] [] []]; reflexivity.
Qed.

Lemma parse_chars_escape (s rest : string) :
  parse_chars (escape s +:+ String dquote rest) = Some (s, rest).
Proof.
  induction s as [|c s IH]; [reflexivity|].
  cbn [escape]. rewrite app_assoc, parse_chars_escape_char, IH. reflexivity.
Qed.

Lemma quote_app (s rest : string) :
  quote s +:+ rest = String dquote (escape s +:+ String dquote rest).
Proof. unfold quote. now rewrite app_cons, app_assoc. Qed.

Lemma parse_value_string (n : nat) (s rest : string) :
  parse_value (S n) (quote s +:+ rest) = Some (JStr s, rest).
Proof.
  rewrite quote_app. simpl. now rewrite parse_chars_escape.
Qed.

(** *** Numbers *)

Lemma read_digits_uint (d : Decimal.uint) (rest : string) :
  delimited rest = true ->
  read_digits (DecimalString.NilEmpty.string_of_uint d +:+ rest) = (d, rest).
Proof.
  intros Hrest. induction d as [|d IH|d IH|d IH|d IH|d IH|d IH|d IH|d IH|d IH|d IH];
    cbn [DecimalString.NilEmpty.string_of_uint];
    try (rewrite app_cons; cbn [read_digits]; rewrite IH; reflexivity).
  rewrite app_nil_l. destruct rest as [|c r]; [reflexivity|].
  cbn [read_digits]. unfold delimited in Hrest.
  destruct (dec_digit c); [discriminate | reflexivity].
Qed.

Lemma to_uint_normal (n : N) : Decimal.unorm (N.to_uint n) = N.to_uint n.
Proof.
  rewrite <- (DecimalN.Unsigned.of_to n) at 2.
  now rewrite DecimalN.Unsigned.to_of.
Qed.

Lemma to_uint_nonnil (n : N) : N.to_uint n <> Decimal.Nil.
Proof. rewrite <- to_uint_normal. apply DecimalFacts.unorm_nonnil. Qed.

Lemma uint_beq_refl (d : Decimal.uint) : Decimal.uint_beq d d = true.
Proof. induction d; simpl; auto. Qed.

Lemma delimited_no_fraction (rest : string) :
  delimited rest = true -> starts_fraction rest = false.
Proof.
  destruct rest as [|c r]; [reflexivity|]. unfold delimited.
  destruct (dec_digit c); [discriminate|]. now destruct (starts_fraction _).
Qed.

Lemma parse_nat_N (n : N) (rest : string) :
  delimited rest = true ->
  parse_nat (string_of_N n +:+ rest) = Some (n, rest).
Proof.
  intros Hrest. unfold parse_nat, string_of_N.
  rewrite (read_digits_uint _ _ Hrest).
  rewrite to_uint_normal, uint_beq_refl, (delimited_no_fraction _ Hrest).
  rewrite DecimalN.Unsigned.of_to.
  pose proof (to_uint_nonnil n). now destruct (N.to_uint n).
Qed.

Lemma string_of_uint_head (d : Decimal.uint) (rest : string) :
  d <> Decimal.Nil ->
  exists c r, DecimalString.NilEmpty.string_of_uint d +:+ rest = String c r
              /\ Ascii.eqb c "-" = false /\ dec_digit c <> None.
Proof.
  intros Hd. destruct d; [congruence| ..];
    cbn [DecimalString.NilEmpty.string_of_uint]; rewrite app_cons;
    eexists _, _; (split; [reflexivity|]); split; (reflexivity || discriminate).
Qed.

Lemma parse_number_Z (z : Z) (rest : string) :
  delimited rest = true ->
  parse_number (string_of_Z z +:+ rest) = Some (JNum z, rest).
Proof.
  intros Hrest. unfold string_of_Z.
  destruct (z <? 0)%Z eqn:Hz.
  - rewrite app_cons. unfold parse_number.
    replace (Ascii.eqb "-" "-") with true by reflexivity.
    rewrite (parse_nat_N _ _ Hrest). do 2 f_equal. f_equal. lia.
  - pose proof (parse_nat_N (Z.abs_N z) rest Hrest) as Hp.
    destruct (string_of_uint_head (N.to_uint (Z.abs_N z)) rest (to_uint_nonnil _))
      as (c & r & Hs & Hc & _).
    unfold string_of_N in *. rewrite Hs in *. unfold parse_number.
    rewrite Hc, Hp. do 2 f_equal. f_equal. lia.
Qed.

(** A value that starts like a number is read as a number. *)
Lemma parse_value_number_head (n : nat) (s : string) :
  number_head s = true -> parse_value (S n) s = parse_number s.
Proof.
  destruct s as [|c r]; [discriminate|].
  destruct c as [[] [] [] [] [] [] [] []]; intros H; try discriminate H; reflexivity.
Qed.

Lemma string_of_Z_head (z : Z) (rest : string) :
  number_head (string_of_Z z +:+ rest) = true.
Proof.
  unfold string_of_Z. destruct (z <? 0)%Z; [reflexivity|].
  destruct (string_of_uint_head (N.to_uint (Z.abs_N z)) rest (to_uint_nonnil _))
    as (c & r & Hs & _ & Hc).
  unfold string_of_N. rewrite Hs. unfold number_head.
  destruct (dec_digit c); [apply orb_true_r | congruence].
Qed.

Lemma parse_value_number (n : nat) (z : Z) (rest : string) :
  delimited rest = true ->
  parse_value (S n) (string_of_Z z +:+ rest) = Some (JNum z, rest).
Proof.
  intros Hrest.
  rewrite parse_value_number_head by apply string_of_Z_head.
  now apply parse_number_Z.
Qed.

(** *** Induction on values, through arrays and objects *)

Lemma value_nested_ind (P : value -> Prop) :
  P JNull ->
  (forall b, P (JBool b)) ->
  (forall n, P (JNum n)) ->
  (forall s, P (JStr s)) ->
  (forall items, Forall P items -> P (JArr items)) ->
  (forall members, Forall (fun kv => P (snd kv)) members -> P (JObj members)) ->
  forall v, P v.
Proof.
  intros Hnull Hbool Hnum Hstr Harr Hobj.
  fix self 1. intros [ | b | n | s | items | members ].
  - exact Hnull.
  - apply Hbool.
  - apply Hnum.
  - apply Hstr.
  - apply Harr. induction items as [|x items IH]; constructor; [apply self | exact IH].
  - apply Hobj. induction members as [|[k x] members IH]; constructor;
      [apply self | exact IH].
Qed.

(** *** One step of each parsing function *)

Lemma parse_value_array (n : nat) (r : string) :
  parse_value (S n) (String "[" r) =
  match expect "]" (skip_ws r) with
  | Some r' => Some (JArr [], r')
  | None =>
      match parse_elements n r with
      | Some (vs, r') => Some (JArr vs, r')
      | None => None
      end
  end.
Proof. reflexivity. Qed.

Lemma parse_value_object (n : nat) (r : string) :
  parse_value (S n) (String "{" r) =
  match expect "}" (skip_ws r) with
  | Some r' => Some (JObj [], r')
  | None =>
      match parse_members n r with
      | Some (ms, r') => Some (JObj ms, r')
      | None => None
      end
  end.
Proof. reflexivity. Qed.

Lemma parse_elements_step (n : nat) (s : string) :
  parse_elements (S n) s =
  match parse_value n s with
  | Some (v, r) =>
      match skip_ws r with
      | String c r' =>
          if Ascii.eqb c "," then
            match parse_elements n r' with
            | Some (vs, r'') => Some (v :: vs, r'')
            | None => None
            end
          else if Ascii.eqb c "]" then Some ([v], r')
          else None
      | EmptyString => None
      end
  | None => None
  end.
Proof. reflexivity. Qed.

Lemma parse_members_step (n : nat) (k t : string) :
  parse_members (S n) (quote k +:+ ":" +:+ t) =
  match parse_value n t with
  | Some (v, r3) =>
      match skip_ws r3 with
      | String c r4 =>
          if Ascii.eqb c "," then
            match parse_members n r4 with
            | Some (ms, r5) => Some (add_member k v ms, r5)
            | None => None
            end
          else if Ascii.eqb c "}" then Some ([(k, v)], r4)
          else None
      | EmptyString => None
      end
  | None => None
  end.
Proof.
  rewrite quote_app. cbn [parse_members].
  replace (skip_ws (String dquote (escape k +:+ String dquote (":" +:+ t))))
    with (String dquote (escape k +:+ String dquote (":" +:+ t))) by reflexivity.
  replace (Ascii.eqb dquote dquote) with true by reflexivity.
  rewrite parse_chars_escape. reflexivity.
Qed.

(** *** The first character of a serialised value *)

Lemma value_head_not_closing (c : ascii) (r : string) :
  value_head c = true ->
  expect "]" (skip_ws (String c r)) = None /\ expect "}" (skip_ws (String c r)) = None.
Proof.
  destruct c as [[] [] [] [] [] [] [] []]; intros H; try discriminate H; split; reflexivity.
Qed.

Lemma stringify_head (v : value) (t : string) :
  exists c r, stringify v +:+ t = String c r /\ value_head c = true.
Proof.
  destruct v as [ | [] | n | s | items | members ];
    try (eexists _, _; split; [reflexivity | reflexivity]).
  cbn [stringify]. unfold string_of_Z. destruct (n <? 0)%Z.
  - eexists _, _; split; [reflexivity | reflexivity].
  - destruct (string_of_uint_head (N.to_uint (Z.abs_N n)) t (to_uint_nonnil _))
      as (c & r & Hs & _ & Hc).
    exists c, r. split; [exact Hs|]. unfold value_head.
    destruct (dec_digit c); [apply orb_true_r | congruence].
Qed.

(** *** Round trip, with the text that follows left untouched *)

Ltac norm_text :=
  rewrite ?app_assoc; repeat (rewrite app_cons || rewrite app_nil_l).

Lemma element_fuel_cons (x : value) (xs : list value) :
  element_fuel (x :: xs) = S (size x + element_fuel xs).
Proof. reflexivity. Qed.

Lemma member_fuel_cons (kv : string * value) (ms : list (string * value)) :
  member_fuel (kv :: ms) = S (size (snd kv) + member_fuel ms).
Proof. reflexivity. Qed.

Lemma join_cons2 (sep x y : string) (l : list string) :
  join sep (x :: y :: l) = x +:+ sep +:+ join sep (y :: l).
Proof. reflexivity. Qed.

Lemma parse_elements_stringify (items : list value) :
  Forall reads_back items ->
  items <> [] ->
  forall (n : nat) (rest : string),
    parse_elements (element_fuel items + n)
      (join "," (map stringify items) +:+ String "]" rest) = Some (items, rest).
Proof.
  induction 1 as [|x xs Hx Hxs IH]; [congruence|]. intros _ n rest.
  rewrite element_fuel_cons.
  replace (S (size x + element_fuel xs) + n) with (S (size x + (element_fuel xs + n))) by lia.
  rewrite parse_elements_step.
  destruct xs as [|y ys].
  - cbn [map join]. rewrite Hx by reflexivity. reflexivity.
  - cbn [map]. rewrite join_cons2, !app_assoc, (app_cons "," EmptyString), app_nil_l.
    rewrite Hx by reflexivity.
    replace (skip_ws (String "," (join "," (stringify y :: map stringify ys) +:+ String "]" rest)))
      with (String "," (join "," (stringify y :: map stringify ys) +:+ String "]" rest))
      by reflexivity.
    replace (Ascii.eqb "," ",") with true by reflexivity.
    replace (size x + (element_fuel (y :: ys) + n))
      with (element_fuel (y :: ys) + (size x + n)) by lia.
    change (stringify y :: map stringify ys) with (map stringify (y :: ys)).
    rewrite IH by discriminate. reflexivity.
Qed.

Lemma add_member_fresh (k : string) (v : value) (ms : list (string * value)) :
  lookup_member k ms = None -> add_member k v ms = (k, v) :: ms.
Proof. unfold add_member. now intros ->. Qed.

Lemma parse_members_stringify (members : list (string * value)) :
  Forall (fun kv => reads_back (snd kv)) members ->
  distinct_keys members = true ->
  members <> [] ->
  forall (n : nat) (rest : string),
    parse_members (member_fuel members + n)
      (members_text members +:+ String "}" rest) = Some (members, rest).
Proof.
  induction 1 as [|[k x] ms Hx Hms IH]; [congruence|]. intros Hkeys _ n rest.
  cbn [distinct_keys] in Hkeys. cbn [snd] in Hx.
  destruct (lookup_member k ms) eqn:Hk; [discriminate|].
  rewrite member_fuel_cons. unfold members_text. cbn [map fst snd].
  replace (S (size x + member_fuel ms) + n) with (S (size x + (member_fuel ms + n))) by lia.
  destruct ms as [|m ms'].
  - cbn [map join]. unfold member_text. rewrite !app_assoc.
    rewrite parse_members_step, Hx by reflexivity. reflexivity.
  - cbn [map]. rewrite join_cons2. unfold member_text at 1.
    rewrite !app_assoc, (app_cons "," EmptyString), app_nil_l.
    rewrite parse_members_step, Hx by reflexivity.
    match goal with
    | |- context [skip_ws (String "," ?t)] =>
        replace (skip_ws (String "," t)) with (String "," t) by reflexivity
    end.
    replace (Ascii.eqb "," ",") with true by reflexivity.
    replace (size x + (member_fuel (m :: ms') + n))
      with (member_fuel (m :: ms') + (size x + n)) by lia.
    match goal with
    | |- context [parse_members _ (join "," ?l +:+ _)] =>
        change (join "," l) with (members_text (m :: ms'))
    end.
    rewrite IH by (assumption || discriminate).
    now rewrite add_member_fresh.
Qed.

Lemma join_head (x : value) (xs : list value) (t : string) :
  exists t', join "," (map stringify (x :: xs)) +:+ t = stringify x +:+ t'.
Proof.
  destruct xs as [|y ys]; [now exists t|].
  cbn [map]. rewrite join_cons2, app_assoc. now eexists.
Qed.

Lemma forallb_Forall {A} (p : A -> bool) (P : A -> Prop) (l : list A) :
  Forall (fun x => p x = true -> P x) l -> forallb p l = true -> Forall P l.
Proof.
  induction 1 as [|x l Hx Hl IH]; [constructor|]. cbn [forallb].
  intros [Hp Hq]%andb_true_iff. constructor; auto.
Qed.

Lemma wf_reads_back (v : value) : wf v = true -> reads_back v.
Proof.
  induction v as [ | b | z | s | items IH | members IH ] using value_nested_ind;
    intros Hwf n rest Hrest.
  - reflexivity.
  - destruct b; reflexivity.
  - now apply parse_value_number.
  - apply parse_value_string.
  - cbn [wf] in Hwf. pose proof (forallb_Forall _ _ _ IH Hwf) as Hitems.
    cbn [stringify size]. fold (element_fuel items). norm_text.
    replace (S (element_fuel items) + n) with (S (element_fuel items + n)) by lia.
    rewrite parse_value_array.
    destruct items as [|x xs]; [reflexivity|].
    destruct (join_head x xs (String "]" rest)) as [t' Ht'].
    destruct (stringify_head x t') as (c & r & Hc & Hhead).
    destruct (value_head_not_closing c r Hhead) as [Hclose _].
    rewrite Ht' at 1. rewrite Hc, Hclose.
    now rewrite parse_elements_stringify.
  - cbn [wf] in Hwf. apply andb_true_iff in Hwf as [Hkeys Hwf].
    pose proof (forallb_Forall (fun kv => wf (snd kv)) (fun kv => reads_back (snd kv))
                  _ IH Hwf) as Hmembers.
    cbn [stringify size]. fold (member_fuel members). fold (members_text members).
    norm_text.
    replace (S (member_fuel members) + n) with (S (member_fuel members + n)) by lia.
    rewrite parse_value_object.
    destruct members as [|[k x] ms]; [reflexivity|].
    assert (Hq : exists t', members_text ((k, x) :: ms) +:+ String "}" rest
                            = String dquote t').
    { unfold members_text. destruct ms as [|m ms'].
      - cbn [map join fst]. unfold member_text. rewrite !app_assoc, quote_app. now eexists.
      - cbn [map]. rewrite join_cons2. cbn [fst]. unfold member_text at 1.
        rewrite !app_assoc, quote_app. now eexists. }
    destruct Hq as [t' Ht']. rewrite Ht' at 1.
    replace (expect "}" (skip_ws (String dquote t'))) with (@None string) by reflexivity.
    now rewrite parse_members_stringify.
Qed.

(** *** The fuel of [parse] covers every serialised value *)

Lemma string_of_Z_length (z : Z) : 1 <= String.length (string_of_Z z).
Proof.
  pose proof (string_of_Z_head z EmptyString) as H. rewrite app_nil_r in H.
  destruct (string_of_Z z); [discriminate | cbn [String.length]; lia].
Qed.

Lemma quote_length (s : string) : 2 <= String.length (quote s).
Proof. unfold quote. cbn [String.length]. rewrite length_app. cbn [String.length]. lia. Qed.

Lemma join_length_bound_sep (sep : string) (texts : list string) (sizes : list nat) :
  1 <= String.length sep ->
  Forall2 (fun t k => k <= 2 * String.length t) texts sizes ->
  list_sum (map S sizes) <= 2 * String.length (join sep texts) + 1.
Proof.
  intros Hsep. induction 1 as [|t k ts ks Htk Hrest IH]; [cbn; lia|].
  destruct Hrest as [|t' k' ts' ks' Htk' Hrest'].
  - cbn [map list_sum fold_right join]. lia.
  - rewrite join_cons2, !length_app. cbn [map list_sum fold_right] in *. lia.
Qed.

Lemma size_le_length (v : value) : size v <= 2 * String.length (stringify v).
Proof.
  induction v as [ | b | z | s | items IH | members IH ] using value_nested_ind.
  - cbn. lia.
  - destruct b; cbn; lia.
  - cbn [size stringify]. pose proof (string_of_Z_length z). lia.
  - cbn [size stringify]. pose proof (quote_length s). lia.
  - cbn [size stringify]. rewrite !length_app. cbn [String.length].
    assert (H : Forall2 (fun t k => k <= 2 * String.length t)
                  (map stringify items) (map size items)).
    { induction IH; constructor; auto. }
    apply (join_length_bound_sep ",") in H; [|cbn; lia]. rewrite map_map in H. lia.
  - cbn [size stringify]. rewrite !length_app. cbn [String.length].
    assert (H : Forall2 (fun t k => k <= 2 * String.length t)
                  (map (fun kv => member_text (fst kv) (stringify (snd kv))) members)
                  (map (fun kv => size (snd kv)) members)).
    { induction IH as [|kv ms Hkv Hms IHms]; constructor; auto.
      unfold member_text. rewrite !length_app. lia. }
    apply (join_length_bound_sep ",") in H; [|cbn; lia]. rewrite map_map in H. lia.
Qed.

(** [JSON.parse(JSON.stringify(v))] is [v]. *)
Theorem parse_stringify (v : value) : wf v = true -> parse (stringify v) = Some v.
Proof.
  intros Hwf. unfold parse, parse_fuel.
  pose proof (size_le_length v) as Hsize.
  replace (2 * String.length (stringify v) + 2)
    with (size v + (2 * String.length (stringify v) + 2 - size v)) by lia.
  rewrite <- (app_nil_r (stringify v)) at 2.
  rewrite (wf_reads_back v Hwf) by reflexivity. reflexivity.
Qed.

Lemma stringify_array_nonempty (items : list value) :
  exists t, stringify (JArr items) = String "[" t.
Proof. cbn [stringify]. norm_text. now eexists. Qed.

(** *** The indented text of [JSON.stringify(v, null, n)] is read back too *)

Lemma all_ws_app (a b : string) : all_ws (a +:+ b) = all_ws a && all_ws b.
Proof.
  unfold all_ws. induction a as [|c a IH]; [reflexivity|].
  rewrite app_cons. cbn [all_chars]. now rewrite IH, andb_assoc.
Qed.

Lemma skip_ws_app (w s : string) : all_ws w = true -> skip_ws (w +:+ s) = skip_ws s.
Proof.
  unfold all_ws. induction w as [|c w IH]; [reflexivity|].
  cbn [all_chars]. intros [Hc Hw]%andb_true_iff.
  rewrite app_cons. cbn [skip_ws]. rewrite Hc. now apply IH.
Qed.

Lemma parse_value_ws (n : nat) (w s : string) :
  all_ws w = true -> parse_value n (w +:+ s) = parse_value n s.
Proof.
  intros Hw. destruct n as [|n]; [reflexivity|].
  cbn [parse_value]. now rewrite (skip_ws_app w s Hw).
Qed.

Lemma parse_elements_ws (n : nat) (w s : string) :
  all_ws w = true -> parse_elements n (w +:+ s) = parse_elements n s.
Proof.
  intros Hw. destruct n as [|n]; [reflexivity|].
  rewrite !parse_elements_step. now rewrite (parse_value_ws n w s Hw).
Qed.

Lemma parse_members_ws (n : nat) (w s : string) :
  all_ws w = true -> parse_members n (w +:+ s) = parse_members n s.
Proof.
  intros Hw. destruct n as [|n]; [reflexivity|].
  cbn [parse_members]. now rewrite (skip_ws_app w s Hw).
Qed.

Lemma stringify_gap_array (gap indent : string) (x : value) (xs : list value) :
  stringify_gap gap indent (JArr (x :: xs))
  = "[" +:+ nl +:+ (indent +:+ gap)
        +:+ join ("," +:+ nl +:+ (indent +:+ gap))
              (map (stringify_gap gap (indent +:+ gap)) (x :: xs))
        +:+ nl +:+ indent +:+ "]".
Proof. reflexivity. Qed.

Lemma stringify_gap_object (gap indent : string) (m : string * value)
      (ms : list (string * value)) :
  stringify_gap gap indent (JObj (m :: ms))
  = "{" +:+ nl +:+ (indent +:+ gap)
        +:+ join ("," +:+ nl +:+ (indent +:+ gap))
              (map (fun kv => quote (fst kv) +:+ ": "
                              +:+ stringify_gap gap (indent +:+ gap) (snd kv)) (m :: ms))
        +:+ nl +:+ indent +:+ "}".
Proof. reflexivity. Qed.

Lemma stringify_gap_head (gap indent : string) (v : value) (t : string) :
  exists c r, stringify_gap gap indent v +:+ t = String c r /\ value_head c = true.
Proof.
  destruct v as [ | b | n | s | [|x xs] | [|m ms] ];
    try (eexists _, _; split; [reflexivity | reflexivity]).
  - apply (stringify_head (JBool b)).
  - apply (stringify_head (JNum n)).
Qed.

Lemma all_ws_nl_indent (indent : string) :
  all_ws indent = true -> all_ws (nl +:+ indent) = true.
Proof. intros H. rewrite all_ws_app, H. reflexivity. Qed.

Lemma parse_elements_stringify_gap (gap inner indent : string) (items : list value) :
  all_ws inner = true -> all_ws indent = true ->
  Forall (reads_back_gap gap) items ->
  items <> [] ->
  forall (n : nat) (rest : string),
    parse_elements (element_fuel items + n)
      (join ("," +:+ nl +:+ inner) (map (stringify_gap gap inner) items)
       +:+ nl +:+ indent +:+ String "]" rest) = Some (items, rest).
Proof.
  intros Hinner Hindent. induction 1 as [|x xs Hx Hxs IH]; [congruence|]. intros _ n rest.
  rewrite element_fuel_cons.
  replace (S (size x + element_fuel xs) + n) with (S (size x + (element_fuel xs + n))) by lia.
  rewrite parse_elements_step.
  destruct xs as [|y ys].
  - cbn [map join]. rewrite (Hx inner) by (assumption || reflexivity).
    rewrite <- app_assoc, (skip_ws_app _ _ (all_ws_nl_indent indent Hindent)).
    reflexivity.
  - cbn [map]. rewrite join_cons2, !app_assoc, (app_cons "," EmptyString), app_nil_l.
    rewrite (Hx inner) by (assumption || reflexivity).
    match goal with
    | |- context [skip_ws (String "," ?t)] =>
        replace (skip_ws (String "," t)) with (String "," t) by reflexivity
    end.
    replace (Ascii.eqb "," ",") with true by reflexivity.
    rewrite <- (app_assoc nl inner),
      (parse_elements_ws _ _ _ (all_ws_nl_indent inner Hinner)).
    replace (size x + (element_fuel (y :: ys) + n))
      with (element_fuel (y :: ys) + (size x + n)) by lia.
    change (stringify_gap gap inner y :: map (stringify_gap gap inner) ys)
      with (map (stringify_gap gap inner) (y :: ys)).
    rewrite <- !app_assoc. rewrite !app_assoc.
    rewrite IH by discriminate. reflexivity.
Qed.

Lemma colon_space (t : string) : ": " +:+ t = ":" +:+ " " +:+ t.
Proof. reflexivity. Qed.

Lemma parse_members_stringify_gap (gap inner indent : string)
      (members : list (string * value)) :
  all_ws inner = true -> all_ws indent = true ->
  Forall (fun kv => reads_back_gap gap (snd kv)) members ->
  distinct_keys members = true ->
  members <> [] ->
  forall (n : nat) (rest : string),
    parse_members (member_fuel members + n)
      (members_text_gap gap inner members +:+ nl +:+ indent +:+ String "}" rest)
    = Some (members, rest).
Proof.
  intros Hinner Hindent.
  induction 1 as [|[k x] ms Hx Hms IH]; [congruence|]. intros Hkeys _ n rest.
  cbn [distinct_keys] in Hkeys. cbn [snd] in Hx.
  destruct (lookup_member k ms) eqn:Hk; [discriminate|].
  rewrite member_fuel_cons. unfold members_text_gap. cbn [map fst snd].
  replace (S (size x + member_fuel ms) + n) with (S (size x + (member_fuel ms + n))) by lia.
  destruct ms as [|m ms'].
  - cbn [map join]. rewrite !app_assoc, colon_space.
    rewrite parse_members_step.
    rewrite (parse_value_ws _ " " _ eq_refl).
    rewrite (Hx inner) by (assumption || reflexivity).
    rewrite <- app_assoc, (skip_ws_app _ _ (all_ws_nl_indent indent Hindent)).
    reflexivity.
  - cbn [map]. rewrite join_cons2. rewrite !app_assoc, colon_space.
    rewrite parse_members_step.
    rewrite (parse_value_ws _ " " _ eq_refl).
    rewrite (app_cons "," EmptyString), app_nil_l.
    rewrite (Hx inner) by (assumption || reflexivity).
    match goal with
    | |- context [skip_ws (String "," ?t)] =>
        replace (skip_ws (String "," t)) with (String "," t) by reflexivity
    end.
    replace (Ascii.eqb "," ",") with true by reflexivity.
    rewrite <- (app_assoc nl inner),
      (parse_members_ws _ _ _ (all_ws_nl_indent inner Hinner)).
    replace (size x + (member_fuel (m :: ms') + n))
      with (member_fuel (m :: ms') + (size x + n)) by lia.
    match goal with
    | |- context [parse_members _ (join ?sep ?l +:+ _)] =>
        change (join sep l) with (members_text_gap gap inner (m :: ms'))
    end.
    rewrite IH by (assumption || discriminate).
    now rewrite add_member_fresh.
Qed.

Lemma wf_reads_back_gap (gap : string) (v : value) :
  all_ws gap = true -> wf v = true -> reads_back_gap gap v.
Proof.
  intros Hgap.
  induction v as [ | b | z | s | items IH | members IH ] using value_nested_ind;
    intros Hwf indent n rest Hindent Hrest.
  - reflexivity.
  - destruct b; reflexivity.
  - now apply parse_value_number.
  - apply parse_value_string.
  - cbn [wf] in Hwf. pose proof (forallb_Forall _ _ _ IH Hwf) as Hitems.
    destruct items as [|x xs]; [reflexivity|].
    assert (Hinner : all_ws (indent +:+ gap) = true) by now rewrite all_ws_app, Hindent, Hgap.
    rewrite stringify_gap_array. cbn [size]. fold (element_fuel (x :: xs)).
    set (inner := indent +:+ gap) in *.
    rewrite !app_assoc, (app_cons "[" EmptyString), app_nil_l.
    rewrite (app_cons "]" EmptyString), app_nil_l.
    replace (S (element_fuel (x :: xs)) + n) with (S (element_fuel (x :: xs) + n)) by lia.
    rewrite parse_value_array.
    rewrite <- (app_assoc nl inner).
    rewrite (skip_ws_app _ _ (all_ws_nl_indent inner Hinner)).
    rewrite (parse_elements_ws _ _ _ (all_ws_nl_indent inner Hinner)).
    assert (Hhead : exists t', join ("," +:+ nl +:+ inner)
                                 (map (stringify_gap gap inner) (x :: xs))
                               +:+ nl +:+ indent +:+ String "]" rest
                               = stringify_gap gap inner x +:+ t').
    { destruct xs as [|y ys]; [now eexists|].
      cbn [map]. rewrite join_cons2, !app_assoc. now eexists. }
    destruct Hhead as [t' Ht'].
    destruct (stringify_gap_head gap inner x t') as (c & r & Hc & Hhead).
    destruct (value_head_not_closing c r Hhead) as [Hclose _].
    rewrite Ht' at 1. rewrite Hc, Hclose.
    now rewrite (parse_elements_stringify_gap gap inner indent).
  - cbn [wf] in Hwf. apply andb_true_iff in Hwf as [Hkeys Hwf].
    pose proof (forallb_Forall (fun kv => wf (snd kv)) (fun kv => reads_back_gap gap (snd kv))
                  _ IH Hwf) as Hmembers.
    destruct members as [|[k x] ms]; [reflexivity|].
    assert (Hinner : all_ws (indent +:+ gap) = true) by now rewrite all_ws_app, Hindent, Hgap.
    rewrite stringify_gap_object. cbn [size]. fold (member_fuel ((k, x) :: ms)).
    set (inner := indent +:+ gap) in *.
    fold (members_text_gap gap inner ((k, x) :: ms)).
    rewrite !app_assoc, (app_cons "{" EmptyString), app_nil_l.
    rewrite (app_cons "}" EmptyString), app_nil_l.
    replace (S (member_fuel ((k, x) :: ms)) + n)
      with (S (member_fuel ((k, x) :: ms) + n)) by lia.
    rewrite parse_value_object.
    rewrite <- (app_assoc nl inner).
    rewrite (skip_ws_app _ _ (all_ws_nl_indent inner Hinner)).
    rewrite (parse_members_ws _ _ _ (all_ws_nl_indent inner Hinner)).
    assert (Hq : exists t', members_text_gap gap inner ((k, x) :: ms)
                            +:+ nl +:+ indent +:+ String "}" rest
                            = String dquote t').
    { unfold members_text_gap. destruct ms as [|m ms'].
      - cbn [map join fst]. rewrite !app_assoc, quote_app. now eexists.
      - cbn [map]. rewrite join_cons2. cbn [fst].
        rewrite !app_assoc, quote_app. now eexists. }
    destruct Hq as [t' Ht']. rewrite Ht' at 1.
    replace (expect "}" (skip_ws (String dquote t'))) with (@None string) by reflexivity.
    now rewrite (parse_members_stringify_gap gap inner indent).
Qed.

Lemma size_le_length_gap (gap : string) (v : value) (indent : string) :
  size v <= 2 * String.length (stringify_gap gap indent v).
Proof.
  revert indent.
  induction v as [ | b | z | s | items IH | members IH ] using value_nested_ind;
    intros indent.
  - cbn. lia.
  - destruct b; cbn; lia.
  - apply (size_le_length (JNum z)).
  - apply (size_le_length (JStr s)).
  - destruct items as [|x xs]; [cbn; lia|].
    rewrite stringify_gap_array. cbn [size]. rewrite !length_app.
    assert (H : Forall2 (fun t k => k <= 2 * String.length t)
                  (map (stringify_gap gap (indent +:+ gap)) (x :: xs)) (map size (x :: xs))).
    { induction IH; constructor; auto. }
    apply (join_length_bound_sep ("," +:+ nl +:+ (indent +:+ gap))) in H;
      [|rewrite length_app; cbn [String.length]; lia].
    rewrite map_map in H. cbn [String.length]. lia.
  - destruct members as [|m ms]; [cbn; lia|].
    rewrite stringify_gap_object. cbn [size]. rewrite !length_app.
    assert (H : Forall2 (fun t k => k <= 2 * String.length t)
                  (map (fun kv => quote (fst kv) +:+ ": "
                                  +:+ stringify_gap gap (indent +:+ gap) (snd kv)) (m :: ms))
                  (map (fun kv => size (snd kv)) (m :: ms))).
    { induction IH as [|kv ms' Hkv Hms IHms]; constructor; auto.
      rewrite !length_app. specialize (Hkv (indent +:+ gap)). lia. }
    apply (join_length_bound_sep ("," +:+ nl +:+ (indent +:+ gap))) in H;
      [|rewrite length_app; cbn [String.length]; lia].
    rewrite map_map in H. cbn [String.length]. lia.
Qed.

Theorem parse_stringify_gap (gap : string) (v : value) :
  all_ws gap = true -> wf v = true -> parse (stringify_gap gap EmptyString v) = Some v.
Proof.
  intros Hgap Hwf. unfold parse, parse_fuel.
  pose proof (size_le_length_gap gap v EmptyString) as Hsize.
  set (text := stringify_gap gap EmptyString v) in *.
  replace (2 * String.length text + 2)
    with (size v + (2 * String.length text + 2 - size v)) by lia.
  rewrite <- (app_nil_r text) at 2. subst text.
  rewrite (wf_reads_back_gap gap v Hgap Hwf) by reflexivity. reflexivity.
Qed.

End JSONFacts.

(** ** The store: what the slot holds and how the script reads it *)

Module StoreFacts.
Import JSON JS Page Main Text Store JSONFacts.
Local Open Scope list_scope.

Lemma loadRecords_run (p : Page.t) :
  loadRecords p = (Normal (stored_value (localStorage p !! STORE_KEY)), p).
Proof.
  unfold loadRecords, try_catch, bind, getItem, stored_value, JSON_parse.
  destruct (localStorage p !! STORE_KEY) as [[|c text]|]; try reflexivity.
  destruct (JSON.parse (String c text)); reflexivity.
Qed.

Lemma holds_stored (p : Page.t) (rs : list Baseline.t) :
  holds p rs <-> stored_value (localStorage p !! STORE_KEY) = Baseline.list_to_json rs.
Proof.
  unfold holds, eval. rewrite loadRecords_run. cbn [fst].
  split; [now intros [= ->] | now intros ->].
Qed.

Lemma wf_list_to_json (rs : list Baseline.t) : wf (Baseline.list_to_json rs) = true.
Proof.
  unfold Baseline.list_to_json. cbn [wf].
  induction rs as [|r rs IH]; [reflexivity|].
  cbn [map forallb]. now rewrite IH.
Qed.

Lemma stored_value_stringify (rs : list Baseline.t) :
  stored_value (Some (JSON_stringify (Baseline.list_to_json rs))) = Baseline.list_to_json rs.
Proof.
  unfold stored_value, JSON_stringify.
  pose proof (parse_stringify _ (wf_list_to_json rs)) as Hparse.
  destruct (stringify_array_nonempty (map Baseline.to_json rs)) as [t Ht].
  unfold Baseline.list_to_json in *. rewrite Ht in *. now rewrite Hparse.
Qed.

Lemma to_json_inj (r1 r2 : Baseline.t) :
  Baseline.to_json r1 = Baseline.to_json r2 -> r1 = r2.
Proof.
  destruct r1, r2. unfold Baseline.to_json.
  cbn [Baseline.id Baseline.name Baseline.size Baseline.lastModified Baseline.hash
       Baseline.savedAt].
  intros H. injection H as -> -> -> -> -> ->. reflexivity.
Qed.

Lemma list_to_json_inj (rs1 rs2 : list Baseline.t) :
  Baseline.list_to_json rs1 = Baseline.list_to_json rs2 -> rs1 = rs2.
Proof.
  unfold Baseline.list_to_json. intros [= H]. revert rs2 H.
  induction rs1 as [|r rs1 IH]; intros [|r2 rs2]; cbn [map]; try discriminate; [reflexivity|].
  generalize (to_json_inj r r2).
  generalize (Baseline.to_json r), (Baseline.to_json r2).
  intros a b Hinj [= -> Hrs]. f_equal; [now apply Hinj | now apply IH].
Qed.

Lemma holds_unique (p : Page.t) (rs1 rs2 : list Baseline.t) :
  holds p rs1 -> holds p rs2 -> rs1 = rs2.
Proof.
  unfold holds. intros H1 H2. apply list_to_json_inj. congruence.
Qed.

(** *** The callbacks on stored records *)

Lemma eqb_decide (a b : string) : String.eqb a b = bool_decide (a = b).
Proof.
  destruct (String.eqb_spec a b) as [->|Hne].
  - now rewrite bool_decide_eq_true_2.
  - now rewrite bool_decide_eq_false_2.
Qed.

Lemma get_record_id (r : Baseline.t) :
  get (Baseline.to_json r) "id" = Normal (Some (JStr (Baseline.id r))).
Proof. reflexivity. Qed.

Lemma get_record_name (r : Baseline.t) :
  get (Baseline.to_json r) "name" = Normal (Some (JStr (Baseline.name r))).
Proof. reflexivity. Qed.

Lemma get_record_hash (r : Baseline.t) :
  get (Baseline.to_json r) "hash" = Normal (Some (JStr (Baseline.hash r))).
Proof. reflexivity. Qed.

Lemma strict_eq_string_decide (a b : string) :
  strict_eq_string (Some (JStr a)) b = bool_decide (a = b).
Proof. apply eqb_decide. Qed.

Lemma hash_is_record (d : string) (r : Baseline.t) :
  hash_is d (Baseline.to_json r) = Normal (bool_decide (Baseline.hash r = d)).
Proof. unfold hash_is. now rewrite get_record_hash, strict_eq_string_decide. Qed.

Lemma name_is_record (n : string) (r : Baseline.t) :
  name_is n (Baseline.to_json r) = Normal (bool_decide (Baseline.name r = n)).
Proof. unfold name_is. now rewrite get_record_name, strict_eq_string_decide. Qed.

Lemma id_is_record (i : string) (r : Baseline.t) :
  id_is i (Baseline.to_json r) = Normal (bool_decide (Baseline.id r = i)).
Proof. unfold id_is. now rewrite get_record_id, strict_eq_string_decide. Qed.

Lemma id_is_not_record (i : string) (r : Baseline.t) :
  id_is_not i (Baseline.to_json r) = Normal (bool_decide (Baseline.id r <> i)).
Proof.
  unfold id_is_not. rewrite get_record_id, strict_eq_string_decide. f_equal.
  destruct (decide (Baseline.id r = i)) as [->|Hne].
  - rewrite bool_decide_eq_true_2, bool_decide_eq_false_2 by tauto. reflexivity.
  - rewrite bool_decide_eq_false_2, bool_decide_eq_true_2 by tauto. reflexivity.
Qed.

(** [find] and [filter] over stored records, for a callback that decides a
    property of the record. *)
Section Loops.
Context (cb : value -> completion bool) (P : Baseline.t -> Prop)
        `{forall r, Decision (P r)}.
Hypothesis cb_decides : forall r, cb (Baseline.to_json r) = Normal (bool_decide (P r)).

Lemma find_loop_none (rs : list Baseline.t) :
  Forall (fun r => ~ P r) rs ->
  find_loop cb (map Baseline.to_json rs) = Normal None.
Proof.
  induction 1 as [|r rs Hr Hrs IH]; [reflexivity|].
  cbn [map find_loop]. rewrite cb_decides, bool_decide_eq_false_2 by assumption.
  exact IH.
Qed.

Lemma find_loop_first (l1 l2 : list Baseline.t) (r : Baseline.t) :
  Forall (fun r => ~ P r) l1 -> P r ->
  find_loop cb (map Baseline.to_json (l1 ++ r :: l2)) = Normal (Some (Baseline.to_json r)).
Proof.
  induction 1 as [|x l1 Hx Hl1 IH]; intros Hr.
  - cbn [app map find_loop]. rewrite cb_decides, bool_decide_eq_true_2 by assumption.
    reflexivity.
  - cbn [app map find_loop]. rewrite cb_decides, bool_decide_eq_false_2 by assumption.
    now apply IH.
Qed.

Lemma filter_loop_records (rs : list Baseline.t) :
  filter_loop cb (map Baseline.to_json rs) = Normal (map Baseline.to_json (filter P rs)).
Proof.
  induction rs as [|r rs IH]; [reflexivity|].
  cbn [map filter_loop]. rewrite cb_decides, IH, filter_cons.
  destruct (decide (P r)) as [Hr|Hr];
    [rewrite bool_decide_eq_true_2 by assumption
    |rewrite bool_decide_eq_false_2 by assumption]; reflexivity.
Qed.
End Loops.

(** Every list splits at its first element with a decidable property, or
    has none. *)
Lemma first_or_none {A} (P : A -> Prop) `{forall x, Decision (P x)} (l : list A) :
  Forall (fun x => ~ P x) l
  \/ exists (l1 : list A) (x : A) (l2 : list A),
       l = (l1 ++ x :: l2)%list /\ Forall (fun x => ~ P x) l1 /\ P x.
Proof.
  induction l as [|x l IH]; [left; constructor|].
  destruct (decide (P x)) as [Hx|Hx].
  - right. exists [], x, l. repeat split; [constructor | assumption].
  - destruct IH as [Hnone | (l1 & y & l2 & -> & Hl1 & Hy)].
    + left. now constructor.
    + right. exists (x :: l1), y, l2. repeat split; [now constructor | assumption].
Qed.

(** *** The table *)

Lemma map_loop_renderRow (i : nat) (rs : list Baseline.t) :
  map_loop renderRow i (map Baseline.to_json rs) = Normal (rows_from i rs).
Proof.
  revert i. induction rs as [|r rs IH]; intros i; [reflexivity|].
  cbn [map map_loop rows_from]. rewrite IH. reflexivity.
Qed.

Lemma renderRecords_run (p : Page.t) (rs : list Baseline.t) :
  holds p rs ->
  renderRecords p
  = (Normal tt, Page.mk (localStorage p) (regFiles p) (verFiles p) (regShown p) (verShown p)
                        (table_of rs)).
Proof.
  intros Hp%holds_stored. unfold renderRecords, bind.
  rewrite loadRecords_run, Hp. unfold lift, Baseline.list_to_json.
  destruct rs as [|r rs]; [reflexivity|].
  cbn [get String.eqb Ascii.eqb Bool.eqb map length truthy Z.of_nat Z.eqb negb].
  unfold Array_map. change (Baseline.to_json r :: map Baseline.to_json rs)
    with (map Baseline.to_json (r :: rs)).
  rewrite map_loop_renderRow. reflexivity.
Qed.

(** *** The three mutators *)

Lemma holds_saved (m : gmap string string) (rs : list Baseline.t)
      (rf vf : option File.t) (rsh vsh : Shown) (body : TableBody) :
  holds (Page.mk (<[STORE_KEY := JSON_stringify (Baseline.list_to_json rs)]> m)
                 rf vf rsh vsh body) rs.
Proof.
  apply holds_stored. cbn [localStorage].
  rewrite lookup_insert_eq. apply stored_value_stringify.
Qed.

Lemma holds_same_storage (p q : Page.t) (rs : list Baseline.t) :
  localStorage q = localStorage p -> holds p rs -> holds q rs.
Proof. intros Hq Hp. apply holds_stored. rewrite Hq. now apply holds_stored. Qed.

Lemma addRecord_run (env : Env) (name : string) (size lastModified : Z) (hash : string)
      (p : Page.t) (rs : list Baseline.t) :
  holds p rs ->
  let rs' := rs ++ [added env name size lastModified hash] in
  addRecord env name size lastModified hash p
  = (Normal (new_id env),
     Page.mk (<[STORE_KEY := JSON_stringify (Baseline.list_to_json rs')]> (localStorage p))
             (regFiles p) (verFiles p) (regShown p) (verShown p) (table_of rs')).
Proof.
  intros Hp rs'. pose proof Hp as Hs%holds_stored.
  unfold addRecord, bind at 1. rewrite loadRecords_run, Hs.
  unfold bind at 1. unfold lift, Baseline.list_to_json, Array_push.
  change (JObj _) with (Baseline.to_json (added env name size lastModified hash)).
  change [Baseline.to_json (added env name size lastModified hash)]
    with (map Baseline.to_json [added env name size lastModified hash]).
  rewrite <- map_app. fold rs'. fold (Baseline.list_to_json rs').
  unfold bind at 1, saveRecords, setItem. unfold bind.
  rewrite (renderRecords_run _ rs') by apply holds_saved.
  reflexivity.
Qed.

Lemma deleteRecord_run (id : string) (p : Page.t) (rs : list Baseline.t) :
  holds p rs ->
  let rs' := filter (fun r => Baseline.id r <> id) rs in
  deleteRecord id p
  = (Normal tt,
     Page.mk (<[STORE_KEY := JSON_stringify (Baseline.list_to_json rs')]> (localStorage p))
             (regFiles p) (verFiles p) (regShown p) (verShown p) (table_of rs')).
Proof.
  intros Hp rs'. pose proof Hp as Hs%holds_stored.
  unfold deleteRecord, bind at 1. rewrite loadRecords_run, Hs.
  unfold bind at 1. unfold lift, Baseline.list_to_json, Array_filter.
  rewrite (filter_loop_records _ _ (id_is_not_record id)).
  fold rs'. fold (Baseline.list_to_json rs').
  unfold bind, saveRecords, setItem.
  rewrite (renderRecords_run _ rs') by apply holds_saved.
  reflexivity.
Qed.

Lemma holds_cleared (m : gmap string string)
      (rf vf : option File.t) (rsh vsh : Shown) (body : TableBody) :
  holds (Page.mk (delete STORE_KEY m) rf vf rsh vsh body) [].
Proof. apply holds_stored. cbn [localStorage]. now rewrite lookup_delete_eq. Qed.

Lemma clearAllRecords_run (p : Page.t) :
  clearAllRecords p
  = (Normal tt,
     Page.mk (delete STORE_KEY (localStorage p))
             (regFiles p) (verFiles p) (regShown p) (verShown p) NoBaselinesYet).
Proof.
  unfold clearAllRecords, bind, removeItem.
  rewrite (renderRecords_run _ []) by apply holds_cleared.
  reflexivity.
Qed.

End StoreFacts.

(** ** The digest string *)

Module DigestFacts.
Import JS Main Text Hex StringFacts.
Local Open Scope list_scope.

Lemma byte_hex_two (b : Byte.byte) :
  String.length (byte_hex b) = 2 /\ all_chars lower_hex_char (byte_hex b) = true.
Proof. destruct b; split; reflexivity. Qed.

Lemma toHex_cons (b : Byte.byte) (buffer : list Byte.byte) :
  toHex (b :: buffer) = byte_hex b +:+ toHex buffer.
Proof.
  unfold toHex. cbn [map]. fold (byte_hex b).
  destruct buffer as [|b' buffer]; [cbn [map String.concat]; now rewrite app_nil_r|].
  reflexivity.
Qed.

Lemma all_chars_app (p : ascii -> bool) (a b : string) :
  all_chars p (a +:+ b) = all_chars p a && all_chars p b.
Proof.
  induction a as [|c a IH]; [reflexivity|].
  rewrite app_cons. cbn [all_chars]. now rewrite IH, andb_assoc.
Qed.

Lemma toHex_length (buffer : list Byte.byte) :
  String.length (toHex buffer) = 2 * length buffer.
Proof.
  induction buffer as [|b buffer IH]; [reflexivity|].
  rewrite toHex_cons, length_app, IH. destruct (byte_hex_two b) as [-> _].
  cbn [length]. lia.
Qed.

Lemma toHex_lower_hex (buffer : list Byte.byte) :
  all_chars lower_hex_char (toHex buffer) = true.
Proof.
  induction buffer as [|b buffer IH]; [reflexivity|].
  rewrite toHex_cons, all_chars_app, IH. destruct (byte_hex_two b) as [_ ->].
  reflexivity.
Qed.

Lemma digest_length (msg : list Byte.byte) : length (SHA256.digest msg) = 32.
Proof.
  unfold SHA256.digest, SHA256.output, SHA256.word_bytes.
  rewrite !List.length_app, !List.length_map. reflexivity.
Qed.

End DigestFacts.

(** ** The handlers *)

Module HandlerFacts.
Import JSON JS Page Main Text Store Hex JSONFacts StoreFacts StringFacts Session.
Local Open Scope list_scope.

Lemma get_length_array (items : list value) :
  get (JArr items) "length" = Normal (Some (JNum (Z.of_nat (length items)))).
Proof. reflexivity. Qed.

Lemma truthy_length (n : nat) :
  truthy (Some (JNum (Z.of_nat n))) = negb (Nat.eqb n 0).
Proof. now destruct n. Qed.

Lemma sha256OfFile_run (file : File.t) (bytes : list Byte.byte) (p : Page.t) :
  File.arrayBuffer file = Some bytes ->
  sha256OfFile file p = (Normal (digest_of bytes), p).
Proof. intros Hb. unfold sha256OfFile, bind, lift. now rewrite Hb. Qed.

Lemma sha256OfFile_unreadable (file : File.t) (p : Page.t) :
  File.arrayBuffer file = None ->
  sha256OfFile file p = (Throw NotReadableError, p).
Proof. intros Hb. unfold sha256OfFile, bind, lift. now rewrite Hb. Qed.

(** *** Computations that only read the store *)

Lemma keeps_ret {A} (a : A) : keeps_storage (ret a).
Proof. intros p. reflexivity. Qed.

Lemma keeps_throw {A} (err : Error) : keeps_storage (@throw A err).
Proof. intros p. reflexivity. Qed.

Lemma keeps_lift {A} (c : completion A) : keeps_storage (lift c).
Proof. intros p. reflexivity. Qed.

Lemma keeps_bind {A B} (c : M A) (k : A -> M B) :
  keeps_storage c -> (forall a, keeps_storage (k a)) -> keeps_storage (bind c k).
Proof.
  intros Hc Hk p. unfold exec, bind. specialize (Hc p). unfold exec in Hc.
  destruct (c p) as [[a|err] p']; cbn [snd] in *; [|exact Hc].
  rewrite <- Hc. apply Hk.
Qed.

Lemma keeps_try_catch {A} (body : M A) (handler : Error -> M A) :
  keeps_storage body -> (forall err, keeps_storage (handler err)) ->
  keeps_storage (try_catch body handler).
Proof.
  intros Hc Hk p. unfold exec, try_catch. specialize (Hc p). unfold exec in Hc.
  destruct (body p) as [[a|err] p']; cbn [snd] in *; [exact Hc|].
  rewrite <- Hc. apply Hk.
Qed.

Lemma keeps_show (el : Element) (msg : Message) (kind : string) :
  keeps_storage (show el msg kind).
Proof. intros p. now destruct el. Qed.

Lemma keeps_files (input : Input) : keeps_storage (files input).
Proof. intros p. reflexivity. Qed.

Lemma keeps_set_files (input : Input) (chosen : option File.t) :
  keeps_storage (set_files input chosen).
Proof. intros p. now destruct input. Qed.

Lemma keeps_set_recordsBody (body : TableBody) : keeps_storage (set_recordsBody body).
Proof. intros p. reflexivity. Qed.

Lemma keeps_loadRecords : keeps_storage loadRecords.
Proof. intros p. unfold exec. now rewrite loadRecords_run. Qed.

Lemma keeps_sha256OfFile (file : File.t) : keeps_storage (sha256OfFile file).
Proof. apply keeps_bind; [apply keeps_lift | intros; apply keeps_ret]. Qed.

Ltac keeps :=
  repeat first
    [ apply keeps_ret | apply keeps_throw | apply keeps_lift | apply keeps_show
    | apply keeps_files | apply keeps_set_files | apply keeps_set_recordsBody
    | apply keeps_loadRecords | apply keeps_sha256OfFile
    | apply keeps_bind | apply keeps_try_catch
    | match goal with
      | |- forall _, _ => intro
      | |- keeps_storage (match ?x with _ => _ end) => destruct x
      | |- keeps_storage (if ?x then _ else _) => destruct x
      end ].

Lemma keeps_renderRecords : keeps_storage renderRecords.
Proof. unfold renderRecords. keeps. Qed.

Lemma keeps_btnVerify_click : keeps_storage btnVerify_click.
Proof. unfold btnVerify_click. keeps. Qed.

Lemma keeps_quickVerify_change (id : string) (chosen : option File.t) :
  keeps_storage (quickVerify_change id chosen).
Proof. unfold quickVerify_change. keeps. Qed.

Lemma keeps_btnExport_click : keeps_storage btnExport_click.
Proof. unfold btnExport_click. keeps. Qed.

Lemma keeps_btnClearReg_click : keeps_storage btnClearReg_click.
Proof. unfold btnClearReg_click. keeps. Qed.

Lemma keeps_btnClearVer_click : keeps_storage btnClearVer_click.
Proof. unfold btnClearVer_click. keeps. Qed.

(** *** Verify *)

Section FindLoop.
Context (cb : value -> completion bool) (P : Baseline.t -> Prop)
        `{forall r, Decision (P r)}.
Hypothesis cb_decides : forall r, cb (Baseline.to_json r) = Normal (bool_decide (P r)).

Lemma find_loop_records (rs : list Baseline.t) :
  find_loop cb (map Baseline.to_json rs)
  = Normal (option_map Baseline.to_json (List.find (fun r => bool_decide (P r)) rs)).
Proof.
  induction rs as [|r rs IH]; [reflexivity|].
  cbn [map find_loop List.find]. rewrite cb_decides.
  destruct (bool_decide (P r)); [reflexivity | exact IH].
Qed.
End FindLoop.

Lemma btnVerify_click_run (p : Page.t) (f : File.t) (bytes : list Byte.byte) (rs : list Baseline.t) :
  verFiles p = Some f -> File.arrayBuffer f = Some bytes -> holds p rs ->
  btnVerify_click p
  = (Normal tt, with_verShown (shown_outcome (Spec.verify (digest_of bytes) (File.name f) rs)) p).
Proof.
  intros Hf Hb Hp. pose proof Hp as Hs%holds_stored.
  unfold btnVerify_click, bind at 1, files. rewrite Hf.
  unfold bind at 1, show at 1. unfold try_catch, sha256OfFile.
  unfold bind at 1. unfold bind at 1. unfold lift at 1. rewrite Hb.
  unfold ret at 1. unfold bind at 1. rewrite loadRecords_run. cbn [localStorage]. rewrite Hs.
  unfold bind at 1. unfold lift at 1.
  fold (digest_of bytes).
  unfold Baseline.list_to_json. rewrite get_length_array, truthy_length, length_map.
  destruct rs as [|r0 rs0]; [reflexivity|].
  cbn [length Nat.eqb negb]. unfold Spec.verify.
  set (rs := r0 :: rs0).
  unfold bind at 1, lift at 1, Array_find.
  rewrite (find_loop_records _ _ (hash_is_record (digest_of bytes))).
  fold (Spec.findByDigest (digest_of bytes) rs).
  destruct (Spec.findByDigest (digest_of bytes) rs) as [r|]; [reflexivity|].
  cbn [option_map].
  unfold bind at 1, lift at 1, Array_filter.
  rewrite (filter_loop_records _ _ (name_is_record (File.name f))).
  fold (Spec.findByName (File.name f) rs).
  unfold bind at 1, lift at 1. rewrite get_length_array, truthy_length, length_map.
  destruct (Spec.findByName (File.name f) rs); reflexivity.
Qed.

(** *** Quick verify *)



(** *** Register *)

Lemma btnHashSave_click_run (env : Env) (p : Page.t) (rs : list Baseline.t)
      (f : File.t) (bytes : list Byte.byte) :
  holds p rs -> regFiles p = Some f -> File.arrayBuffer f = Some bytes ->
  let d := digest_of bytes in
  let rs' := rs ++ [added env (File.name f) (File.size f) (File.lastModified f) d] in
  btnHashSave_click env p
  = (Normal tt,
     Page.mk (<[STORE_KEY := JSON_stringify (Baseline.list_to_json rs')]> (localStorage p))
             (regFiles p) (verFiles p)
             (mkShown "result ok" (SavedBaseline (File.name f) (File.size f) d))
             (verShown p) (table_of rs')).
Proof.
  intros Hp Hf Hb d rs'.
  unfold btnHashSave_click, bind at 1, files. rewrite Hf.
  unfold bind at 1, show at 1, try_catch. unfold bind at 1.
  rewrite (sha256OfFile_run _ _ _ Hb). fold d.
  unfold bind at 1.
  rewrite (addRecord_run env _ _ _ _ _ rs) by (eapply holds_same_storage; [|exact Hp]; reflexivity).
  cbn [show localStorage regFiles verFiles regShown verShown recordsBody].
  rewrite Hf. reflexivity.
Qed.

Lemma btnHashSave_click_storage (env : Env) (p : Page.t) (rs : list Baseline.t) :
  holds p rs ->
  localStorage (exec (btnHashSave_click env) p) = localStorage p
  \/ exists r, localStorage (exec (btnHashSave_click env) p)
               = <[STORE_KEY := JSON_stringify (Baseline.list_to_json (rs ++ [r]))]>
                   (localStorage p).
Proof.
  intros Hp. destruct (regFiles p) as [f|] eqn:Hf.
  - destruct (File.arrayBuffer f) as [bytes|] eqn:Hb.
    + right. eexists. unfold exec. rewrite (btnHashSave_click_run env p rs f bytes Hp Hf Hb).
      reflexivity.
    + left. unfold exec, btnHashSave_click, bind at 1, files. rewrite Hf.
      unfold bind at 1, show at 1, try_catch. unfold bind at 1.
      rewrite (sha256OfFile_unreadable _ _ Hb). reflexivity.
  - left. unfold exec, btnHashSave_click, bind at 1, files. rewrite Hf. reflexivity.
Qed.

(** *** The slot through a session *)

Lemma persisted_holds (p : Page.t) (rs : list Baseline.t) : persisted p rs -> holds p rs.
Proof.
  unfold persisted. intros Hp. apply holds_stored.
  destruct (localStorage p !! STORE_KEY) as [text|]; subst.
  - apply stored_value_stringify.
  - reflexivity.
Qed.

Lemma persisted_same_storage (p q : Page.t) (rs : list Baseline.t) :
  localStorage q = localStorage p -> persisted p rs -> persisted q rs.
Proof. unfold persisted. now intros ->. Qed.

Lemma persisted_insert (p q : Page.t) (rs : list Baseline.t) :
  localStorage q = <[STORE_KEY := JSON_stringify (Baseline.list_to_json rs)]> (localStorage p) ->
  persisted q rs.
Proof. unfold persisted. intros ->. now rewrite lookup_insert_eq. Qed.

Lemma persisted_delete (p q : Page.t) :
  localStorage q = delete STORE_KEY (localStorage p) -> persisted q [].
Proof. unfold persisted. intros ->. now rewrite lookup_delete_eq. Qed.

Lemma step_storage (e : Event) (p : Page.t) (rs : list Baseline.t) :
  holds p rs -> storage_step p rs (step e p).
Proof.
  intros Hp. unfold step. destruct e as [ | input chosen | env | | | | target confirmed chosen | | confirmed ];
    cbn [handle].
  - apply storage_kept, keeps_renderRecords.
  - apply storage_kept, keeps_set_files.
  - destruct (btnHashSave_click_storage env p rs Hp) as [Hk | [r Hr]].
    + now apply storage_kept.
    + now apply (storage_added _ _ _ r).
  - apply storage_kept, keeps_btnClearReg_click.
  - apply storage_kept, keeps_btnVerify_click.
  - apply storage_kept, keeps_btnClearVer_click.
  - unfold recordsBody_click.
    destruct target as [text | action id | ]; try (apply storage_kept; reflexivity).
    destruct (String.eqb action "delete").
    + destruct confirmed; [|apply storage_kept; reflexivity].
      apply (storage_removed _ _ _ id). unfold exec.
      now rewrite (deleteRecord_run id p rs Hp).
    + destruct (String.eqb action "quick-verify"); [|apply storage_kept; reflexivity].
      apply storage_kept, keeps_quickVerify_change.
  - apply storage_kept.
    apply (keeps_bind btnExport_click (fun _ => ret tt) keeps_btnExport_click).
    intros; apply keeps_ret.
  - unfold btnClearAll_click. destruct confirmed; [|apply storage_kept; reflexivity].
    apply storage_cleared. unfold exec. now rewrite clearAllRecords_run.
Qed.

Lemma storage_step_persisted (p q : Page.t) (rs : list Baseline.t) :
  persisted p rs -> storage_step p rs q ->
  (exists rs', persisted q rs')
  /\ forall k, k <> STORE_KEY -> localStorage q !! k = localStorage p !! k.
Proof.
  intros Hp [Hk | r Hr | id Hr | Hc].
  - split; [exists rs; now apply (persisted_same_storage p) | now rewrite Hk].
  - split; [exists (rs ++ [r]); exact (persisted_insert p q _ Hr) |].
    intros k Hne. rewrite Hr. now apply lookup_insert_ne.
  - split; [eexists; exact (persisted_insert p q _ Hr) |].
    intros k Hne. rewrite Hr. now apply lookup_insert_ne.
  - split; [exists []; now apply (persisted_delete p) |].
    intros k Hne. rewrite Hc. now apply lookup_delete_ne.
Qed.

Lemma reachable_persisted (p0 p : Page.t) (rs0 : list Baseline.t) :
  persisted p0 rs0 -> reachable p0 p ->
  (exists rs, persisted p rs)
  /\ forall k, k <> STORE_KEY -> localStorage p !! k = localStorage p0 !! k.
Proof.
  intros H0. induction 1 as [|p e Hreach [[rs Hrs] Hframe]].
  - split; [now exists rs0 | reflexivity].
  - destruct (storage_step_persisted p (step e p) rs Hrs
                (step_storage e p rs (persisted_holds _ _ Hrs))) as [Hex Hfr].
    split; [exact Hex|]. intros k Hne. rewrite Hfr by assumption. now apply Hframe.
Qed.

Lemma record_shape_to_json (r : Baseline.t) : record_shape (Baseline.to_json r).
Proof. destruct r. unfold record_shape, Baseline.to_json. repeat eexists. Qed.

Lemma btnExport_click_run (p : Page.t) (rs : list Baseline.t) :
  holds p rs ->
  btnExport_click p = (Normal (JSON_stringify_2 (Baseline.list_to_json rs)), p).
Proof.
  intros Hs%holds_stored. unfold btnExport_click, bind.
  now rewrite loadRecords_run, Hs.
Qed.

End HandlerFacts.

(** * The claims *)

(** ** Digest Service *)

Module DigestService.
Import JS Page Main Text Store Hex DigestFacts HandlerFacts Samples.
Local Open Scope list_scope.

(** C8.  The digest of a file depends on its bytes only: two files holding
    the same bytes [B], whatever their names, dates and the state of the
    page, get the same digest string, the page is left as it was, and that
    string is made of exactly 64 characters, each a lowercase hexadecimal
    digit.  The hex encoding on its own writes two lowercase hexadecimal
    characters for each byte of any buffer, so 64 of them for a buffer of
    32 bytes, which is what SHA-256 returns. *)
Theorem digest_deterministic_hex64
        (bytes : list Byte.byte) (f1 f2 : File.t) (p1 p2 : Page.t) :
  File.arrayBuffer f1 = Some bytes ->
  File.arrayBuffer f2 = Some bytes ->
  (exists d : string,
      sha256OfFile f1 p1 = (Normal d, p1)
      /\ sha256OfFile f2 p2 = (Normal d, p2)
      /\ String.length d = 64
      /\ all_chars lower_hex_char d = true)
  /\ (forall (b : Byte.byte) (buffer : list Byte.byte),
         toHex (b :: buffer) = byte_hex b +:+ toHex buffer
         /\ String.length (byte_hex b) = 2)
  /\ (forall buffer : list Byte.byte,
         length buffer = 32 ->
         String.length (toHex buffer) = 64
         /\ all_chars lower_hex_char (toHex buffer) = true).
Proof.
  intros H1 H2. split; [|split].
  - exists (digest_of bytes).
    rewrite (sha256OfFile_run _ _ _ H1), (sha256OfFile_run _ _ _ H2).
    repeat split.
    + unfold digest_of. rewrite toHex_length, digest_length. reflexivity.
    + apply toHex_lower_hex.
  - intros b buffer. split; [apply toHex_cons | apply byte_hex_two].
  - intros buffer Hlen. split; [|apply toHex_lower_hex].
    rewrite toHex_length, Hlen. reflexivity.
Qed.

Lemma digest_deterministic_hex64_witness :
  File.arrayBuffer file_a_changed = Some abd
  /\ File.arrayBuffer file_b = Some abd
  /\ (exists d : string,
         sha256OfFile file_a_changed blank = (Normal d, blank)
         /\ sha256OfFile file_b page_one = (Normal d, page_one)
         /\ String.length d = 64
         /\ all_chars lower_hex_char d = true)
  /\ (forall (b : Byte.byte) (buffer : list Byte.byte),
         toHex (b :: buffer) = byte_hex b +:+ toHex buffer
         /\ String.length (byte_hex b) = 2)
  /\ (forall buffer : list Byte.byte,
         length buffer = 32 ->
         String.length (toHex buffer) = 64
         /\ all_chars lower_hex_char (toHex buffer) = true).
Proof.
  split; [reflexivity|]. split; [reflexivity|].
  apply (digest_deterministic_hex64 abd file_a_changed file_b blank page_one);
    reflexivity.
Defined.

(** The FIPS 180-4 test vector for [abc], and zero padding of small bytes. *)
Example digest_abc : digest_of abc = abc_digest.
Proof. vm_compute. reflexivity. Qed.

Example toHex_pads : toHex [Byte.x00; Byte.x0a; Byte.xff] = "000aff".
Proof. reflexivity. Qed.

(** The test vectors for the empty message and for a message of two
    blocks. *)
Example digest_empty :
  digest_of [] = "e3b0c44298fc1c149afbf4c8996fb92427ae41e4649b934ca495991b7852b855".
Proof. vm_compute. reflexivity. Qed.

Example digest_two_blocks :
  digest_of (map byte_of_ascii
               (list_ascii_of_string
                  "abcdbcdecdefdefgefghfghighijhijkijkljklmklmnlmnomnopnopq"))
  = "248d6a61d20638b8e5c026930c3e6039a33ce45964ff2167f6ecedd419db06c1".
Proof. vm_compute. reflexivity. Qed.

(** A file that cannot be read has no digest: [sha256OfFile] throws. *)
Example digest_unreadable :
  eval (sha256OfFile file_unreadable) blank = Throw NotReadableError.
Proof. reflexivity. Qed.

End DigestService.

(** ** Baseline Store *)

Module BaselineStore.
Import JSON JS Page Main Store StoreFacts HandlerFacts Session Samples.
Local Open Scope list_scope.

(** *** list *)

(** [loadRecords] answers the empty array when the slot is absent, holds
    the empty string, or holds text that [JSON.parse] rejects; any other
    text is handed back as [JSON.parse] reads it. *)
Lemma loadRecords_cases (p : Page.t) :
  exists v : value,
    loadRecords p = (Normal v, p)
    /\ match localStorage p !! STORE_KEY with
       | None => v = JArr []
       | Some EmptyString => v = JArr []
       | Some text =>
           match JSON.parse text with
           | None => v = JArr []
           | Some parsed => v = parsed
           end
       end.
Proof.
  exists (stored_value (localStorage p !! STORE_KEY)).
  split; [apply loadRecords_run|]. unfold stored_value.
  destruct (localStorage p !! STORE_KEY) as [[|c text]|]; try reflexivity.
  destruct (JSON.parse (String c text)); reflexivity.
Qed.

(** C3.  The code at the failing input: with the text [null] in the slot,
    [JSON.parse] succeeds, so [loadRecords] returns [null] and not the
    empty array; [renderRecords], which reads [list.length], then throws
    a [TypeError]. *)
Theorem loadRecords_null_slot :
  localStorage page_null !! STORE_KEY = Some "null"
  /\ eval loadRecords page_null = Normal JNull
  /\ eval renderRecords page_null = Throw TypeError.
Proof. repeat split; vm_compute; reflexivity. Qed.

(** Other texts that are JSON but no array come back as they are read;
    text that is no JSON, and the empty text, come back as the empty
    array. *)
Example loadRecords_object_slot :
  eval loadRecords (page_with "{}") = Normal (JObj [])
  /\ eval loadRecords (page_with "42") = Normal (JNum 42)
  /\ eval loadRecords (page_with "true") = Normal (JBool true).
Proof. repeat split; vm_compute; reflexivity. Qed.

Example loadRecords_unparseable_slot :
  eval loadRecords (page_with "[{") = Normal (JArr [])
  /\ eval loadRecords (page_with EmptyString) = Normal (JArr [])
  /\ eval loadRecords blank = Normal (JArr []).
Proof. repeat split; vm_compute; reflexivity. Qed.

(** With [null] in the slot nothing can be added or deleted: both throw,
    and the slot stays as it is until it is cleared. *)
Example mutators_null_slot :
  addRecord env1 "a.txt" 3 1690000000000 abc_digest page_null = (Throw TypeError, page_null)
  /\ deleteRecord "3f2a-uuid-1" page_null = (Throw TypeError, page_null)
  /\ eval loadRecords (exec clearAllRecords page_null) = Normal (JArr []).
Proof. repeat split; vm_compute; reflexivity. Qed.

(** *** The persisted layout *)

(** C2, as the specification words it, fails: the record that registering
    [a.txt] leaves in the slot is an object without a [digest] field, so
    its fields are not id, name, size, lastModified, digest, savedAt. *)
Lemma persisted_record_lacks_digest_field :
  exists v : value,
    persisted_items page_one = Some [v] /\ ~ has_fields Spec.record_fields v.
Proof.
  exists (Baseline.to_json rec_a). split; [vm_compute; reflexivity|].
  intros (members & Heq & Hperm).
  assert (Hin : "digest" ∈ map fst members).
  { rewrite Hperm. unfold Spec.record_fields. do 4 right. left. }
  injection Heq as <-. cbn [map fst] in Hin.
  repeat (apply elem_of_cons in Hin as [Hin|Hin]; [discriminate Hin|]).
  now apply elem_of_nil in Hin.
Qed.

(** C2, amended.  Start from a page whose slot is absent or holds the text
    of a list of records, and let the page handle any sequence of events.
    The script touches no other key of [localStorage], and its slot is
    then absent or holds text that [JSON.parse] reads as an array in which
    every element is an object with exactly the six fields id, name, size,
    lastModified, hash, savedAt, in this order and of types string,
    string, number, number, string, number; the exported document is the
    2-space-indented serialisation of that same array (the empty array
    when the slot is absent), and [JSON.parse] reads it back as that
    array. *)
Theorem persisted_layout (p0 p : Page.t) (rs0 : list Baseline.t) :
  persisted p0 rs0 ->
  reachable p0 p ->
  (forall k, k <> STORE_KEY -> localStorage p !! k = localStorage p0 !! k)
  /\ exists items : list value,
       Forall record_shape items
       /\ ((localStorage p !! STORE_KEY = None /\ items = [])
           \/ exists text, localStorage p !! STORE_KEY = Some text
                           /\ JSON.parse text = Some (JArr items))
       /\ eval btnExport_click p = Normal (JSON_stringify_2 (JArr items))
       /\ JSON.parse (JSON_stringify_2 (JArr items)) = Some (JArr items).
Proof.
  intros H0 Hreach.
  destruct (reachable_persisted p0 p rs0 H0 Hreach) as [[rs Hrs] Hframe].
  split; [exact Hframe|].
  exists (map Baseline.to_json rs). split; [|split; [|split]].
  - apply Forall_forall. intros v (r & -> & _)%list_elem_of_fmap.
    apply record_shape_to_json.
  - unfold persisted in Hrs. destruct (localStorage p !! STORE_KEY) as [text|].
    + right. exists text. split; [reflexivity|]. subst text.
      apply (JSONFacts.parse_stringify _ (wf_list_to_json rs)).
    + left. now subst rs.
  - unfold eval. now rewrite (btnExport_click_run p rs (persisted_holds _ _ Hrs)).
  - apply (JSONFacts.parse_stringify_gap "  " _ eq_refl (wf_list_to_json rs)).
Qed.

Lemma persisted_layout_witness :
  persisted blank []
  /\ reachable blank page_two
  /\ (forall k, k <> STORE_KEY -> localStorage page_two !! k = localStorage blank !! k)
  /\ exists items : list value,
       Forall record_shape items
       /\ ((localStorage page_two !! STORE_KEY = None /\ items = [])
           \/ exists text, localStorage page_two !! STORE_KEY = Some text
                           /\ JSON.parse text = Some (JArr items))
       /\ eval btnExport_click page_two = Normal (JSON_stringify_2 (JArr items))
       /\ JSON.parse (JSON_stringify_2 (JArr items)) = Some (JArr items).
Proof.
  assert (H0 : persisted blank []) by (vm_compute; reflexivity).
  assert (Hreach : reachable blank page_two) by (repeat constructor).
  split; [exact H0|]. split; [exact Hreach|].
  exact (persisted_layout blank page_two [] H0 Hreach).
Defined.

(** *** add *)

(** C4, as the specification words it, fails: the id is not always fresh.
    [addRecord] takes the id from the generator and never compares it with
    the stored ids.  The store of [page_two] holds two records with
    distinct ids, the second one added in a browser without
    [crypto.randomUUID]; a call in the same millisecond, for which the
    fallback prints the same number, returns the id of that second record
    and leaves three records, two of them with one id; deleting the
    returned id then removes both. *)
Lemma addRecord_repeats_stored_id :
  holds page_two [rec_a; rec_b]
  /\ NoDup (map Baseline.id [rec_a; rec_b])
  /\ exists new : Baseline.t,
       eval (addRecord env2_again "c.txt" 9 1698000000000 "c0ffee") page_two
       = Normal (Baseline.id new)
       /\ holds (exec (addRecord env2_again "c.txt" 9 1698000000000 "c0ffee") page_two)
            [rec_a; rec_b; new]
       /\ Baseline.id new = Baseline.id rec_b
       /\ ~ NoDup (map Baseline.id [rec_a; rec_b; new])
       /\ holds (exec (deleteRecord (Baseline.id new))
                   (exec (addRecord env2_again "c.txt" 9 1698000000000 "c0ffee") page_two))
            [rec_a].
Proof.
  split; [vm_compute; reflexivity|].
  split; [apply (bool_decide_unpack _); vm_compute; exact I|].
  exists (Baseline.mk "1700000000500.75" "c.txt" 9 1698000000000 "c0ffee" 1700000000500).
  split; [vm_compute; reflexivity|]. split; [vm_compute; reflexivity|].
  split; [reflexivity|].
  split; [|vm_compute; reflexivity].
  intros Hnd. apply (bool_decide_pack _) in Hnd. vm_compute in Hnd. exact Hnd.
Qed.

(** C4, amended.  When the store holds the records [rs], [addRecord] called
    with (name, size, lastModified, hash) returns the id it took from the
    generator, [crypto.randomUUID()] where the browser has it and
    [String(Date.now() + Math.random())] otherwise, and leaves in the slot
    the text of [rs] followed by one new record: that id, the four
    supplied values unchanged and the current time.  [loadRecords] then
    yields exactly these records, one more than before.  The id is not
    compared with the stored ones: the ids are pairwise distinct afterwards
    exactly when they were before and no stored record has the generated
    id. *)
Theorem addRecord_appends
        (env : Env) (name : string) (size lastModified : Z) (hash : string)
        (p : Page.t) (rs : list Baseline.t) :
  holds p rs ->
  let id := match randomUUID env with
            | Some uuid => uuid
            | None => now_plus_random env
            end in
  let new := Baseline.mk id name size lastModified hash (now env) in
  let q := exec (addRecord env name size lastModified hash) p in
  eval (addRecord env name size lastModified hash) p = Normal id
  /\ localStorage q !! STORE_KEY = Some (JSON_stringify (Baseline.list_to_json (rs ++ [new])))
  /\ holds q (rs ++ [new])
  /\ length (rs ++ [new]) = S (length rs)
  /\ (NoDup (map Baseline.id (rs ++ [new]))
      <-> NoDup (map Baseline.id rs) /\ id ∉ map Baseline.id rs).
Proof.
  intros Hp id new q. subst q. unfold eval, exec.
  rewrite (addRecord_run env name size lastModified hash p rs Hp).
  fold (added env name size lastModified hash). cbn [fst snd localStorage].
  split; [reflexivity|].
  split; [now rewrite lookup_insert_eq|].
  split; [apply holds_saved|].
  split; [rewrite List.length_app; cbn [length]; lia|].
  rewrite map_app. cbn [map Baseline.id]. fold id. rewrite NoDup_app. split.
  - intros (Hnd & Hdisj & _). split; [assumption|].
    intros Hin. apply (Hdisj id Hin). left.
  - intros [Hnd Hfresh]. repeat split; [assumption | | apply NoDup_singleton].
    intros x Hx Hin. apply list_elem_of_singleton in Hin. subst x. now apply Hfresh.
Qed.

Lemma addRecord_appends_witness :
  holds page_one [rec_a]
  /\ let id := match randomUUID env2 with
               | Some uuid => uuid
               | None => now_plus_random env2
               end in
     let new := Baseline.mk id "b.txt" 3 1691000000000 "a52d" (now env2) in
     let q := exec (addRecord env2 "b.txt" 3 1691000000000 "a52d") page_one in
     eval (addRecord env2 "b.txt" 3 1691000000000 "a52d") page_one = Normal id
     /\ localStorage q !! STORE_KEY
        = Some (JSON_stringify (Baseline.list_to_json ([rec_a] ++ [new])))
     /\ holds q ([rec_a] ++ [new])
     /\ length ([rec_a] ++ [new]) = S (length [rec_a])
     /\ (NoDup (map Baseline.id ([rec_a] ++ [new]))
         <-> NoDup (map Baseline.id [rec_a]) /\ id ∉ map Baseline.id [rec_a]).
Proof.
  split; [vm_compute; reflexivity|].
  apply (addRecord_appends env2 "b.txt" 3 1691000000000 "a52d" page_one [rec_a]).
  vm_compute; reflexivity.
Defined.

(** *** remove *)



(** C10.  When the store holds the records [rs], after [deleteRecord id]
    it holds the records of [rs] whose id differs from [id], all of them
    and in their stored order: every record with that id is gone, the
    others are the very same records, none added, dropped or reordered. *)
Theorem deleteRecord_every_match_in_order (id : string) (p : Page.t) (rs : list Baseline.t) :
  holds p rs ->
  let rs' := filter (fun r => Baseline.id r <> id) rs in
  holds (exec (deleteRecord id) p) rs'
  /\ sublist rs' rs
  /\ (forall r, r ∈ rs' <-> r ∈ rs /\ Baseline.id r <> id)
  /\ (forall l1 r l2, rs = l1 ++ r :: l2 -> Baseline.id r <> id ->
      rs' = filter (fun r => Baseline.id r <> id) l1
            ++ r :: filter (fun r => Baseline.id r <> id) l2).
Proof.
  intros Hp rs'. unfold exec. rewrite (deleteRecord_run id p rs Hp). cbn [snd].
  split; [apply holds_saved|].
  split; [apply sublist_filter|].
  split.
  - intros r. subst rs'. rewrite list_elem_of_filter. tauto.
  - intros l1 r l2 -> Hne. subst rs'.
    now rewrite filter_app, filter_cons_True.
Qed.

Lemma deleteRecord_every_match_in_order_witness :
  holds page_two [rec_a; rec_b]
  /\ let rs' := filter (fun r => Baseline.id r <> "3f2a-uuid-1") [rec_a; rec_b] in
     holds (exec (deleteRecord "3f2a-uuid-1") page_two) rs'
     /\ sublist rs' [rec_a; rec_b]
     /\ (forall r, r ∈ rs' <-> r ∈ [rec_a; rec_b] /\ Baseline.id r <> "3f2a-uuid-1")
     /\ (forall l1 r l2, [rec_a; rec_b] = l1 ++ r :: l2 ->
         Baseline.id r <> "3f2a-uuid-1" ->
         rs' = filter (fun r => Baseline.id r <> "3f2a-uuid-1") l1
               ++ r :: filter (fun r => Baseline.id r <> "3f2a-uuid-1") l2).
Proof.
  split; [vm_compute; reflexivity|].
  apply (deleteRecord_every_match_in_order "3f2a-uuid-1" page_two [rec_a; rec_b]).
  vm_compute; reflexivity.
Defined.

(** Two stored records that share an id are both removed, and the record
    between them stays. *)
Example deleteRecord_twins :
  eval loadRecords page_twins = Normal (Baseline.list_to_json [rec_a; rec_b; rec_twin])
  /\ eval loadRecords (exec (deleteRecord "3f2a-uuid-1") page_twins)
     = Normal (Baseline.list_to_json [rec_b]).
Proof. split; vm_compute; reflexivity. Qed.

(** *** clear *)

(** C6.  Whatever the slot held (records, nothing, or text that is not a
    record list), [clearAllRecords] ends without an error, removes the
    slot, and [loadRecords] then returns the empty array; the Clear-All
    button does the same once the user confirms. *)
Theorem clear_then_list_empty (p : Page.t) :
  eval clearAllRecords p = Normal tt
  /\ localStorage (exec clearAllRecords p) !! STORE_KEY = None
  /\ eval loadRecords (exec clearAllRecords p) = Normal (JArr [])
  /\ exec (btnClearAll_click true) p = exec clearAllRecords p.
Proof.
  unfold eval, exec. rewrite clearAllRecords_run. cbn [fst snd].
  repeat split.
  - cbn [localStorage]. apply lookup_delete_eq.
  - rewrite loadRecords_run. cbn [fst localStorage]. now rewrite lookup_delete_eq.
  - unfold btnClearAll_click. now rewrite clearAllRecords_run.
Qed.

End BaselineStore.

(** ** Verification *)

Module Verification.
Import JSON JS Page Main Store StoreFacts HandlerFacts Session Samples.
Local Open Scope list_scope.

(** The first match of [findByDigest], as a split of the store. *)
Lemma findByDigest_cases (d : string) (rs : list Baseline.t) :
  match Spec.findByDigest d rs with
  | Some r =>
      exists l1 l2, rs = l1 ++ r :: l2
                    /\ Forall (fun x => Baseline.hash x <> d) l1 /\ Baseline.hash r = d
  | None => Forall (fun x => Baseline.hash x <> d) rs
  end.
Proof.
  unfold Spec.findByDigest. induction rs as [|x rs IH]; [constructor|].
  cbn [List.find]. destruct (decide (Baseline.hash x = d)) as [Hx|Hx].
  - rewrite bool_decide_eq_true_2 by assumption.
    exists [], rs. repeat split; [constructor | assumption].
  - rewrite bool_decide_eq_false_2 by assumption.
    destruct (List.find _ rs) as [r|].
    + destruct IH as (l1 & l2 & -> & Hl1 & Hr).
      exists (x :: l1), l2. repeat split; [now constructor | assumption].
    + now constructor.
Qed.

(** The four outcomes of [Spec.verify] and when each arises. *)
Lemma verify_cases (d name : string) (rs : list Baseline.t) :
  match Spec.verify d name rs with
  | Spec.NoBaselines d' => d' = d /\ rs = []
  | Spec.MATCH r d' =>
      d' = d /\ exists l1 l2, rs = l1 ++ r :: l2
                             /\ Forall (fun x => Baseline.hash x <> d) l1
                             /\ Baseline.hash r = d
  | Spec.NO_MATCH_BUT_SAME_NAME same d' =>
      d' = d /\ rs <> [] /\ Forall (fun x => Baseline.hash x <> d) rs
      /\ same = filter (fun r => Baseline.name r = name) rs /\ same <> []
  | Spec.NO_MATCH d' =>
      d' = d /\ rs <> [] /\ Forall (fun x => Baseline.hash x <> d) rs
      /\ filter (fun r => Baseline.name r = name) rs = []
  end.
Proof.
  unfold Spec.verify. destruct rs as [|r0 rs0]; [now split|].
  pose proof (findByDigest_cases d (r0 :: rs0)) as Hfind.
  destruct (Spec.findByDigest d (r0 :: rs0)) as [r|]; [now split|].
  unfold Spec.findByName.
  destruct (filter _ (r0 :: rs0)) as [|s0 same0] eqn:Hsame;
    repeat split; try assumption; discriminate.
Qed.


(** The comparison is case-sensitive: a stored digest in lowercase is not
    found under its uppercase spelling. *)
Example findByDigest_case_sensitive :
  Array_find (Baseline.list_to_json [Baseline.mk "i" "n" 0 0 "abc" 0]) (hash_is "ABC")
  = Normal None.
Proof. reflexivity. Qed.

(** C1.  With a readable file chosen and the store holding the records
    [rs], the Verify button leaves [localStorage] as it is and shows one of
    four results, with [d] the digest computed from the file: if [rs] is
    empty, "no baselines" with [d]; otherwise, if some record has digest
    [d], MATCH with the first such record of [rs]; otherwise, if some
    records have the file's name, NO MATCH with exactly those records, in
    stored order; otherwise NO MATCH alone. *)
Theorem verify_decision_procedure
        (p : Page.t) (f : File.t) (bytes : list Byte.byte) (rs : list Baseline.t) :
  verFiles p = Some f ->
  File.arrayBuffer f = Some bytes ->
  holds p rs ->
  let d := digest_of bytes in
  let same := filter (fun r => Baseline.name r = File.name f) rs in
  let q := exec btnVerify_click p in
  localStorage q = localStorage p
  /\ ((rs = [] /\ verShown q = mkShown "result warn" (NoBaselinesSaved d))
      \/ (exists l1 r l2,
             rs = l1 ++ r :: l2
             /\ Forall (fun x => Baseline.hash x <> d) l1
             /\ Baseline.hash r = d
             /\ verShown q = mkShown "result ok" (Match (Baseline.to_json r) d))
      \/ (rs <> [] /\ Forall (fun x => Baseline.hash x <> d) rs /\ same <> []
          /\ verShown q
             = mkShown "result bad" (NoMatchSameName d (map Baseline.to_json same)))
      \/ (rs <> [] /\ Forall (fun x => Baseline.hash x <> d) rs /\ same = []
          /\ verShown q = mkShown "result bad" (NoMatchFound d))).
Proof.
  intros Hf Hb Hp d same q. subst q. unfold exec.
  rewrite (btnVerify_click_run p f bytes rs Hf Hb Hp). fold d.
  cbn [snd with_verShown localStorage verShown]. split; [reflexivity|].
  pose proof (verify_cases d (File.name f) rs) as Hcases. fold same in Hcases.
  destruct (Spec.verify d (File.name f) rs) as [d' | r d' | found d' | d'];
    cbn [shown_outcome].
  - destruct Hcases as [-> ->]. left. now split.
  - destruct Hcases as (-> & l1 & l2 & Hsplit & Hl1 & Hr).
    right; left. now exists l1, r, l2.
  - destruct Hcases as (-> & Hne & Hnone & -> & Hsame).
    right; right; left. now repeat split.
  - destruct Hcases as (-> & Hne & Hnone & Hsame).
    right; right; right. now repeat split.
Qed.

Lemma verify_decision_procedure_witness :
  verFiles page_verify = Some file_a_changed
  /\ File.arrayBuffer file_a_changed = Some abd
  /\ holds page_verify [rec_a; rec_b]
  /\ let rs := [rec_a; rec_b] in
     let d := digest_of abd in
     let same := filter (fun r => Baseline.name r = File.name file_a_changed) rs in
     let q := exec btnVerify_click page_verify in
     localStorage q = localStorage page_verify
     /\ ((rs = [] /\ verShown q = mkShown "result warn" (NoBaselinesSaved d))
         \/ (exists l1 r l2,
                rs = l1 ++ r :: l2
                /\ Forall (fun x => Baseline.hash x <> d) l1
                /\ Baseline.hash r = d
                /\ verShown q = mkShown "result ok" (Match (Baseline.to_json r) d))
         \/ (rs <> [] /\ Forall (fun x => Baseline.hash x <> d) rs /\ same <> []
             /\ verShown q
                = mkShown "result bad" (NoMatchSameName d (map Baseline.to_json same)))
         \/ (rs <> [] /\ Forall (fun x => Baseline.hash x <> d) rs /\ same = []
             /\ verShown q = mkShown "result bad" (NoMatchFound d))).
Proof.
  split; [reflexivity|]. split; [reflexivity|]. split; [vm_compute; reflexivity|].
  apply (verify_decision_procedure page_verify file_a_changed abd [rec_a; rec_b]);
    [reflexivity | reflexivity | vm_compute; reflexivity].
Defined.

(** The scenario of the specification: one baseline for [a.txt]; the same
    name with other content gives NO MATCH with that one record, the same
    content under any name gives MATCH. *)
Example scenario_same_name :
  verShown (exec btnVerify_click (step (Choose verFile file_a_edited) page_one))
  = mkShown "result bad"
      (NoMatchSameName "d81a65c1de02e17d9cfd88d68a8768fd1e3262f5e2fb859382fe33734b3f3ca8"
         [Baseline.to_json rec_a]).
Proof. vm_compute. reflexivity. Qed.

Example scenario_same_content :
  verShown (exec btnVerify_click
              (step (Choose verFile (File.mk "renamed.bin" 3 5 (Some abc))) page_one))
  = mkShown "result ok" (Match (Baseline.to_json rec_a) abc_digest).
Proof. vm_compute. reflexivity. Qed.

(** Without a file the button asks for one; a file that cannot be read, and
    a slot that holds [null], end in the failure message. *)
Example verify_no_file :
  verShown (exec btnVerify_click page_two) = mkShown "result warn" ChooseFileToVerify.
Proof. vm_compute. reflexivity. Qed.

Example verify_unreadable :
  verShown (exec btnVerify_click (step (Choose verFile file_unreadable) page_two))
  = mkShown "result bad" (FailedToHash NotReadableError).
Proof. vm_compute. reflexivity. Qed.

Example verify_null_slot :
  verShown (exec btnVerify_click (step (Choose verFile file_a) page_null))
  = mkShown "result bad" (FailedToHash TypeError).
Proof. vm_compute. reflexivity. Qed.



End Verification.

(** * Further properties of the script *)

(** ** Escaping and hex strings *)

Module HtmlFacts.
Import Chars JS Main Text Hex Html StringFacts DigestFacts.

Lemma replaceAll_app (pat : ascii) (by_ a b : string) :
  replaceAll pat by_ (a +:+ b) = replaceAll pat by_ a +:+ replaceAll pat by_ b.
Proof.
  induction a as [|c a IH]; [reflexivity|].
  rewrite app_cons. cbn [replaceAll]. destruct (Ascii.eqb c pat).
  - now rewrite IH, app_assoc.
  - now rewrite IH, app_cons.
Qed.

Lemma escape_text_cons (c : ascii) (t : string) :
  escape_text (String c t) = entity c +:+ escape_text t.
Proof.
  unfold escape_text.
  destruct c as [[] [] [] [] [] [] [] []]; reflexivity.
Qed.

Lemma escape_text_entities (t : string) : escape_text t = entities t.
Proof.
  induction t as [|c t IH]; [reflexivity|].
  rewrite escape_text_cons. cbn [entities]. now rewrite IH.
Qed.

Lemma escape_text_app (a b : string) :
  escape_text (a +:+ b) = escape_text a +:+ escape_text b.
Proof.
  induction a as [|c a IH]; [reflexivity|].
  rewrite app_cons, !escape_text_cons, IH. now rewrite app_assoc.
Qed.

Lemma entity_inert (c : ascii) : all_chars inert (entity c) = true.
Proof. destruct c as [[] [] [] [] [] [] [] []]; reflexivity. Qed.

Lemma escape_text_inert (t : string) : all_chars inert (escape_text t) = true.
Proof.
  induction t as [|c t IH]; [reflexivity|].
  rewrite escape_text_cons, all_chars_app, entity_inert, IH. reflexivity.
Qed.

Lemma entity_plain (c : ascii) : reserved c = false -> entity c = String c EmptyString.
Proof. destruct c as [[] [] [] [] [] [] [] []]; (reflexivity || discriminate). Qed.

Lemma entity_reserved_length (c : ascii) : reserved c = true -> 4 <= String.length (entity c).
Proof. destruct c as [[] [] [] [] [] [] [] []]; cbn; (lia || discriminate). Qed.

Lemma entity_length_ge (c : ascii) : 1 <= String.length (entity c).
Proof. destruct c as [[] [] [] [] [] [] [] []]; cbn; lia. Qed.

Lemma escape_text_length (t : string) : String.length t <= String.length (escape_text t).
Proof.
  induction t as [|c t IH]; [reflexivity|].
  rewrite escape_text_cons, length_app. cbn [String.length].
  pose proof (entity_length_ge c). lia.
Qed.

Lemma byte_hex_plain (b : Byte.byte) : escape_text (byte_hex b) = byte_hex b.
Proof. destruct b; reflexivity. Qed.

Lemma hex_byte_byte_hex (b : Byte.byte) (r : string) :
  fromHex (byte_hex b +:+ r)
  = match fromHex r with Some bs => Some (b :: bs) | None => None end.
Proof. destruct b; reflexivity. Qed.

End HtmlFacts.

Module Escaping.
Import Chars JSON JS Main Text Hex Html StringFacts DigestFacts HtmlFacts.

Lemma escape_text_plain (t : string) :
  all_chars (fun c => negb (reserved c)) t = true -> escape_text t = t.
Proof.
  induction t as [|c t IH]; [reflexivity|]. cbn [all_chars].
  intros [Hc Ht]%andb_true_iff. apply negb_true_iff in Hc.
  rewrite escape_text_cons, (entity_plain c Hc), IH by assumption. reflexivity.
Qed.

Lemma escape_text_grows (t : string) :
  all_chars (fun c => negb (reserved c)) t = false ->
  String.length t < String.length (escape_text t).
Proof.
  induction t as [|c t IH]; [discriminate|]. cbn [all_chars].
  rewrite escape_text_cons, length_app. cbn [String.length].
  pose proof (escape_text_length t) as Hle.
  destruct (reserved c) eqn:Hc; cbn [negb andb].
  - intros _. pose proof (entity_reserved_length c Hc). lia.
  - intros Ht. rewrite (entity_plain c Hc). cbn [String.length]. specialize (IH Ht). lia.
Qed.

Lemma entity_app_inj (c1 c2 : ascii) (x y : string) :
  entity c1 +:+ x = entity c2 +:+ y -> c1 = c2 /\ x = y.
Proof.
  unfold entity.
  repeat (match goal with
          | |- context [Ascii.eqb ?c ?k] => is_var c; destruct (Ascii.eqb_spec c k) as [->|?]
          end; cbn [Ascii.eqb Bool.eqb]).
  all: cbv [append Chars.dquote]; intros [= ]; subst; try tauto; try congruence.
Qed.

Lemma entity_app_nonempty (c : ascii) (x : string) : entity c +:+ x <> EmptyString.
Proof. destruct c as [[] [] [] [] [] [] [] []]; discriminate. Qed.

Lemma escape_text_inj (t1 t2 : string) : escape_text t1 = escape_text t2 -> t1 = t2.
Proof.
  revert t2. induction t1 as [|c1 t1 IH]; intros [|c2 t2].
  - reflexivity.
  - rewrite escape_text_cons. intros H. symmetry in H. now apply entity_app_nonempty in H.
  - rewrite escape_text_cons. intros H. now apply entity_app_nonempty in H.
  - rewrite !escape_text_cons. intros [-> H]%entity_app_inj. f_equal. now apply IH.
Qed.

(** X1.  [escapeHtml] on a string is one pass over it: every character is
    replaced by its entity ([&amp;], [&lt;], [&gt;], [&quot;]) or kept, and
    the four [replaceAll] calls never escape what an earlier one wrote. *)
Theorem escapeHtml_single_pass (t : string) :
  escapeHtml (Some (JStr t)) = Normal (entities t).
Proof. cbn [escapeHtml]. now rewrite escape_text_entities. Qed.

(** X2.  Whatever [escapeHtml] returns holds no [<], no [>] and no double
    quote.  It returns the empty string for [undefined] and for [null], and
    for no other argument that is not a string; it throws exactly when the
    argument is neither a string nor nullish, and what it throws is a
    TypeError. *)
Theorem escapeHtml_markup_free (s : jsval) :
  (forall out, escapeHtml s = Normal out -> all_chars inert out = true)
  /\ (s = None \/ s = Some JNull <-> escapeHtml s = Normal EmptyString /\ forall t, s <> Some (JStr t))
  /\ ((exists v, s = Some v /\ v <> JNull /\ forall t, v <> JStr t)
      <-> escapeHtml s = Throw TypeError)
  /\ (forall err, escapeHtml s = Throw err -> err = TypeError).
Proof.
  split; [|split; [|split]].
  - destruct s as [[ | b | n | t | items | members ]|]; cbn [escapeHtml];
      intros out [= <-]; first [reflexivity | apply escape_text_inert].
  - split.
    + intros [-> | ->]; (split; [reflexivity | discriminate]).
    + destruct s as [[ | b | n | t | items | members ]|]; cbn [escapeHtml];
        intros [H Hn]; try discriminate H; auto.
      now destruct (Hn t).
  - split.
    + intros (v & -> & Hnull & Hstr).
      destruct v as [ | b | n | t | items | members ]; cbn [escapeHtml]; try reflexivity.
      * now destruct Hnull.
      * now destruct (Hstr t).
    + destruct s as [[ | b | n | t | items | members ]|]; cbn [escapeHtml];
        intros H; try discriminate H; eexists; (split; [reflexivity|]); split;
        discriminate.
  - destruct s as [[ | b | n | t | items | members ]|]; cbn [escapeHtml];
      intros err [= <-]; reflexivity.
Qed.

(** X3.  [escapeHtml] returns its argument unchanged exactly when the
    argument has none of the four characters [&], [<], [>] and the double
    quote. *)
Theorem escapeHtml_identity_iff (t : string) :
  escapeHtml (Some (JStr t)) = Normal t
  <-> all_chars (fun c => negb (reserved c)) t = true.
Proof.
  cbn [escapeHtml]. split.
  - intros [= H]. destruct (all_chars (fun c => negb (reserved c)) t) eqn:Hp; [reflexivity|].
    apply escape_text_grows in Hp. rewrite H in Hp. lia.
  - intros H. now rewrite escape_text_plain.
Qed.

(** X4.  [escapeHtml] loses nothing: two strings with the same escaped text
    are the same string. *)
Theorem escapeHtml_injective (t1 t2 : string) :
  escapeHtml (Some (JStr t1)) = escapeHtml (Some (JStr t2)) -> t1 = t2.
Proof. cbn [escapeHtml]. intros [= H]. now apply escape_text_inj. Qed.

Lemma escapeHtml_injective_witness :
  escapeHtml (Some (JStr "a<b>.txt")) = escapeHtml (Some (JStr ("a<b" +:+ ">.txt")))
  /\ "a<b>.txt" = "a<b" +:+ ">.txt".
Proof.
  split; [reflexivity|].
  apply (escapeHtml_injective "a<b>.txt" ("a<b" +:+ ">.txt")). reflexivity.
Defined.

(** X5.  The hex string [toHex] builds needs no escaping: [escapeHtml]
    returns it unchanged, for every buffer. *)
Theorem toHex_needs_no_escape (buffer : list Byte.byte) :
  escapeHtml (Some (JStr (toHex buffer))) = Normal (toHex buffer).
Proof.
  cbn [escapeHtml]. f_equal.
  induction buffer as [|b buffer IH]; [reflexivity|].
  now rewrite toHex_cons, escape_text_app, byte_hex_plain, IH.
Qed.

(** X6.  [toHex] is lossless: reading its string back two characters a byte
    gives the buffer again, so two buffers with the same string are equal. *)
Theorem toHex_decodes (buffer : list Byte.byte) : fromHex (toHex buffer) = Some buffer.
Proof.
  induction buffer as [|b buffer IH]; [reflexivity|].
  now rewrite toHex_cons, hex_byte_byte_hex, IH.
Qed.

End Escaping.

(** ** Frames, handlers and the records through one event *)

Module FrameFacts.
Import JSON JS Page Main Text Store Session Frame.
Import MonadFacts StringFacts JSONFacts StoreFacts DigestFacts HandlerFacts.
Local Open Scope list_scope.

Section Preserves.
Context {B : Type} (view : Page.t -> B).

Lemma preserves_ret {A} (a : A) : preserves view (ret a).
Proof. intros p. reflexivity. Qed.

Lemma preserves_throw {A} (err : Error) : preserves view (@throw A err).
Proof. intros p. reflexivity. Qed.

Lemma preserves_lift {A} (c : completion A) : preserves view (lift c).
Proof. intros p. reflexivity. Qed.

Lemma preserves_files (input : Input) : preserves view (files input).
Proof. intros p. reflexivity. Qed.

Lemma preserves_loadRecords : preserves view loadRecords.
Proof. intros p. unfold exec. now rewrite loadRecords_run. Qed.

Lemma preserves_sha256OfFile (file : File.t) : preserves view (sha256OfFile file).
Proof.
  intros p. unfold exec, sha256OfFile, bind, lift.
  now destruct (File.arrayBuffer file).
Qed.

Lemma preserves_bind {A C} (c : M A) (k : A -> M C) :
  preserves view c -> (forall a, preserves view (k a)) -> preserves view (bind c k).
Proof.
  intros Hc Hk p. unfold exec, bind. specialize (Hc p). unfold exec in Hc.
  destruct (c p) as [[a|err] p']; cbn [snd] in *; [|assumption].
  rewrite <- Hc. apply Hk.
Qed.

Lemma preserves_try_catch {A} (body : M A) (handler : Error -> M A) :
  preserves view body -> (forall err, preserves view (handler err)) ->
  preserves view (try_catch body handler).
Proof.
  intros Hb Hh p. unfold exec, try_catch. specialize (Hb p). unfold exec in Hb.
  destruct (body p) as [[a|err] p']; cbn [snd] in *; [assumption|].
  rewrite <- Hb. apply Hh.
Qed.

End Preserves.

Ltac frame :=
  repeat first
    [ apply preserves_ret | apply preserves_throw | apply preserves_lift
    | apply preserves_files | apply preserves_loadRecords | apply preserves_sha256OfFile
    | apply preserves_bind | apply preserves_try_catch
    | match goal with
      | |- forall _, _ => intro
      | |- preserves _ (match ?x with _ => _ end) => destruct x
      | |- preserves _ (if ?x then _ else _) => destruct x
      | |- preserves _ (show ?el _ _) => try (intros ?; reflexivity)
      | |- preserves _ (set_recordsBody _) => try (intros ?; reflexivity)
      | |- preserves _ (saveRecords _) => try (intros ?; reflexivity)
      | |- preserves _ (removeItem _) => try (intros ?; reflexivity)
      | |- preserves _ (set_files _ _) => try (intros ?; reflexivity)
      end ].

Lemma preserves_renderRecords : preserves inputs_and_boxes renderRecords.
Proof. unfold renderRecords. frame. Qed.

Lemma preserves_addRecord env name size lastModified hash :
  preserves inputs_and_boxes (addRecord env name size lastModified hash).
Proof. unfold addRecord. frame; apply preserves_renderRecords. Qed.

Lemma preserves_deleteRecord id : preserves inputs_and_boxes (deleteRecord id).
Proof. unfold deleteRecord. frame; apply preserves_renderRecords. Qed.

Lemma preserves_clearAllRecords : preserves inputs_and_boxes clearAllRecords.
Proof. unfold clearAllRecords. frame; apply preserves_renderRecords. Qed.

Lemma preserves_btnVerify_click : preserves beside_verShown btnVerify_click.
Proof. unfold btnVerify_click. frame. Qed.

Lemma preserves_quickVerify_change id chosen :
  preserves beside_verShown (quickVerify_change id chosen).
Proof. unfold quickVerify_change. frame. Qed.

Lemma preserves_renderRecords_register : preserves inputs_and_verShown renderRecords.
Proof. unfold renderRecords. frame. Qed.

Lemma preserves_btnHashSave_click env : preserves inputs_and_verShown (btnHashSave_click env).
Proof.
  unfold btnHashSave_click, addRecord. frame; apply preserves_renderRecords_register.
Qed.

End FrameFacts.

Module FlowFacts.
Import JSON JS Page Main Text Store Hex Session Frame Html.
Import MonadFacts StringFacts JSONFacts StoreFacts DigestFacts HandlerFacts FrameFacts HtmlFacts.
Local Open Scope list_scope.

(** *** Register and Verify without a readable file *)

Lemma btnHashSave_click_no_file (env : Env) (p : Page.t) :
  regFiles p = None ->
  btnHashSave_click env p
  = (Normal tt, with_regShown (mkShown "result warn" ChooseFileFirst) p).
Proof.
  intros Hf. unfold btnHashSave_click, bind at 1, files. rewrite Hf. reflexivity.
Qed.

Lemma btnHashSave_click_unreadable (env : Env) (p : Page.t) (f : File.t) :
  regFiles p = Some f -> File.arrayBuffer f = None ->
  btnHashSave_click env p
  = (Normal tt, with_regShown (mkShown "result bad" (FailedToHash NotReadableError)) p).
Proof.
  intros Hf Hb. unfold btnHashSave_click, bind at 1, files. rewrite Hf.
  unfold bind at 1, show at 1, try_catch. unfold bind at 1.
  rewrite (sha256OfFile_unreadable _ _ Hb). reflexivity.
Qed.

Lemma btnVerify_click_no_file (p : Page.t) :
  verFiles p = None ->
  btnVerify_click p = (Normal tt, with_verShown (mkShown "result warn" ChooseFileToVerify) p).
Proof.
  intros Hf. unfold btnVerify_click, bind at 1, files. rewrite Hf. reflexivity.
Qed.

Lemma btnVerify_click_unreadable (p : Page.t) (f : File.t) :
  verFiles p = Some f -> File.arrayBuffer f = None ->
  btnVerify_click p
  = (Normal tt, with_verShown (mkShown "result bad" (FailedToHash NotReadableError)) p).
Proof.
  intros Hf Hb. unfold btnVerify_click, bind at 1, files. rewrite Hf.
  unfold bind at 1, show at 1, try_catch. unfold bind at 1.
  rewrite (sha256OfFile_unreadable _ _ Hb). reflexivity.
Qed.

(** *** Handlers that catch what they throw *)






(** *** The records through one event *)

Lemma digest_of_hex (bytes : list Byte.byte) : hex_digest (digest_of bytes).
Proof.
  unfold hex_digest, digest_of. split.
  - rewrite toHex_length, digest_length. reflexivity.
  - apply toHex_lower_hex.
Qed.

Lemma step_Export (p : Page.t) : step Export p = p.
Proof.
  unfold step, exec, handle, btnExport_click, bind. rewrite loadRecords_run. reflexivity.
Qed.

Lemma step_records (e : Event) (p : Page.t) (rs : list Baseline.t) :
  persisted p rs ->
  exists rs',
    persisted (step e p) rs' /\ records_step rs rs'
    /\ (recordsBody p = table_of rs \/ e = Load -> recordsBody (step e p) = table_of rs').
Proof.
  intros Hp. pose proof (persisted_holds _ _ Hp) as Hh.
  assert (Hsame : e <> Load -> forall q, store_and_table q = store_and_table p ->
            exists rs', persisted q rs' /\ records_step rs rs'
              /\ (recordsBody p = table_of rs \/ e = Load -> recordsBody q = table_of rs')).
  { intros Hne q [= Hs Hb]. exists rs. split; [now apply (persisted_same_storage p)|].
    split; [constructor|]. intros [H|H]; [now rewrite Hb | contradiction]. }
  destruct e as [ | input chosen | env | | | | target confirmed chosen | | confirmed ].
  - exists rs. unfold step, exec. cbn [handle]. rewrite (renderRecords_run p rs Hh). cbn [snd].
    split; [now apply (persisted_same_storage p)|]. split; [constructor | reflexivity].
  - apply Hsame; [discriminate|]. now destruct input.
  - destruct (regFiles p) as [f|] eqn:Hf; [destruct (File.arrayBuffer f) as [bytes|] eqn:Hb|].
    + exists (rs ++ [registered env f bytes]). unfold step, exec. cbn [handle].
      rewrite (btnHashSave_click_run env p rs f bytes Hh Hf Hb). cbn [snd].
      split; [eapply persisted_insert; reflexivity|].
      split; [now constructor | reflexivity].
    + apply Hsame; [discriminate|]. unfold step, exec. cbn [handle].
      now rewrite (btnHashSave_click_unreadable env p f Hf Hb).
    + apply Hsame; [discriminate|]. unfold step, exec. cbn [handle].
      now rewrite (btnHashSave_click_no_file env p Hf).
  - apply Hsame; [discriminate | reflexivity].
  - apply Hsame; [discriminate|].
    pose proof (preserves_btnVerify_click p) as [= H1 _ _ _ H2].
    unfold store_and_table, step. cbn [handle]. now rewrite H1, H2.
  - apply Hsame; [discriminate | reflexivity].
  - unfold step. cbn [handle]. unfold recordsBody_click.
    destruct target as [text | action id | ]; try (apply Hsame; [discriminate | reflexivity]).
    destruct (String.eqb action "delete").
    + destruct confirmed; [|apply Hsame; [discriminate | reflexivity]].
      exists (filter (fun r => Baseline.id r <> id) rs). unfold exec.
      rewrite (deleteRecord_run id p rs Hh). cbn [snd].
      split; [eapply persisted_insert; reflexivity|].
      split; [constructor | reflexivity].
    + destruct (String.eqb action "quick-verify"); [|apply Hsame; [discriminate | reflexivity]].
      apply Hsame; [discriminate|].
      pose proof (preserves_quickVerify_change id chosen p) as [= H1 _ _ _ H2].
      unfold store_and_table. now rewrite H1, H2.
  - apply Hsame; [discriminate|]. now rewrite step_Export.
  - unfold step. cbn [handle]. unfold btnClearAll_click.
    destruct confirmed; [|apply Hsame; [discriminate | reflexivity]].
    exists []. unfold exec. rewrite clearAllRecords_run. cbn [snd].
    split; [eapply persisted_delete; reflexivity|].
    split; [constructor | reflexivity].
Qed.

Lemma records_step_Forall (P : Baseline.t -> Prop) (rs rs' : list Baseline.t) :
  (forall env f bytes, File.arrayBuffer f = Some bytes -> P (registered env f bytes)) ->
  records_step rs rs' -> Forall P rs -> Forall P rs'.
Proof.
  intros Hnew [ | env f bytes Hb | id | ] Hrs.
  - assumption.
  - apply Forall_app. split; [assumption|]. constructor; [now apply Hnew | constructor].
  - apply Forall_forall. intros r [_ Hr]%list_elem_of_filter.
    rewrite Forall_forall in Hrs. now apply Hrs.
  - constructor.
Qed.

Lemma reachable_Forall (P : Baseline.t -> Prop) (p0 p : Page.t) (rs0 : list Baseline.t) :
  (forall env f bytes, File.arrayBuffer f = Some bytes -> P (registered env f bytes)) ->
  persisted p0 rs0 -> Forall P rs0 -> reachable p0 p ->
  exists rs, persisted p rs /\ Forall P rs.
Proof.
  intros Hnew H0 HP. induction 1 as [|p e Hreach (rs & Hrs & HPrs)].
  - now exists rs0.
  - destruct (step_records e p rs Hrs) as (rs' & Hp' & Hstep & _).
    exists rs'. split; [assumption|]. now apply (records_step_Forall P rs).
Qed.

(** *** The table *)

Lemma rows_from_lookup (k i : nat) (rs : list Baseline.t) :
  rows_from k rs !! i = option_map (row_of (k + i)) (rs !! i).
Proof.
  revert k i. induction rs as [|r rs IH]; intros k i; [reflexivity|].
  destruct i as [|i]; cbn [rows_from lookup list_lookup option_map].
  - now rewrite Nat.add_0_r.
  - rewrite IH. now rewrite Nat.add_succ_comm.
Qed.

Lemma rows_from_length (k : nat) (rs : list Baseline.t) :
  length (rows_from k rs) = length rs.
Proof. revert k. induction rs as [|r rs IH]; intros k; cbn; [reflexivity | now rewrite IH]. Qed.

(** *** Deleting *)

Lemma filter_id_fresh (i : string) (rs : list Baseline.t) :
  i ∉ map Baseline.id rs -> filter (fun r => Baseline.id r <> i) rs = rs.
Proof.
  induction rs as [|r rs IH]; [reflexivity|]. cbn [map]. intros Hni.
  rewrite filter_cons_True.
  - f_equal. apply IH. intros Hin. apply Hni. now right.
  - intros Heq. apply Hni. rewrite Heq. left.
Qed.

Lemma find_loop_id_absent (i : string) (rs : list Baseline.t) :
  find_loop (id_is i) (map Baseline.to_json (filter (fun r => Baseline.id r <> i) rs))
  = Normal None.
Proof.
  apply (find_loop_none _ _ (id_is_record i)).
  apply Forall_forall. intros r [Hne _]%list_elem_of_filter. exact Hne.
Qed.

Lemma quickVerify_change_first (p : Page.t) (l1 l2 : list Baseline.t) (rec : Baseline.t)
      (f : File.t) (bytes : list Byte.byte) :
  holds p (l1 ++ rec :: l2) ->
  Forall (fun r => Baseline.id r <> Baseline.id rec) l1 ->
  File.arrayBuffer f = Some bytes ->
  quickVerify_change (Baseline.id rec) (Some f) p
  = (Normal tt,
     with_verShown (shown_quick (Spec.quickVerify (digest_of bytes) rec) rec (digest_of bytes)) p).
Proof.
  intros Hp Hl1 Hb. pose proof Hp as Hs%holds_stored.
  unfold quickVerify_change, bind at 1. rewrite loadRecords_run, Hs.
  unfold bind at 1, lift at 1, Baseline.list_to_json, Array_find.
  rewrite (find_loop_first _ _ (id_is_record (Baseline.id rec)) l1 l2 rec Hl1 eq_refl).
  unfold bind at 1, show at 1, try_catch. unfold bind at 1.
  rewrite (sha256OfFile_run _ _ _ Hb).
  unfold bind at 1, lift at 1. rewrite get_record_hash, strict_eq_string_decide.
  unfold Spec.quickVerify.
  destruct (decide (Baseline.hash rec = digest_of bytes)) as [He|He].
  - rewrite bool_decide_eq_true_2 by assumption. reflexivity.
  - rewrite bool_decide_eq_false_2 by assumption. reflexivity.
Qed.

End FlowFacts.

(** ** The store functions *)

Module StoreLaws.
Import JSON JS Page Main Text Store Hex Session Frame Html Samples.
Import MonadFacts StringFacts JSONFacts StoreFacts DigestFacts HandlerFacts FrameFacts HtmlFacts FlowFacts.
Local Open Scope list_scope.

(** X7.  What [saveRecords] writes, [loadRecords] reads back: for every
    JSON value without duplicate keys and every page, loading after saving
    returns the saved value, and saving writes no other key of
    [localStorage]. *)
Theorem saveRecords_then_loadRecords (v : value) (p : Page.t) :
  wf v = true ->
  eval loadRecords (exec (saveRecords v) p) = Normal v
  /\ forall k, k <> STORE_KEY ->
       localStorage (exec (saveRecords v) p) !! k = localStorage p !! k.
Proof.
  intros Hwf. split.
  - unfold eval. rewrite loadRecords_run. cbn [fst]. f_equal.
    unfold exec, saveRecords, setItem. cbn [snd localStorage].
    rewrite lookup_insert_eq. unfold stored_value, JSON_stringify.
    destruct (stringify_head v EmptyString) as (c & r & Hh & _).
    rewrite app_nil_r in Hh. rewrite Hh, <- Hh.
    now rewrite (parse_stringify v Hwf).
  - intros k Hne. unfold exec, saveRecords, setItem. cbn [snd localStorage].
    now apply lookup_insert_ne.
Qed.

Lemma saveRecords_then_loadRecords_witness :
  wf (Baseline.list_to_json [rec_a; rec_b]) = true
  /\ eval loadRecords (exec (saveRecords (Baseline.list_to_json [rec_a; rec_b])) page_null)
     = Normal (Baseline.list_to_json [rec_a; rec_b])
  /\ forall k, k <> STORE_KEY ->
       localStorage (exec (saveRecords (Baseline.list_to_json [rec_a; rec_b])) page_null) !! k
       = localStorage page_null !! k.
Proof.
  split; [reflexivity|].
  apply (saveRecords_then_loadRecords (Baseline.list_to_json [rec_a; rec_b]) page_null).
  reflexivity.
Defined.

(** X8.  When the store holds the records [rs], [renderRecords] ends
    normally and draws the placeholder row if [rs] is empty, and otherwise
    one row per record, in stored order: row [i] (from 0) is numbered
    [i + 1] and shows the escaped name, the size, the time of saving, the
    hash and, on its buttons, the id of record [i]. *)
Theorem renderRecords_rows (p : Page.t) (rs : list Baseline.t) :
  holds p rs ->
  eval renderRecords p = Normal tt
  /\ (rs = [] -> recordsBody (exec renderRecords p) = NoBaselinesYet)
  /\ (rs <> [] ->
      exists rows,
        recordsBody (exec renderRecords p) = Rows rows
        /\ length rows = length rs
        /\ forall (i : nat) (r : Baseline.t),
             rs !! i = Some r ->
             rows !! i
             = Some (mkRow (i + 1) (entities (Baseline.name r))
                           (Some (JNum (Baseline.size r)))
                           (Some (JNum (Baseline.savedAt r)))
                           (Some (JStr (Baseline.hash r)))
                           (Some (JStr (Baseline.id r))))).
Proof.
  intros Hp. unfold eval, exec. rewrite (renderRecords_run p rs Hp). cbn [fst snd recordsBody].
  split; [reflexivity|]. split; [now intros ->|].
  intros Hne. destruct rs as [|r0 rs0]; [now destruct Hne|].
  exists (rows_from 0 (r0 :: rs0)). split; [reflexivity|].
  split; [apply rows_from_length|].
  intros i r Hi. rewrite rows_from_lookup, Hi. cbn [option_map Nat.add].
  unfold row_of. now rewrite escape_text_entities.
Qed.

Lemma renderRecords_rows_witness :
  holds page_two [rec_a; rec_b]
  /\ eval renderRecords page_two = Normal tt
  /\ ([rec_a; rec_b] = [] -> recordsBody (exec renderRecords page_two) = NoBaselinesYet)
  /\ ([rec_a; rec_b] <> [] ->
      exists rows,
        recordsBody (exec renderRecords page_two) = Rows rows
        /\ length rows = length [rec_a; rec_b]
        /\ forall (i : nat) (r : Baseline.t),
             [rec_a; rec_b] !! i = Some r ->
             rows !! i
             = Some (mkRow (i + 1) (entities (Baseline.name r))
                           (Some (JNum (Baseline.size r)))
                           (Some (JNum (Baseline.savedAt r)))
                           (Some (JStr (Baseline.hash r)))
                           (Some (JStr (Baseline.id r))))).
Proof.
  assert (H : holds page_two [rec_a; rec_b]) by (vm_compute; reflexivity).
  split; [exact H|]. exact (renderRecords_rows page_two [rec_a; rec_b] H).
Defined.

(** X9.  Adding a record and then deleting the id that [addRecord]
    returned brings the store back: when the store holds [rs] and the new
    id is not the id of a stored record, the store holds [rs] again and the
    table shows [rs]. *)
Theorem addRecord_then_deleteRecord (env : Env) (name : string) (size lastModified : Z)
    (hash : string) (p : Page.t) (rs : list Baseline.t) :
  holds p rs ->
  new_id env ∉ map Baseline.id rs ->
  let q := exec (addRecord env name size lastModified hash) p in
  eval (addRecord env name size lastModified hash) p = Normal (new_id env)
  /\ eval (deleteRecord (new_id env)) q = Normal tt
  /\ holds (exec (deleteRecord (new_id env)) q) rs
  /\ recordsBody (exec (deleteRecord (new_id env)) q) = table_of rs.
Proof.
  intros Hp Hfresh q. subst q. unfold eval, exec.
  rewrite (addRecord_run env name size lastModified hash p rs Hp). cbn [fst snd].
  split; [reflexivity|].
  set (new := added env name size lastModified hash).
  rewrite (deleteRecord_run (new_id env) _ (rs ++ [new])) by apply holds_saved.
  cbn [fst snd recordsBody].
  assert (Hback : filter (fun r => Baseline.id r <> new_id env) (rs ++ [new]) = rs).
  { rewrite filter_app, (filter_id_fresh _ rs Hfresh).
    rewrite filter_cons_False by (intros H; now apply H).
    now rewrite filter_nil, List.app_nil_r. }
  rewrite Hback. split; [reflexivity|]. split; [apply holds_saved | reflexivity].
Qed.

Lemma addRecord_then_deleteRecord_witness :
  holds page_one [rec_a]
  /\ (new_id env2 ∉ map Baseline.id [rec_a])
  /\ eval (addRecord env2 "b.txt" 3 5 "c0ffee") page_one = Normal (new_id env2)
  /\ eval (deleteRecord (new_id env2)) (exec (addRecord env2 "b.txt" 3 5 "c0ffee") page_one)
     = Normal tt
  /\ holds (exec (deleteRecord (new_id env2))
              (exec (addRecord env2 "b.txt" 3 5 "c0ffee") page_one)) [rec_a]
  /\ recordsBody (exec (deleteRecord (new_id env2))
                    (exec (addRecord env2 "b.txt" 3 5 "c0ffee") page_one))
     = table_of [rec_a].
Proof.
  assert (H : holds page_one [rec_a]) by (vm_compute; reflexivity).
  assert (Hf : new_id env2 ∉ map Baseline.id [rec_a]).
  { cbn. intros Hin. apply elem_of_cons in Hin as [Hin|Hin]; [discriminate Hin|].
    now apply elem_of_nil in Hin. }
  split; [exact H|]. split; [exact Hf|].
  exact (addRecord_then_deleteRecord env2 "b.txt" 3 5 "c0ffee" page_one [rec_a] H Hf).
Defined.

Lemma filter_id_twice (i : string) (rs : list Baseline.t) :
  filter (fun r => Baseline.id r <> i) (filter (fun r => Baseline.id r <> i) rs)
  = filter (fun r => Baseline.id r <> i) rs.
Proof. apply list_filter_filter_l. tauto. Qed.

Lemma filter_id_swap (i j : string) (rs : list Baseline.t) :
  filter (fun r => Baseline.id r <> i) (filter (fun r => Baseline.id r <> j) rs)
  = filter (fun r => Baseline.id r <> j) (filter (fun r => Baseline.id r <> i) rs).
Proof. rewrite !list_filter_filter. apply list_filter_iff. tauto. Qed.

(** X10.  When the store holds a list of records, deleting the same id
    twice leaves the page as deleting it once does, and two deletions give
    the same page in either order. *)
Theorem deleteRecord_idempotent_commutes (i j : string) (p : Page.t) (rs : list Baseline.t) :
  holds p rs ->
  exec (deleteRecord i) (exec (deleteRecord i) p) = exec (deleteRecord i) p
  /\ exec (deleteRecord i) (exec (deleteRecord j) p)
     = exec (deleteRecord j) (exec (deleteRecord i) p).
Proof.
  intros Hp. unfold exec.
  rewrite (deleteRecord_run i p rs Hp), (deleteRecord_run j p rs Hp). cbn [snd].
  rewrite !(deleteRecord_run i _ _ (holds_saved _ _ _ _ _ _ _)).
  rewrite !(deleteRecord_run j _ _ (holds_saved _ _ _ _ _ _ _)).
  cbn [snd localStorage regFiles verFiles regShown verShown].
  rewrite !insert_insert_eq, filter_id_twice, (filter_id_swap i j). split; reflexivity.
Qed.

Lemma deleteRecord_idempotent_commutes_witness :
  holds page_twins [rec_a; rec_b; rec_twin]
  /\ exec (deleteRecord "3f2a-uuid-1") (exec (deleteRecord "3f2a-uuid-1") page_twins)
     = exec (deleteRecord "3f2a-uuid-1") page_twins
  /\ exec (deleteRecord "3f2a-uuid-1") (exec (deleteRecord "1700000000500.75") page_twins)
     = exec (deleteRecord "1700000000500.75") (exec (deleteRecord "3f2a-uuid-1") page_twins).
Proof.
  assert (H : holds page_twins [rec_a; rec_b; rec_twin]) by (vm_compute; reflexivity).
  split; [exact H|].
  exact (deleteRecord_idempotent_commutes "3f2a-uuid-1" "1700000000500.75" page_twins _ H).
Defined.

(** X11.  [clearAllRecords] repairs any slot: on every page, also one whose
    slot holds text that is not a list of records, [addRecord] called after
    [clearAllRecords] returns its id and leaves a store that holds the new
    record alone, shown as the only row. *)
Theorem clearAllRecords_then_addRecord (env : Env) (name : string) (size lastModified : Z)
    (hash : string) (p : Page.t) :
  eval (addRecord env name size lastModified hash) (exec clearAllRecords p)
  = Normal (new_id env)
  /\ holds (exec (addRecord env name size lastModified hash) (exec clearAllRecords p))
       [added env name size lastModified hash]
  /\ recordsBody (exec (addRecord env name size lastModified hash) (exec clearAllRecords p))
     = table_of [added env name size lastModified hash].
Proof.
  unfold eval, exec. rewrite clearAllRecords_run. cbn [snd].
  rewrite (addRecord_run env name size lastModified hash _ []) by apply holds_cleared.
  cbn [fst snd app recordsBody]. split; [reflexivity|]. split; [apply holds_saved | reflexivity].
Qed.

(** X12.  [renderRecords], [addRecord], [deleteRecord] and [clearAllRecords]
    write the slot and the table only: on every page, and also when they
    throw, the two file inputs and the two result boxes are left as they
    were. *)
Theorem store_functions_frame (env : Env) (name : string) (size lastModified : Z)
    (hash id : string) :
  preserves inputs_and_boxes renderRecords
  /\ preserves inputs_and_boxes (addRecord env name size lastModified hash)
  /\ preserves inputs_and_boxes (deleteRecord id)
  /\ preserves inputs_and_boxes clearAllRecords.
Proof.
  split; [apply preserves_renderRecords|].
  split; [apply preserves_addRecord|].
  split; [apply preserves_deleteRecord | apply preserves_clearAllRecords].
Qed.

End StoreLaws.

(** ** The flows and the session *)

Module Flows.
Import JSON JS Page Main Text Store Hex Session Frame Html Samples.
Import MonadFacts StringFacts JSONFacts StoreFacts DigestFacts HandlerFacts FrameFacts HtmlFacts FlowFacts.
Local Open Scope list_scope.


(** X14.  Verifying writes the verify result box and nothing else: on
    every page, the Verify handler and the quick-verify listener leave
    [localStorage], the table, both file inputs and the register box as
    they were. *)
Theorem verify_writes_its_box_only (id : string) (chosen : option File.t) :
  preserves beside_verShown btnVerify_click
  /\ preserves beside_verShown (quickVerify_change id chosen).
Proof. split; [apply preserves_btnVerify_click | apply preserves_quickVerify_change]. Qed.

(** X15.  The Hash and Save handler never changes a file input and never
    writes the verify result box, on any page. *)
Theorem register_keeps_inputs_and_verify_box (env : Env) :
  preserves inputs_and_verShown (btnHashSave_click env).
Proof. apply preserves_btnHashSave_click. Qed.

(** X16.  Hash and Save with a readable file chosen, on a store that holds
    [rs]: the store then holds [rs] followed by one record with the name,
    size and modification time of the file, the hash of its bytes as 64
    lowercase hex characters, the id of the generator and the current
    time; the table shows the new list and the register box shows the
    saved name, size and hash. *)
Theorem register_stores_file (env : Env) (p : Page.t) (rs : list Baseline.t)
    (f : File.t) (bytes : list Byte.byte) :
  holds p rs -> regFiles p = Some f -> File.arrayBuffer f = Some bytes ->
  let q := exec (btnHashSave_click env) p in
  let r := Baseline.mk (new_id env) (File.name f) (File.size f) (File.lastModified f)
                       (toHex (SHA256.digest bytes)) (now env) in
  holds q (rs ++ [r])
  /\ recordsBody q = table_of (rs ++ [r])
  /\ regShown q
     = mkShown "result ok" (SavedBaseline (File.name f) (File.size f) (Baseline.hash r))
  /\ hex_digest (Baseline.hash r).
Proof.
  intros Hp Hf Hb q r. subst q. unfold exec.
  rewrite (btnHashSave_click_run env p rs f bytes Hp Hf Hb). cbn [snd recordsBody regShown].
  split; [apply holds_saved|]. split; [reflexivity|]. split; [reflexivity|].
  apply digest_of_hex.
Qed.

Lemma register_stores_file_witness :
  holds (step (Choose regFile file_b) page_one) [rec_a]
  /\ regFiles (step (Choose regFile file_b) page_one) = Some file_b
  /\ File.arrayBuffer file_b = Some abd
  /\ holds page_two [rec_a; rec_b]
  /\ recordsBody page_two = table_of [rec_a; rec_b]
  /\ regShown page_two
     = mkShown "result ok" (SavedBaseline "b.txt" 3 (Baseline.hash rec_b))
  /\ hex_digest (Baseline.hash rec_b).
Proof.
  assert (H : holds (step (Choose regFile file_b) page_one) [rec_a])
    by (vm_compute; reflexivity).
  split; [exact H|]. split; [reflexivity|]. split; [reflexivity|].
  pose proof (register_stores_file env2 (step (Choose regFile file_b) page_one) [rec_a]
                file_b abd H eq_refl eq_refl) as Hw.
  cbv zeta in Hw.
  replace (toHex (SHA256.digest abd)) with (Baseline.hash rec_b) in Hw
    by (vm_compute; reflexivity).
  exact Hw.
Defined.

(** X17.  Hash and Save without a readable file stores nothing: with no
    file chosen the register box asks for one, with a file that cannot be
    read it reports the failure, and in both cases nothing else on the
    page changes, whatever the slot holds. *)
Theorem register_needs_readable_file (env : Env) (p : Page.t) :
  (regFiles p = None \/ exists f, regFiles p = Some f /\ File.arrayBuffer f = None) ->
  btnHashSave_click env p
  = (Normal tt,
     with_regShown
       (match regFiles p with
        | None => mkShown "result warn" ChooseFileFirst
        | Some _ => mkShown "result bad" (FailedToHash NotReadableError)
        end) p).
Proof.
  intros [Hf | (f & Hf & Hb)].
  - rewrite Hf. now apply btnHashSave_click_no_file.
  - rewrite Hf. now apply (btnHashSave_click_unreadable env p f).
Qed.

Lemma register_needs_readable_file_witness :
  (regFiles (step (Choose regFile file_unreadable) page_null) = None
   \/ exists f, regFiles (step (Choose regFile file_unreadable) page_null) = Some f
                /\ File.arrayBuffer f = None)
  /\ btnHashSave_click env1 (step (Choose regFile file_unreadable) page_null)
     = (Normal tt,
        with_regShown (mkShown "result bad" (FailedToHash NotReadableError))
          (step (Choose regFile file_unreadable) page_null)).
Proof.
  assert (H : regFiles (step (Choose regFile file_unreadable) page_null) = None
              \/ exists f, regFiles (step (Choose regFile file_unreadable) page_null) = Some f
                           /\ File.arrayBuffer f = None).
  { right. exists file_unreadable. split; reflexivity. }
  split; [exact H|].
  exact (register_needs_readable_file env1 _ H).
Defined.

(** X18.  Verify without a readable file: with no file chosen the verify
    box asks for one, with a file that cannot be read it reports the
    failure; the store is not read and nothing else on the page changes. *)
Theorem verify_needs_readable_file (p : Page.t) :
  (verFiles p = None \/ exists f, verFiles p = Some f /\ File.arrayBuffer f = None) ->
  btnVerify_click p
  = (Normal tt,
     with_verShown
       (match verFiles p with
        | None => mkShown "result warn" ChooseFileToVerify
        | Some _ => mkShown "result bad" (FailedToHash NotReadableError)
        end) p).
Proof.
  intros [Hf | (f & Hf & Hb)].
  - rewrite Hf. now apply btnVerify_click_no_file.
  - rewrite Hf. now apply (btnVerify_click_unreadable p f).
Qed.

Lemma verify_needs_readable_file_witness :
  (verFiles blank = None \/ exists f, verFiles blank = Some f /\ File.arrayBuffer f = None)
  /\ btnVerify_click blank
     = (Normal tt, with_verShown (mkShown "result warn" ChooseFileToVerify) blank).
Proof.
  assert (H : verFiles blank = None
              \/ exists f, verFiles blank = Some f /\ File.arrayBuffer f = None)
    by (left; reflexivity).
  split; [exact H|].
  exact (verify_needs_readable_file blank H).
Defined.

Lemma find_app_skip {A} (f : A -> bool) (l1 l2 : list A) :
  Forall (fun x => f x = false) l1 -> List.find f (l1 ++ l2) = List.find f l2.
Proof.
  induction 1 as [|x l1 Hx _ IH]; [reflexivity|]. cbn [app List.find]. now rewrite Hx.
Qed.

Lemma findByDigest_registered (d : string) (rs : list Baseline.t) (new : Baseline.t) :
  Baseline.hash new = d ->
  exists r, Spec.findByDigest d (rs ++ [new]) = Some r
            /\ r ∈ rs ++ [new] /\ Baseline.hash r = d
            /\ (Forall (fun r0 => Baseline.hash r0 <> d) rs -> r = new).
Proof.
  intros Hnew. unfold Spec.findByDigest.
  destruct (List.find (fun r => bool_decide (Baseline.hash r = d)) (rs ++ [new])) as [r|] eqn:E.
  - exists r. apply find_some in E as HE. destruct HE as [Hin Hr].
    split; [reflexivity|]. split; [now apply list_elem_of_In|].
    split; [now apply bool_decide_eq_true in Hr|].
    intros Hno. rewrite find_app_skip in E.
    + cbn [List.find] in E. rewrite bool_decide_eq_true_2 in E by assumption. congruence.
    + eapply Forall_impl; [exact Hno|]. intros x Hx. now apply bool_decide_eq_false_2.
  - exfalso. pose proof (find_none _ _ E new) as Hn.
    assert (Hin : In new (rs ++ [new])) by (apply in_or_app; right; now left).
    specialize (Hn Hin). cbn beta in Hn.
    rewrite bool_decide_eq_true_2 in Hn by assumption. discriminate.
Qed.

(** X19.  A file that was registered verifies: after Hash and Save of a
    readable file on a store that holds [rs], choosing any file with the
    same bytes, under any name, and clicking Verify shows MATCH with a
    stored record that has the hash of these bytes; it is the record just
    stored when no earlier record has that hash. *)
Theorem register_then_verify_matches (env : Env) (p : Page.t) (rs : list Baseline.t)
    (f g : File.t) (bytes : list Byte.byte) :
  holds p rs -> regFiles p = Some f -> File.arrayBuffer f = Some bytes ->
  File.arrayBuffer g = Some bytes ->
  let q := step Verify (step (Choose verFile g) (step (HashSave env) p)) in
  let new := registered env f bytes in
  exists r,
    r ∈ rs ++ [new]
    /\ Baseline.hash r = digest_of bytes
    /\ verShown q = mkShown "result ok" (Match (Baseline.to_json r) (digest_of bytes))
    /\ (Forall (fun r0 => Baseline.hash r0 <> digest_of bytes) rs -> r = new).
Proof.
  intros Hp Hf Hb Hg q new. subst q. unfold step, exec. cbn [handle].
  rewrite (btnHashSave_click_run env p rs f bytes Hp Hf Hb). cbn [snd].
  fold (registered env f bytes). fold new.
  unfold set_files at 1. cbn [snd localStorage regFiles verFiles regShown verShown recordsBody].
  match goal with
  | |- context [btnVerify_click ?page] =>
      rewrite (btnVerify_click_run page g bytes (rs ++ [new]) eq_refl Hg
                 (holds_saved _ _ _ _ _ _ _))
  end.
  cbn [snd with_verShown verShown].
  destruct (findByDigest_registered (digest_of bytes) rs new eq_refl)
    as (r & Hfind & Hin & Hr & Hlast).
  exists r. split; [assumption|]. split; [assumption|]. split; [|assumption].
  unfold Spec.verify. rewrite Hfind.
  destruct (rs ++ [new]) as [|x l] eqn:E; [|reflexivity].
  apply app_eq_nil in E as [_ E]. discriminate E.
Qed.

Lemma register_then_verify_matches_witness :
  holds (step (Choose regFile file_b) page_one) [rec_a]
  /\ regFiles (step (Choose regFile file_b) page_one) = Some file_b
  /\ File.arrayBuffer file_b = Some abd
  /\ File.arrayBuffer file_a_changed = Some abd
  /\ exists r,
       r ∈ [rec_a] ++ [registered env2 file_b abd]
       /\ Baseline.hash r = digest_of abd
       /\ verShown (step Verify (step (Choose verFile file_a_changed) page_two))
          = mkShown "result ok" (Match (Baseline.to_json r) (digest_of abd))
       /\ (Forall (fun r0 => Baseline.hash r0 <> digest_of abd) [rec_a] ->
           r = registered env2 file_b abd).
Proof.
  assert (H : holds (step (Choose regFile file_b) page_one) [rec_a])
    by (vm_compute; reflexivity).
  split; [exact H|]. split; [reflexivity|]. split; [reflexivity|]. split; [reflexivity|].
  exact (register_then_verify_matches env2 (step (Choose regFile file_b) page_one) [rec_a]
           file_b file_a_changed abd H eq_refl eq_refl eq_refl).
Defined.

(** X20.  A deleted record is never reported again: when the store holds a
    list of records, after [deleteRecord] of an id, Verify of any readable
    file decides over the remaining records, and if it shows MATCH, the
    record shown does not have the deleted id. *)
Theorem delete_then_verify (i : string) (p : Page.t) (rs : list Baseline.t)
    (g : File.t) (bytes : list Byte.byte) :
  holds p rs -> File.arrayBuffer g = Some bytes ->
  let q := step Verify (step (Choose verFile g) (exec (deleteRecord i) p)) in
  verShown q
  = shown_outcome (Spec.verify (digest_of bytes) (File.name g)
                     (filter (fun r => Baseline.id r <> i) rs))
  /\ forall (matched : value) (d : string),
       verShown q = mkShown "result ok" (Match matched d) ->
       exists r, matched = Baseline.to_json r /\ r ∈ rs /\ Baseline.id r <> i.
Proof.
  intros Hp Hg q. set (rs' := filter (fun r => Baseline.id r <> i) rs).
  assert (Hq : verShown q
               = shown_outcome (Spec.verify (digest_of bytes) (File.name g) rs')).
  { subst q. unfold step, exec. cbn [handle].
    rewrite (deleteRecord_run i p rs Hp). cbn [snd]. fold rs'.
    unfold set_files at 1.
    cbn [snd localStorage regFiles verFiles regShown verShown recordsBody].
    match goal with
    | |- context [btnVerify_click ?page] =>
        rewrite (btnVerify_click_run page g bytes rs' eq_refl Hg (holds_saved _ _ _ _ _ _ _))
    end.
    reflexivity. }
  split; [exact Hq|]. rewrite Hq. clear Hq q.
  intros matched d. unfold Spec.verify.
  destruct rs' as [|x l] eqn:E; [cbn [shown_outcome]; discriminate|]. rewrite <- E.
  destruct (Spec.findByDigest (digest_of bytes) rs') as [r|] eqn:Hfind.
  - cbn [shown_outcome]. intros [= <- _]. exists r. split; [reflexivity|].
    apply find_some in Hfind as [Hin _]. apply list_elem_of_In in Hin.
    apply list_elem_of_filter in Hin as [Hne Hin]. now split.
  - destruct (Spec.findByName (File.name g) rs'); cbn [shown_outcome]; discriminate.
Qed.

Lemma delete_then_verify_witness :
  holds page_two [rec_a; rec_b]
  /\ File.arrayBuffer file_a = Some abc
  /\ verShown (step Verify (step (Choose verFile file_a)
                              (exec (deleteRecord "3f2a-uuid-1") page_two)))
     = shown_outcome (Spec.verify (digest_of abc) (File.name file_a)
                        (filter (fun r => Baseline.id r <> "3f2a-uuid-1") [rec_a; rec_b]))
  /\ forall (matched : value) (d : string),
       verShown (step Verify (step (Choose verFile file_a)
                                (exec (deleteRecord "3f2a-uuid-1") page_two)))
       = mkShown "result ok" (Match matched d) ->
       exists r, matched = Baseline.to_json r /\ r ∈ [rec_a; rec_b]
                 /\ Baseline.id r <> "3f2a-uuid-1".
Proof.
  assert (H : holds page_two [rec_a; rec_b]) by (vm_compute; reflexivity).
  split; [exact H|]. split; [reflexivity|].
  exact (delete_then_verify "3f2a-uuid-1" page_two [rec_a; rec_b] file_a abc H eq_refl).
Defined.

(** X21.  Quick-verify for an id that was deleted does nothing: when the
    store holds a list of records, after [deleteRecord] of an id the
    quick-verify listener for that id ends normally and leaves the whole
    page as it was, whatever file is picked. *)
Theorem quickVerify_after_delete (i : string) (chosen : option File.t) (p : Page.t)
    (rs : list Baseline.t) :
  holds p rs ->
  quickVerify_change i chosen (exec (deleteRecord i) p)
  = (Normal tt, exec (deleteRecord i) p).
Proof.
  intros Hp. unfold exec. rewrite (deleteRecord_run i p rs Hp). cbn [snd].
  destruct chosen as [f|]; [|reflexivity].
  unfold quickVerify_change, bind at 1. rewrite loadRecords_run.
  cbn [localStorage]. rewrite lookup_insert_eq, stored_value_stringify.
  unfold bind at 1, lift at 1, Baseline.list_to_json, Array_find.
  rewrite find_loop_id_absent. reflexivity.
Qed.

Lemma quickVerify_after_delete_witness :
  holds page_two [rec_a; rec_b]
  /\ quickVerify_change "3f2a-uuid-1" (Some file_a) (exec (deleteRecord "3f2a-uuid-1") page_two)
     = (Normal tt, exec (deleteRecord "3f2a-uuid-1") page_two).
Proof.
  assert (H : holds page_two [rec_a; rec_b]) by (vm_compute; reflexivity).
  split; [exact H|].
  exact (quickVerify_after_delete "3f2a-uuid-1" (Some file_a) page_two [rec_a; rec_b] H).
Defined.

(** X28.  Quick-verify compares with the first stored record that has the
    id of the button: when the store holds [l1], then [rec], then [l2], and
    no record of [l1] has the id of [rec], picking a readable file shows a
    match with [rec] if the hash of the file is the hash of [rec], and a
    mismatch with [rec] otherwise, also when a record of [l2] has the same
    id; nothing but the verify box changes. *)
Theorem quickVerify_first_record_with_id (p : Page.t) (l1 l2 : list Baseline.t)
    (rec : Baseline.t) (f : File.t) (bytes : list Byte.byte) :
  holds p (l1 ++ rec :: l2) ->
  Forall (fun r => Baseline.id r <> Baseline.id rec) l1 ->
  File.arrayBuffer f = Some bytes ->
  quickVerify_change (Baseline.id rec) (Some f) p
  = (Normal tt,
     with_verShown
       (if decide (Baseline.hash rec = toHex (SHA256.digest bytes))
        then mkShown "result ok" (QuickMatch (Baseline.to_json rec) (toHex (SHA256.digest bytes)))
        else mkShown "result bad"
               (QuickMismatch (Baseline.to_json rec) (toHex (SHA256.digest bytes)))) p).
Proof.
  intros Hp Hl1 Hb. rewrite (quickVerify_change_first p l1 l2 rec f bytes Hp Hl1 Hb).
  unfold Spec.quickVerify, digest_of.
  now destruct (decide (Baseline.hash rec = toHex (SHA256.digest bytes))).
Qed.

Lemma quickVerify_first_record_with_id_witness :
  holds page_twins ([] ++ rec_a :: [rec_b; rec_twin])
  /\ Forall (fun r => Baseline.id r <> Baseline.id rec_a) []
  /\ File.arrayBuffer file_a = Some abc
  /\ quickVerify_change "3f2a-uuid-1" (Some file_a) page_twins
     = (Normal tt,
        with_verShown
          (mkShown "result ok" (QuickMatch (Baseline.to_json rec_a) abc_digest)) page_twins).
Proof.
  assert (H : holds page_twins ([] ++ rec_a :: [rec_b; rec_twin]))
    by (vm_compute; reflexivity).
  split; [exact H|]. split; [constructor|]. split; [reflexivity|].
  pose proof (quickVerify_first_record_with_id page_twins [] [rec_b; rec_twin] rec_a
                file_a abc H (List.Forall_nil _) eq_refl) as Hw.
  replace (toHex (SHA256.digest abc)) with abc_digest in Hw by (vm_compute; reflexivity).
  exact Hw.
Defined.

(** X22.  After a confirmed Delete All, on every page and whatever the slot
    held, the table shows the placeholder, the exported document is the
    empty array, and Verify of any readable file reports that no baseline
    is saved, with the hash of the file. *)
Theorem clear_then_verify (p : Page.t) (g : File.t) (bytes : list Byte.byte) :
  File.arrayBuffer g = Some bytes ->
  let q := step (ClearAll true) p in
  recordsBody q = NoBaselinesYet
  /\ eval btnExport_click q = Normal "[]"
  /\ verShown (step Verify (step (Choose verFile g) q))
     = mkShown "result warn" (NoBaselinesSaved (toHex (SHA256.digest bytes))).
Proof.
  intros Hg q. subst q. unfold step, exec. cbn [handle btnClearAll_click].
  rewrite clearAllRecords_run. cbn [snd recordsBody]. split; [reflexivity|].
  split.
  - unfold eval. rewrite (btnExport_click_run _ []) by apply holds_cleared. reflexivity.
  - unfold set_files at 1.
    cbn [snd localStorage regFiles verFiles regShown verShown recordsBody].
    match goal with
    | |- context [btnVerify_click ?page] =>
        rewrite (btnVerify_click_run page g bytes [] eq_refl Hg (holds_cleared _ _ _ _ _ _))
    end.
    reflexivity.
Qed.

Lemma clear_then_verify_witness :
  File.arrayBuffer file_a = Some abc
  /\ recordsBody (step (ClearAll true) page_null) = NoBaselinesYet
  /\ eval btnExport_click (step (ClearAll true) page_null) = Normal "[]"
  /\ verShown (step Verify (step (Choose verFile file_a) (step (ClearAll true) page_null)))
     = mkShown "result warn" (NoBaselinesSaved (toHex (SHA256.digest abc))).
Proof.
  split; [reflexivity|].
  exact (clear_then_verify page_null file_a abc eq_refl).
Defined.

End Flows.

Module Invariants.
Import JSON JS Page Main Text Store Hex Session Frame Html Samples.
Import MonadFacts StringFacts JSONFacts StoreFacts DigestFacts HandlerFacts FrameFacts HtmlFacts FlowFacts.
Local Open Scope list_scope.

(** X23.  Only three events can write [localStorage]: Hash and Save, a
    confirmed Delete in the table and a confirmed Delete All.  Every other
    event (loading the page, choosing or clearing a file, Verify,
    quick-verify, copying a hash, Export, a dismissed confirmation) leaves
    [localStorage] as it was, on every page. *)
Theorem read_only_events_keep_storage (e : Event) (p : Page.t) :
  read_only e = true -> localStorage (step e p) = localStorage p.
Proof.
  unfold step.
  destruct e as [ | input chosen | env | | | | target confirmed chosen | | confirmed ];
    cbn [handle read_only]; intros Hro; try discriminate Hro.
  - apply keeps_renderRecords.
  - apply keeps_set_files.
  - apply keeps_btnClearReg_click.
  - apply keeps_btnVerify_click.
  - apply keeps_btnClearVer_click.
  - unfold recordsBody_click. destruct target as [text | action id | ]; try reflexivity.
    destruct (String.eqb action "delete").
    + destruct confirmed; [discriminate Hro | reflexivity].
    + destruct (String.eqb action "quick-verify"); [|reflexivity].
      apply keeps_quickVerify_change.
  - now rewrite <- (step_Export p) at 2.
  - destruct confirmed; [discriminate Hro | reflexivity].
Qed.

Lemma read_only_events_keep_storage_witness :
  read_only (Table (Button "quick-verify" "3f2a-uuid-1") true (Some file_a_changed)) = true
  /\ localStorage (step (Table (Button "quick-verify" "3f2a-uuid-1") true (Some file_a_changed))
                     page_two)
     = localStorage page_two.
Proof.
  split; [reflexivity|].
  apply (read_only_events_keep_storage
           (Table (Button "quick-verify" "3f2a-uuid-1") true (Some file_a_changed)) page_two).
  reflexivity.
Defined.



(** X25.  Stored hashes stay well formed through a session: if every
    stored record has a hash of 64 lowercase hex characters, then after any
    sequence of events every stored record has one. *)
Theorem stored_hashes_stay_hex (p0 p : Page.t) (rs0 : list Baseline.t) :
  persisted p0 rs0 ->
  Forall (fun r => hex_digest (Baseline.hash r)) rs0 ->
  reachable p0 p ->
  exists rs, persisted p rs /\ Forall (fun r => hex_digest (Baseline.hash r)) rs.
Proof.
  intros H0 Hhex Hreach.
  apply (reachable_Forall (fun r => hex_digest (Baseline.hash r)) p0 p rs0); try assumption.
  intros env f bytes _. apply digest_of_hex.
Qed.

Lemma stored_hashes_stay_hex_witness :
  persisted blank []
  /\ Forall (fun r => hex_digest (Baseline.hash r)) []
  /\ reachable blank page_verify
  /\ exists rs, persisted page_verify rs
                /\ Forall (fun r => hex_digest (Baseline.hash r)) rs.
Proof.
  assert (H0 : persisted blank []) by (vm_compute; reflexivity).
  assert (Hhex : Forall (fun r => hex_digest (Baseline.hash r)) []) by constructor.
  assert (Hreach : reachable blank page_verify).
  { unfold page_verify, page_two, page_one. do 5 apply reach_step. apply reach_start. }
  split; [exact H0|]. split; [exact Hhex|]. split; [exact Hreach|].
  exact (stored_hashes_stay_hex blank page_verify [] H0 Hhex Hreach).
Defined.

(** X26.  Records are stored whole and never edited: after any sequence
    of events, every stored record is one of the records the session
    started with, unchanged, or the record that Hash and Save built from a
    readable file: the metadata of that file with the hash of its bytes. *)
Theorem stored_records_provenance (p0 p : Page.t) (rs0 : list Baseline.t) :
  persisted p0 rs0 ->
  reachable p0 p ->
  exists rs,
    persisted p rs
    /\ Forall (fun r => r ∈ rs0
                        \/ exists env f bytes,
                             File.arrayBuffer f = Some bytes
                             /\ r = Baseline.mk (new_id env) (File.name f) (File.size f)
                                      (File.lastModified f) (toHex (SHA256.digest bytes))
                                      (now env)) rs.
Proof.
  intros H0 Hreach.
  apply (reachable_Forall _ p0 p rs0); try assumption.
  - intros env f bytes Hb. right. now exists env, f, bytes.
  - apply Forall_forall. intros r Hr. now left.
Qed.

Lemma stored_records_provenance_witness :
  persisted page_one [rec_a]
  /\ reachable page_one page_verify
  /\ exists rs,
       persisted page_verify rs
       /\ Forall (fun r => r ∈ [rec_a]
                           \/ exists env f bytes,
                                File.arrayBuffer f = Some bytes
                                /\ r = Baseline.mk (new_id env) (File.name f) (File.size f)
                                         (File.lastModified f) (toHex (SHA256.digest bytes))
                                         (now env)) rs.
Proof.
  assert (H0 : persisted page_one [rec_a]) by (vm_compute; reflexivity).
  assert (Hreach : reachable page_one page_verify).
  { unfold page_verify, page_two. do 3 apply reach_step. apply reach_start. }
  split; [exact H0|]. split; [exact Hreach|].
  exact (stored_records_provenance page_one page_verify [rec_a] H0 Hreach).
Defined.

(** X27.  Once the script has run its last line, [renderRecords()], the
    table always shows what is stored: from a page whose slot is absent or
    holds the text of a list of records, after the initial render and any
    sequence of events the table is the one [renderRecords] draws for the
    stored records. *)
Theorem table_in_sync_after_load (p0 p : Page.t) (rs0 : list Baseline.t) :
  persisted p0 rs0 ->
  reachable (step Load p0) p ->
  exists rs, in_sync p rs.
Proof.
  intros H0. induction 1 as [|p e Hreach (rs & Hrs & Hbody)].
  - destruct (step_records Load p0 rs0 H0) as (rs & Hrs & _ & Hbody).
    exists rs. split; [assumption|]. apply Hbody. now right.
  - destruct (step_records e p rs Hrs) as (rs' & Hrs' & _ & Hbody').
    exists rs'. split; [assumption|]. apply Hbody'. now left.
Qed.

Lemma table_in_sync_after_load_witness :
  persisted page_twins [rec_a; rec_b; rec_twin]
  /\ reachable (step Load page_twins)
       (step (Table (Button "delete" "1700000000500.75") true None) (step Load page_twins))
  /\ exists rs,
       in_sync (step (Table (Button "delete" "1700000000500.75") true None)
                  (step Load page_twins)) rs.
Proof.
  assert (H0 : persisted page_twins [rec_a; rec_b; rec_twin]) by (vm_compute; reflexivity).
  assert (Hreach : reachable (step Load page_twins)
            (step (Table (Button "delete" "1700000000500.75") true None)
               (step Load page_twins))) by (repeat constructor).
  split; [exact H0|]. split; [exact Hreach|].
  exact (table_in_sync_after_load page_twins _ [rec_a; rec_b; rec_twin] H0 Hreach).
Defined.

End Invariants.
